(** * Ahad AI service: retrieval-augmented answering, session registry and
      conversation log

    A shallow embedding of [AhadAIService] and [FileProcessor]
    (backend/src/config/langchain.config.js) and of the handlers of the
    server, together with the properties of the orchestration core.

    Modelling conventions.
    - A JavaScript string is a sequence of 16-bit code units.  It is held
      as a Rocq [string], the bytes of its UTF-8 encoding, a surrogate that
      stands alone being encoded like any other code unit.  [Js.units] reads
      the code units off the bytes; [length], [substring], [includes] and
      [trim] are defined on the code units.
    - Case conversion follows the Unicode tables of the engine.  The engine
      is a parameter, [Js.Engine], of every world and host.
    - JavaScript [Map]s keyed by session id are [gmap string _]; objects
      parsed from a request ([metadata]) are [gmap string JsVal].  The three
      literal tables of the code ([languageConfig], the canned [responses]
      and [supportedTypes]) are plain objects indexed by a string of the
      request: a lookup finds the own entries and, under the property names
      of [Object.prototype], the inherited functions.
    - The collaborators the service does not own (inference backend, vector
      store, sentiment analyser, the clock, byte-size formatting) form a
      [World]; each interaction reads the world at the current [tick] of the
      service, so a backend may answer differently from one call to the next.
    - A method is a computation in the monad [M]: it threads the service
      state and either returns a value or throws.  [try_catch] is the
      JavaScript [try]/[catch]: effects made before the throw persist.
    - One request runs to completion; interleaving of concurrent requests at
      [await] points is outside the model.
    - Numbers that the code obtains by floating-point division or writes as
      decimal literals are the corresponding exact rationals. *)

From Stdlib Require Import QArith Ascii String.
From stdpp Require Import gmap strings list pretty.
Close Scope Q_scope.

(** ** JavaScript built-ins *)

Module Js.

Definition nl : string := String (ascii_of_nat 10) EmptyString.
Definition dquote : string := String (ascii_of_nat 34) EmptyString.

(** *** Code units *)

Definition continuation (c : ascii) : bool :=
  ((128 <=? N_of_ascii c) && (N_of_ascii c <? 192))%N.

Definition payload (c : ascii) : N := (N_of_ascii c mod 64)%N.

(** The code units of a string.  A byte that does not open a sequence stands
    for itself. *)
Fixpoint units (s : string) : list N :=
  match s with
  | EmptyString => []
  | String a s1 =>
      let x := N_of_ascii a in
      if ((x <? 192) || (248 <=? x))%N then x :: units s1
      else
        match s1 with
        | EmptyString => [x]
        | String b s2 =>
            if negb (continuation b) then x :: units s1
            else if (x <? 224)%N then ((x mod 32) * 64 + payload b)%N :: units s2
            else
              match s2 with
              | EmptyString => x :: units s1
              | String c s3 =>
                  if negb (continuation c) then x :: units s1
                  else if (x <? 240)%N then
                    ((x mod 16) * 4096 + payload b * 64 + payload c)%N :: units s3
                  else
                    match s3 with
                    | EmptyString => x :: units s1
                    | String d s4 =>
                        if negb (continuation d) then x :: units s1
                        else
                          let cp :=
                            ((x mod 8) * 262144 + payload b * 4096
                             + payload c * 64 + payload d)%N in
                          (55296 + (cp - 65536) / 1024)%N
                            :: (56320 + (cp - 65536) mod 1024)%N :: units s4
                    end
              end
        end
  end.

Definition threeBytes (u : N) (rest : string) : string :=
  String (ascii_of_N (224 + u / 4096))
    (String (ascii_of_N (128 + (u / 64) mod 64))
       (String (ascii_of_N (128 + u mod 64)) rest)).

(** The string with the given code units; a high surrogate followed by a
    low one makes one character of four bytes. *)
Fixpoint ofUnits (l : list N) : string :=
  match l with
  | [] => EmptyString
  | u :: rest =>
      if (u <? 128)%N then String (ascii_of_N u) (ofUnits rest)
      else if (u <? 2048)%N then
        String (ascii_of_N (192 + u / 64))
          (String (ascii_of_N (128 + u mod 64)) (ofUnits rest))
      else
        match rest with
        | [] => threeBytes u EmptyString
        | v :: rest2 =>
            if ((55296 <=? u) && (u <? 56320) && (56320 <=? v) && (v <? 57344))%N
            then
              let cp := (65536 + (u - 55296) * 1024 + (v - 56320))%N in
              String (ascii_of_N (240 + cp / 262144))
                (String (ascii_of_N (128 + (cp / 4096) mod 64))
                   (String (ascii_of_N (128 + (cp / 64) mod 64))
                      (String (ascii_of_N (128 + cp mod 64)) (ofUnits rest2))))
            else threeBytes u (ofUnits rest)
        end
  end.

(** [s.length] *)
Definition length (s : string) : nat := List.length (units s).

(** [s.substring(0, n)] *)
Definition substring0 (n : nat) (s : string) : string := ofUnits (take n (units s)).

(** [s.includes(w)] *)
Fixpoint startsWith (l w : list N) : bool :=
  match w, l with
  | [], _ => true
  | _ :: _, [] => false
  | x :: w', y :: l' => (x =? y)%N && startsWith l' w'
  end.

Fixpoint occursIn (w l : list N) : bool :=
  startsWith l w ||
  match l with
  | [] => false
  | _ :: l' => occursIn w l'
  end.

Definition includes (s w : string) : bool := occursIn (units w) (units s).

(** [s.trim()]: white space and line terminators are stripped at both
    ends. *)
Definition whiteSpace (u : N) : bool :=
  (((9 <=? u) && (u <=? 13)) || (u =? 32) || (u =? 160) || (u =? 5760)
   || ((8192 <=? u) && (u <=? 8202)) || (u =? 8232) || (u =? 8233)
   || (u =? 8239) || (u =? 8287) || (u =? 12288) || (u =? 65279))%N.

Fixpoint trimStart (l : list N) : list N :=
  match l with
  | [] => []
  | u :: l' => if whiteSpace u then trimStart l' else l
  end.

Definition trim (s : string) : string :=
  ofUnits (rev (trimStart (rev (trimStart (units s))))).

(** [s.split(sep)] for a separator of one ASCII character: always at least
    one piece, empty pieces included. *)
Fixpoint split (sep : ascii) (s : string) : list string :=
  match s with
  | EmptyString => [EmptyString]
  | String c s' =>
      if Ascii.eqb c sep then EmptyString :: split sep s'
      else match split sep s' with
           | w :: ws => String c w :: ws
           | [] => [String c EmptyString]
           end
  end.

(** [l.join(sep)] *)
Definition join (sep : string) (l : list string) : string := String.concat sep l.

(** [l.slice(0, n)] and [l.slice(-n)] (the latter with JavaScript's reading
    of [-0] as [0]). *)
Definition slice0 {A} (n : nat) (l : list A) : list A := take n l.
Definition sliceLast {A} (n : nat) (l : list A) : list A :=
  if n =? 0 then l else drop (List.length l - n) l.

(** Truthiness of a string. *)
Definition nonEmpty (s : string) : bool :=
  match s with EmptyString => false | _ => true end.

(** *** The engine *)

(** What the model takes from the engine as given: the case conversions,
    which follow its Unicode tables, and the text that [String] and
    template literals make of a built-in function or of
    [Object.prototype]. *)
Record Engine : Type := {
  toLowerCase : string -> string;
  toUpperCase : string -> string;
  showInherited : string -> string
}.

(** *** Property lookup on a plain object *)

(** The property names of [Object.prototype]. *)
Definition objectPrototype : list string :=
  [ "constructor"; "__defineGetter__"; "__defineSetter__"; "hasOwnProperty";
    "__lookupGetter__"; "__lookupSetter__"; "isPrototypeOf";
    "propertyIsEnumerable"; "toString"; "valueOf"; "__proto__";
    "toLocaleString" ].

Definition inherited (key : string) : bool :=
  existsb (String.eqb key) objectPrototype.

(** [object[key]] on an object literal: an own entry, the value inherited
    from [Object.prototype] (a function, or the prototype itself), or
    [undefined]. *)
Inductive Property (A : Type) : Type :=
| Own (a : A)
| Inherited (key : string)
| Missing.
Arguments Own {A} a.
Arguments Inherited {A} key.
Arguments Missing {A}.

Definition property {A} (own : option A) (key : string) : Property A :=
  match own with
  | Some a => Own a
  | None => if inherited key then Inherited key else Missing
  end.

(** The [name] of an inherited value: that of the function, none for the
    prototype object. *)
Definition inheritedName (key : string) : option string :=
  if String.eqb key "constructor" then Some "Object"
  else if String.eqb key "__proto__" then None
  else Some key.

(** *** An engine for the examples *)

Definition lowerChar (c : ascii) : ascii :=
  let n := nat_of_ascii c in
  if (65 <=? n) && (n <=? 90) then ascii_of_nat (n + 32) else c.

Definition upperChar (c : ascii) : ascii :=
  let n := nat_of_ascii c in
  if (97 <=? n) && (n <=? 122) then ascii_of_nat (n - 32) else c.

Fixpoint mapChars (f : ascii -> ascii) (s : string) : string :=
  match s with
  | EmptyString => EmptyString
  | String c s' => String (f c) (mapChars f s')
  end.

(** The examples convert strings made of ASCII characters and of
    characters without case, on which every engine converts the letters A
    to Z and a to z and nothing else; inherited values are shown as V8
    shows them. *)
Definition exampleEngine : Engine :=
  {| toLowerCase := mapChars lowerChar;
     toUpperCase := mapChars upperChar;
     showInherited := fun key =>
       match inheritedName key with
       | Some name => "function " +:+ name +:+ "() { [native code] }"
       | None => "[object Object]"
       end |}.

End Js.

(** ** Data model *)

(** A value that the code takes for a string and that is one, unless it
    was read from a literal table under a property name of
    [Object.prototype]: then it is the inherited value. *)
Inductive Text : Type :=
| Str (s : string)
| Proto (key : string).

(** The text as [String] and template literals give it. *)
Definition shown (E : Js.Engine) (t : Text) : string :=
  match t with
  | Str s => s
  | Proto key => Js.showInherited E key
  end.

(** [t === literal] *)
Definition isStr (t : Text) (literal : string) : bool :=
  match t with
  | Str s => String.eqb s literal
  | Proto _ => false
  end.

(** Values stored under a metadata key. *)
Inductive JsVal : Type :=
| JStr (s : string)
| JNum (q : Q)
| JStrs (l : list string)
| JProto (key : string).

Definition truthy (v : JsVal) : bool :=
  match v with
  | JStr s => Js.nonEmpty s
  | JNum q => negb (Qeq_bool q 0)
  | JStrs _ => true
  | JProto _ => true
  end.

Definition textVal (t : Text) : JsVal :=
  match t with
  | Str s => JStr s
  | Proto key => JProto key
  end.

(** An entry of [localKnowledge]. *)
Module Doc.
Record t : Type := mk { content : string; metadata : gmap string JsVal }.
End Doc.

(** A retrieved document as it is merged into [relevantDocs]. *)
Module Passage.
Record t : Type := mk { pageContent : string; metadata : gmap string JsVal }.
End Passage.

(** A processed upload as the file processor hands it over; [content] is
    [None] when extraction produced nothing.  The remaining fields of the
    processor's record (id, subtype, preview, path) are never read by the
    service. *)
Module File.
Record t : Type := mk {
  filename : string;
  type : Text;
  size : N;
  content : option string
}.
Definition hasContent (f : t) : bool :=
  match content f with Some c => Js.nonEmpty c | None => false end.
Definition text (f : t) : string := default EmptyString (content f).
End File.

(** A conversation turn; the assistant's turns carry no [files] field. *)
Module Msg.
Inductive role_t : Type := user | assistant.
Record t : Type := mk {
  role : role_t;
  content : Text;
  language : string;
  files : option nat;
  timestamp : string
}.
Definition roleName (r : role_t) : string :=
  match r with user => "user" | assistant => "assistant" end.
End Msg.

(** An entry of [sessionContexts]. *)
Module Session.
Record t : Type := mk {
  files : list File.t;
  fileContext : string;
  lastUpdated : string;
  language : string
}.
End Session.

(** The object returned by [ragQuery], [getBasicResponse] and
    [fallbackResponse]. *)
Module Rag.
Record t : Type := mk {
  text : Text;
  sources : list string;
  confidence : Q;
  language : string;
  timestamp : string
}.
End Rag.

(** The object returned by the [try] body of [processWithRAG]. *)
Module Chat.
Record t : Type := mk {
  text : Text;
  sentiment : string;
  intent : string;
  sources : list string;
  confidence : Q;
  language : string;
  shouldSpeak : bool;
  sessionId : string;
  fileCount : nat;
  timestamp : string
}.
End Chat.

(** What [processWithRAG] hands back: the full answer, or the bare
    [fallbackResponse] object of its [catch] branch. *)
Inductive Reply : Type :=
| Answer (r : Chat.t)
| Degraded (r : Rag.t).

Definition reply_text (r : Reply) : Text :=
  match r with Answer c => Chat.text c | Degraded g => Rag.text g end.
Definition reply_sources (r : Reply) : list string :=
  match r with Answer c => Chat.sources c | Degraded g => Rag.sources g end.
Definition reply_confidence (r : Reply) : Q :=
  match r with Answer c => Chat.confidence c | Degraded g => Rag.confidence g end.
Definition reply_language (r : Reply) : string :=
  match r with Answer c => Chat.language c | Degraded g => Rag.language g end.

(** The [options] argument of [processWithRAG], defaults already applied,
    with strings for the message, the language and the session id and an
    array for each of the two file lists; for a message or a language that
    is no string and for a null [files] see [processWithRAG_any]. *)
Record Options : Type := {
  message : string;
  opt_language : string;
  opt_sessionId : string;
  useRAG : bool;
  analyzeSentimentFlag : bool;
  opt_files : list File.t;
  newFiles : list File.t
}.

(** The [context] argument of [ragQuery]; every field may be absent. *)
Record Context : Type := {
  history : option string;
  ctx_fileContext : option string;
  ctx_sessionId : option string;
  ctx_files : option (list File.t)
}.

(** ** Outcomes, the world and the service state *)

Inductive Outcome (A : Type) : Type :=
| Returns (a : A)
| Throws (error : string).
Arguments Returns {A} a.
Arguments Throws {A} error.

(** What [initializeChromaDB] finds: the collection, no heartbeat, or an
    error on the way. *)
Inductive ChromaProbe : Type :=
| CollectionFound
| NoHeartbeat
| ProbeFailed.

Record World : Type := {
  (** the engine that runs the service *)
  engine :> Js.Engine;
  (** the heartbeat request and the lookup of the collection *)
  chromaProbe : ChromaProbe;
  (** [new Date().toISOString()] *)
  now : nat -> string;
  (** [llm.invoke(prompt)], giving [response.content] *)
  llm_invoke : nat -> string -> Outcome string;
  (** [vectorStore.similaritySearch(query, k)] *)
  similaritySearch : nat -> string -> nat -> Outcome (list Passage.t);
  (** splitting the text and [vectorStore.addDocuments(docs)] *)
  addDocuments : nat -> string -> gmap string JsVal -> Outcome unit;
  (** the [natural] sentiment score of a text *)
  getSentiment : string -> Outcome Q;
  (** [formatFileSize(bytes)], computed by the code in floating point *)
  formatFileSize : N -> string
}.

(** The fields of [AhadAIService].  [vectorStore] and [llm] record whether
    the handle is non-null.  [tick], [prompts], [invocations] and
    [searches] are bookkeeping of the interactions with the world: how many
    there were, the prompts sent to the backend, the same with the instant
    of each call, and the vector searches issued, most recent first. *)
Record Service : Type := {
  vectorStore : bool;
  llm : bool;
  isReady : bool;
  localKnowledge : list Doc.t;
  conversationHistory : gmap string (list Msg.t);
  chromaInitialized : bool;
  sessionContexts : gmap string Session.t;
  tick : nat;
  prompts : list string;
  invocations : list (nat * string);
  searches : list (string * nat)
}.

Definition with_localKnowledge (k : list Doc.t) (s : Service) : Service :=
  {| vectorStore := vectorStore s; llm := llm s; isReady := isReady s;
     localKnowledge := k; conversationHistory := conversationHistory s;
     chromaInitialized := chromaInitialized s;
     sessionContexts := sessionContexts s;
     tick := tick s; prompts := prompts s;
     invocations := invocations s; searches := searches s |}.

Definition with_conversationHistory (h : gmap string (list Msg.t)) (s : Service)
  : Service :=
  {| vectorStore := vectorStore s; llm := llm s; isReady := isReady s;
     localKnowledge := localKnowledge s; conversationHistory := h;
     chromaInitialized := chromaInitialized s;
     sessionContexts := sessionContexts s;
     tick := tick s; prompts := prompts s;
     invocations := invocations s; searches := searches s |}.

Definition with_sessionContexts (c : gmap string Session.t) (s : Service)
  : Service :=
  {| vectorStore := vectorStore s; llm := llm s; isReady := isReady s;
     localKnowledge := localKnowledge s;
     conversationHistory := conversationHistory s;
     chromaInitialized := chromaInitialized s;
     sessionContexts := c;
     tick := tick s; prompts := prompts s;
     invocations := invocations s; searches := searches s |}.

(** One more interaction with the world, with what it adds to the logs. *)
Definition interacted (ps : list string) (qs : list (string * nat)) (s : Service)
  : Service :=
  {| vectorStore := vectorStore s; llm := llm s; isReady := isReady s;
     localKnowledge := localKnowledge s;
     conversationHistory := conversationHistory s;
     chromaInitialized := chromaInitialized s;
     sessionContexts := sessionContexts s;
     tick := S (tick s); prompts := ps ++ prompts s;
     invocations := map (pair (tick s)) ps ++ invocations s;
     searches := qs ++ searches s |}.

(** ** The method monad *)

Definition M (A : Type) : Type := Service -> Outcome A * Service.

#[global] Instance M_ret : MRet M := fun A a s => (Returns a, s).

#[global] Instance M_bind : MBind M := fun A B f m s =>
  match m s with
  | (Returns a, s') => f a s'
  | (Throws e, s') => (Throws e, s')
  end.

Definition try_catch {A} (body : M A) (handler : string -> M A) : M A :=
  fun s =>
    match body s with
    | (Returns a, s') => (Returns a, s')
    | (Throws e, s') => handler e s'
    end.

Definition this : M Service := fun s => (Returns s, s).
Definition update (f : Service -> Service) : M unit := fun s => (Returns tt, f s).

(** ** Language tables *)

Record Instructions : Type := {
  general : string;
  image : string;
  document : string;
  file : string
}.

Record LangConfig : Type := {
  name : string;
  greeting : string;
  instructions : Instructions
}.

Definition config_en : LangConfig :=
  {| name := "English";
     greeting :=
       "Hello! I'm Ahad AI, your multilingual assistant. How can I help you today?";
     instructions :=
       {| general :=
            "Provide helpful, accurate responses in English.";
          image :=
            "Describe the image content in detail.";
          document :=
            "Analyze the document and extract key information.";
          file :=
            "Reference uploaded files when relevant." |} |}.

Definition config_hi : LangConfig :=
  {| name := "Hindi";
     greeting :=
       "नमस्ते! मैं आहद AI हूं, आपका बहुभाषी सहायक। आज मैं आपकी कैसे सहायता कर सकता हूं?";
     instructions :=
       {| general :=
            "हिंदी में सहायक, सटीक प्रतिक्रियाएं प्रदान करें।";
          image :=
            "छवि सामग्री का विस्तार से वर्णन करें।";
          document :=
            "दस्तावेज़ का विश्लेषण करें और मुख्य जानकारी निकालें।";
          file :=
            "प्रासंगिक होने पर अपलोड की गई फ़ाइलों का संदर्भ दें।" |} |}.

Definition config_ar : LangConfig :=
  {| name := "Arabic";
     greeting :=
       "مرحبًا! أنا آحاد AI، مساعدك متعدد اللغات. كيف يمكنني مساعدتك اليوم؟";
     instructions :=
       {| general :=
            "قدم ردودًا مفيدة ودقيقة باللغة العربية.";
          image :=
            "صف محتوى الصورة بالتفصيل.";
          document :=
            "حلل المستند واستخرج المعلومات الرئيسية.";
          file :=
            "أشر إلى الملفات المرفوعة عندما تكون ذات صلة." |} |}.

Definition config_te : LangConfig :=
  {| name := "Telugu";
     greeting :=
       "హలో! నేను ఆహద్ AI, మీ బహుభాషా సహాయకుడు. నేను ఈరోజు మీకు ఎలా సహాయం చేయగలను?";
     instructions :=
       {| general :=
            "తెలుగులో సహాయకరమైన, ఖచ్చితమైన ప్రతిస్పందనలను అందించండి.";
          image :=
            "చిత్రం కంటెంట్‌ను వివరంగా వివరించండి.";
          document :=
            "డాక్యుమెంట్‌ను విశ్లేషించి ప్రధాన సమాచారాన్ని సేకరించండి.";
          file :=
            "సంబంధితమైనప్పుడు అప్‌లోడ్ చేసిన ఫైళ్లను సూచించండి." |} |}.

(** [this.languageConfig[language]] *)
Definition languageConfig (language : string) : Js.Property LangConfig :=
  Js.property
    match language with
    | "en" => Some config_en
    | "hi" => Some config_hi
    | "ar" => Some config_ar
    | "te" => Some config_te
    | _ => None
    end
    language.

(** What [this.languageConfig[language] || this.languageConfig[en]] yields:
    an entry of the table, or the value inherited under the key, which is
    truthy. *)
Inductive Config : Type :=
| Configured (config : LangConfig)
| Builtin (key : string).

Definition langConfigFor (language : string) : Config :=
  match languageConfig language with
  | Js.Own config => Configured config
  | Js.Inherited key => Builtin key
  | Js.Missing => Configured config_en
  end.

(** [langConfig.name] inside a template literal. *)
Definition configName (langConfig : Config) : string :=
  match langConfig with
  | Configured config => name config
  | Builtin key => default "undefined" (Js.inheritedName key)
  end.

(** [langConfig.instructions], which an inherited value does not have. *)
Definition configInstructions (langConfig : Config) : option Instructions :=
  match langConfig with
  | Configured config => Some (instructions config)
  | Builtin _ => None
  end.

(** The English entry of the table [responses] of [fallbackResponse]. *)
Definition response_en (query : string) : string :=
  ("I understand you're asking: "
   +:+ Js.dquote +:+ query +:+ Js.dquote +:+
   ". As Ahad AI, I can help you analyze uploaded files and answer questions about them. If you've uploaded files, please make sure they were successfully processed.").

(** The table [responses] of [fallbackResponse], indexed by [language]. *)
Definition responses (query language : string) : Js.Property string :=
  Js.property
  match language with
  | "en" => Some (response_en query)
  | "hi" => Some
      ("मैं समझता हूं आप पूछ रहे हैं: "
       +:+ Js.dquote +:+ query +:+ Js.dquote +:+
       "। आहद AI के रूप में, मैं अपलोड किए गए फाइलों का विश्लेषण करने और उनके बारे में प्रश्नों का उत्तर देने में आपकी सहायता कर सकता हूं। यदि आपने फाइलें अपलोड की हैं, तो कृपया सुनिश्चित करें कि वे सफलतापूर्वक प्रसंस्कृत हुई हैं।")
  | "ar" => Some
      ("أفهم أنك تسأل: "
       +:+ Js.dquote +:+ query +:+ Js.dquote +:+
       ". كآحاد AI، يمكنني مساعدتك في تحليل الملفات المرفوعة والإجابة على أسئلتك عنها. إذا قمت بتحميل ملفات، يرجى التأكد من معالجتها بنجاح.")
  | "te" => Some
      ("మీరు అడుగుతున్నారని నేను అర్థం చేసుకున్నాను: "
       +:+ Js.dquote +:+ query +:+ Js.dquote +:+
       ". ఆహద్ AI గా, నేను అప్‌లోడ్ చేసిన ఫైళ్లను విశ్లేషించడంలో మరియు వాటి గురించి ప్రశ్నలకు సమాధానం ఇవ్వడంలో మీకు సహాయపడగలను. మీరు ఫైళ్లను అప్‌లోడ్ చేసి ఉంటే, అవి విజయవంతంగా ప్రాసెస్ చేయబడ్డాయని నిర్ధారించుకోండి.")
  | _ => None
  end
  language.

(** [responses[language] || responses.en] *)
Definition cannedResponse (query language : string) : Text :=
  match responses query language with
  | Js.Own text => Str text
  | Js.Inherited key => Proto key
  | Js.Missing => Str (response_en query)
  end.

(** ** The service *)

(** The state left by the constructor. *)
Definition constructed : Service :=
  {| vectorStore := false; llm := false; isReady := false;
     localKnowledge := []; conversationHistory := ∅;
     chromaInitialized := false; sessionContexts := ∅;
     tick := 0; prompts := []; invocations := []; searches := [] |}.

Definition systemMetadata (type : string) : gmap string JsVal :=
  {[ "source" := JStr "system"; "type" := JStr type;
     "languages" := JStrs ["en"; "hi"; "ar"; "te"] ]}.

(** The documents installed by [initializeLocalStorage]. *)
Definition systemKnowledge : list Doc.t :=
  [ Doc.mk "Ahad AI is a multilingual assistant supporting English, Hindi, Arabic, and Telugu"
      (systemMetadata "multilingual");
    Doc.mk "The assistant can analyze uploaded files including images, PDFs, and documents in any supported language"
      (systemMetadata "file_support");
    Doc.mk "For image analysis, describe visual elements, colors, objects, text, and overall composition"
      (systemMetadata "image_analysis");
    Doc.mk "For document analysis, summarize content, extract key points, identify themes, and answer specific questions"
      (systemMetadata "document_analysis");
    Doc.mk "The assistant maintains conversation context and can remember uploaded files within a session"
      (systemMetadata "memory") ].

Definition initializeLocalStorage : M unit :=
  update (with_localKnowledge systemKnowledge).

(** [query.toLowerCase().split(' ').filter(w => w.length > 2)] *)
Definition queryWords (E : Js.Engine) (query : string) : list string :=
  List.filter (fun w => 2 <? Js.length w)
    (Js.split " "%char (Js.toLowerCase E query)).

(** Step 1 of [ragQuery]: the filter over [localKnowledge]. *)
Definition docMatches (E : Js.Engine) (words : list string) (doc : Doc.t)
  : bool :=
  let content := Js.toLowerCase E (Doc.content doc) in
  (length words =? 0) || existsb (fun word => Js.includes content word) words.

Definition searchLocalKnowledge (E : Js.Engine) (query : string)
    (knowledge : list Doc.t) : list Passage.t :=
  let words := queryWords E query in
  map (fun doc => Passage.mk (Doc.content doc) (Doc.metadata doc))
    (Js.slice0 3 (List.filter (docMatches E words) knowledge)).

(** The body of the [forEach] of [searchInSessionFiles] for one file: the
    passages it pushes onto [results]. *)
Definition sessionFileHits (E : Js.Engine) (words : list string)
    (file : File.t) : list Passage.t :=
  if File.hasContent file then
    let content := Js.toLowerCase E (File.text file) in
    let matches :=
      length (List.filter (fun word => Js.includes content word) words) in
    if 0 <? matches then
      [ Passage.mk
          ("From uploaded file " +:+ Js.dquote +:+ File.filename file
             +:+ Js.dquote +:+ ":" +:+ Js.nl
             +:+ Js.substring0 1000 (File.text file) +:+ "...")
          {[ "source" := JStr "session_file";
             "filename" := JStr (File.filename file);
             "type" := textVal (File.type file);
             "matchScore" :=
               JNum (Z.of_nat matches # Pos.of_nat (length words)) ]} ]
    else []
  else [].

Definition searchInSessionFiles (E : Js.Engine) (query : string)
    (sessionFiles : list File.t) : list Passage.t :=
  let words := queryWords E query in
  if length words =? 0 then []
  else Js.slice0 2 (flat_map (sessionFileHits E words) sessionFiles).

(** [detectIntent] *)
Definition detectIntent (E : Js.Engine) (text language : string) : string :=
  let textLower := Js.toLowerCase E text in
  let has := Js.includes textLower in
  if has "upload" || has "file" || has "attach" then "file_upload"
  else if has "image" || has "picture" || has "photo" then "image_analysis"
  else if has "document" || has "pdf" || has "word" then "document_analysis"
  else if has "search" || has "find" then "search"
  else if has "analyze" || has "explain" || has "describe" then "analysis"
  else if has "calculate" || has "math" then "calculate"
  else if has "translate" || has "language" then "translate"
  else if has "hello" || has "hi" || has "नमस्ते" || has "مرحبا"
          || has "హలో" then "greeting"
  else if has "help" then "help"
  else "general".

(** The line of [getConversationHistory] for one turn. *)
Definition renderTurn (E : Js.Engine) (msg : Msg.t) : string :=
  Msg.roleName (Msg.role msg) +:+ ": " +:+ shown E (Msg.content msg) +:+
  match Msg.files msg with
  | Some (S n) => " (uploaded " +:+ pretty (S n) +:+ " file(s))"
  | _ => ""
  end.

(** The sections of the prompt that [ragQuery] assembles, in the order in
    which it appends them. *)
Definition promptContext (E : Js.Engine) (language : string)
    (relevantDocs : list Passage.t) : string :=
  let contextText :=
    if 0 <? length relevantDocs
    then Js.join (Js.nl +:+ Js.nl) (map Passage.pageContent relevantDocs)
    else "No specific context available. Use your general knowledge." in
  let langConfig := langConfigFor language in
  "You are Ahad AI, an intelligent multilingual assistant." +:+ Js.nl +:+
  Js.nl +:+
  "IMPORTANT: You MUST respond EXCLUSIVELY in " +:+ configName langConfig +:+
  " language (" +:+ Js.toUpperCase E language +:+ ")!" +:+ Js.nl +:+
  Js.nl +:+
  "AVAILABLE LANGUAGES: English (en), Hindi (hi), Arabic (ar), Telugu (te)"
  +:+ Js.nl +:+
  "CURRENT RESPONSE LANGUAGE: " +:+ configName langConfig +:+ " (" +:+
  Js.toUpperCase E language +:+ ")" +:+ Js.nl +:+
  Js.nl +:+
  "CONTEXT INFORMATION:" +:+ Js.nl +:+
  contextText.

Definition promptFiles (context : Context) : string :=
  match ctx_fileContext context with
  | Some fileContext =>
      if Js.nonEmpty fileContext && Js.nonEmpty (Js.trim fileContext)
      then Js.nl +:+ Js.nl +:+ "UPLOADED FILES INFORMATION:" +:+ Js.nl +:+
           fileContext +:+ Js.nl
      else ""
  | None => ""
  end.

Definition promptFileCount (context : Context) : string :=
  match ctx_files context with
  | Some files =>
      if 0 <? length files
      then Js.nl +:+ "CURRENT SESSION HAS " +:+ pretty (length files) +:+
           " UPLOADED FILE(S)."
      else ""
  | None => ""
  end.

Definition promptHistory (context : Context) : string :=
  match history context with
  | Some h =>
      if Js.nonEmpty h
         && negb (String.eqb (Js.trim h) "No previous conversation")
      then Js.nl +:+ Js.nl +:+ "PREVIOUS CONVERSATION:" +:+ Js.nl +:+ h
      else ""
  | None => ""
  end.

Definition promptQuery (query : string) : string :=
  Js.nl +:+ Js.nl +:+ "USER QUERY: " +:+ query.

(** The instructions are those of the table entry in use; the section
    cannot be built when [langConfig] is an inherited value, which has no
    [instructions]. *)
Definition promptInstructions (E : Js.Engine) (instructions : Instructions)
    (query language : string) (context : Context) : string :=
  let langConfig := langConfigFor language in
  let has := Js.includes (Js.toLowerCase E query) in
  Js.nl +:+ Js.nl +:+ "LANGUAGE-SPECIFIC INSTRUCTIONS:" +:+ Js.nl +:+
  "1. Respond ONLY in " +:+ configName langConfig +:+ " (" +:+
  Js.toUpperCase E language +:+ ")" +:+ Js.nl +:+
  "2. " +:+ general instructions +:+ Js.nl +:+
  (if has "image" || has "picture" || has "photo" then
     "3. " +:+ image instructions +:+ Js.nl +:+
     "   - Describe visual elements, colors, objects, text" +:+ Js.nl +:+
     "   - Mention composition and overall impression" +:+ Js.nl +:+
     "   - If text is visible, read and interpret it" +:+ Js.nl
   else "") +:+
  (if has "document" || has "file" || has "pdf" then
     "3. " +:+ document instructions +:+ Js.nl +:+
     "   - Summarize key points" +:+ Js.nl +:+
     "   - Extract important information" +:+ Js.nl +:+
     "   - Answer specific questions about content" +:+ Js.nl
   else "") +:+
  match ctx_files context with
  | Some files =>
      if 0 <? length files
      then "3. " +:+ file instructions +:+ Js.nl
      else ""
  | None => ""
  end.

Definition promptGuidelines (E : Js.Engine) (language : string) : string :=
  Js.nl +:+ "GENERAL GUIDELINES:" +:+ Js.nl +:+
  "- Be helpful, friendly, and informative" +:+ Js.nl +:+
  "- If context is relevant, use it" +:+ Js.nl +:+
  "- If no context, use general knowledge" +:+ Js.nl +:+
  "- Maintain conversation flow" +:+ Js.nl +:+
  "- Keep responses concise but complete" +:+ Js.nl +:+
  Js.nl +:+ "RESPONSE IN " +:+ Js.toUpperCase E language +:+ ":" +:+ Js.nl.

(** [enhancedPrompt] as it stands when [ragQuery] invokes the backend.
    Reading [langConfig.instructions.general] throws when [langConfig] is
    an inherited value. *)
Definition enhancedPrompt (E : Js.Engine) (query language : string)
    (context : Context) (relevantDocs : list Passage.t) : Outcome string :=
  match configInstructions (langConfigFor language) with
  | Some instructions =>
      Returns
        (promptContext E language relevantDocs +:+
         promptFiles context +:+
         promptFileCount context +:+
         promptHistory context +:+
         promptQuery query +:+
         promptInstructions E instructions query language context +:+
         promptGuidelines E language)
  | None =>
      Throws "TypeError: Cannot read properties of undefined (reading 'general')"
  end.

(** The prompt of [getBasicResponse]. *)
Definition basicPrompt (query language : string) : string :=
  let langConfig := langConfigFor language in
  "User asked in " +:+ configName langConfig +:+ ": " +:+ Js.dquote +:+ query +:+
  Js.dquote +:+ Js.nl +:+
  "                " +:+ Js.nl +:+
  "Respond in " +:+ configName langConfig +:+
  " language only as Ahad AI, a helpful multilingual assistant." +:+ Js.nl +:+
  "Be friendly, informative, and helpful." +:+ Js.nl +:+
  "If the user is asking about uploaded files but you don't have file context, ask them to upload the file first."
  +:+ Js.nl +:+
  Js.nl +:+
  "Response in " +:+ configName langConfig +:+ ":".

(** Results of the maintenance methods, one constructor per object shape. *)
Inductive KnowledgeResult : Type :=
| Added (count : nat) (ids : list nat)
| AddFailed (error : string).

Inductive ClearResult : Type :=
| Cleared (message timestamp : string)
| ClearFailed (error : string).

Definition success (r : ClearResult) : bool :=
  match r with Cleared _ _ => true | ClearFailed _ => false end.

Inductive SessionInfo : Type :=
| NotFound (message : string)
| Found (sessionId language : string) (fileCount messageCount : nat)
        (lastUpdated timestamp : string).

Definition exists_ (i : SessionInfo) : bool :=
  match i with NotFound _ => false | Found _ _ _ _ _ _ => true end.

(** The metadata object that [addToKnowledgeBase] stores: the given
    metadata spread over the four computed fields. *)
Definition storedMetadata (source timestamp : string)
    (metadata : gmap string JsVal) : gmap string JsVal :=
  let type :=
    match metadata !! "type" with
    | Some v => if truthy v then v else JStr "general"
    | None => JStr "general"
    end in
  let languages :=
    match metadata !! "languages" with
    | Some v => if truthy v then v else JStrs ["en"]
    | None => JStrs ["en"]
    end in
  metadata ∪
    {[ "source" := JStr source; "type" := type;
       "timestamp" := JStr timestamp; "languages" := languages ]}.

Section Methods.

Variable W : World.

(** *** Interactions with the world *)

Definition newDate : M string := fun s =>
  (Returns (now W (tick s)), interacted [] [] s).

Definition llmInvoke (prompt : string) : M string := fun s =>
  (llm_invoke W (tick s) prompt, interacted [prompt] [] s).

Definition vectorSimilaritySearch (query : string) (k : nat)
  : M (list Passage.t) := fun s =>
  (similaritySearch W (tick s) query k, interacted [] [(query, k)] s).

Definition vectorAddDocuments (text : string) (metadata : gmap string JsVal)
  : M unit := fun s =>
  (addDocuments W (tick s) text metadata, interacted [] [] s).

(** An expression that is evaluated without touching the service, and may
    throw. *)
Definition evaluate {A} (o : Outcome A) : M A := fun s => (o, s).

(** *** Start-up *)

(** [initializeChromaDB]: the store is attached when the heartbeat answers
    and the collection exists; without a heartbeat nothing changes; an
    error resets the handle. *)
Definition initializeChromaDB : M unit :=
  match chromaProbe W with
  | CollectionFound =>
      update (fun s =>
        {| vectorStore := true; llm := llm s; isReady := isReady s;
           localKnowledge := localKnowledge s;
           conversationHistory := conversationHistory s;
           chromaInitialized := true;
           sessionContexts := sessionContexts s;
           tick := tick s; prompts := prompts s;
     invocations := invocations s; searches := searches s |})
  | NoHeartbeat => mret tt
  | ProbeFailed =>
      update (fun s =>
        {| vectorStore := false; llm := llm s; isReady := isReady s;
           localKnowledge := localKnowledge s;
           conversationHistory := conversationHistory s;
           chromaInitialized := chromaInitialized s;
           sessionContexts := sessionContexts s;
           tick := tick s; prompts := prompts s;
     invocations := invocations s; searches := searches s |})
  end.

(** [initialize]: the backend handle is created, the vector store is tried,
    the local documents are loaded and the service is marked ready. *)
Definition initialize : M unit :=
  update (fun s =>
    {| vectorStore := vectorStore s; llm := true; isReady := isReady s;
       localKnowledge := localKnowledge s;
       conversationHistory := conversationHistory s;
       chromaInitialized := chromaInitialized s;
       sessionContexts := sessionContexts s;
       tick := tick s; prompts := prompts s;
     invocations := invocations s; searches := searches s |});;
  initializeChromaDB;;
  initializeLocalStorage;;
  update (fun s =>
    {| vectorStore := vectorStore s; llm := llm s; isReady := true;
       localKnowledge := localKnowledge s;
       conversationHistory := conversationHistory s;
       chromaInitialized := chromaInitialized s;
       sessionContexts := sessionContexts s;
       tick := tick s; prompts := prompts s;
     invocations := invocations s; searches := searches s |}).

(** *** Conversation log *)

Definition getConversationHistory (sessionId : string) (limit : nat)
  : M string :=
  try_catch
    (st ← this;
     match conversationHistory st !! sessionId with
     | None => mret "No previous conversation in this session."
     | Some history =>
         let recentHistory := Js.sliceLast limit history in
         mret (Js.join Js.nl (map (renderTurn W) recentHistory))
     end)
    (fun _ => mret "No previous conversation.").

Definition storeConversation (sessionId : string) (message : Msg.t) : M unit :=
  try_catch
    (st ← this;
     let history :=
       default [] (conversationHistory st !! sessionId) ++ [message] in
     update (with_conversationHistory
               (<[sessionId := if 50 <? length history
                               then Js.sliceLast 50 history
                               else history]> (conversationHistory st))))
    (fun _ => mret tt).

(** *** Answering *)

Definition fallbackResponse (query language : string) : M Rag.t :=
  ts ← newDate;
  mret {| Rag.text := cannedResponse query language;
          Rag.sources := ["fallback"];
          Rag.confidence := 6 # 10;
          Rag.language := language;
          Rag.timestamp := ts |}.

Definition getBasicResponse (query language : string) : M Rag.t :=
  st ← this;
  answered ←
    (if llm st then
       try_catch
         (content ← llmInvoke (basicPrompt query language);
          ts ← newDate;
          mret (Some {| Rag.text := Str content;
                        Rag.sources := ["ollama_llm"];
                        Rag.confidence := 8 # 10;
                        Rag.language := language;
                        Rag.timestamp := ts |}))
         (fun _ => mret None)
     else mret None);
  match answered with
  | Some r => mret r
  | None => fallbackResponse query language
  end.

(** Steps 1 to 3 of [ragQuery] and the final push onto [sources]: the
    merged documents and the source tags. *)
Definition retrieve (query : string) (context : Context)
  : M (list Passage.t * list string) :=
  st ← this;
  let relevantDocs := searchLocalKnowledge W query (localKnowledge st) in
  let sources : list string := [] in
  '(relevantDocs, sources) ←
    (if vectorStore st && chromaInitialized st then
       try_catch
         (chromaDocs ← vectorSimilaritySearch query 2;
          mret (relevantDocs ++ chromaDocs, sources ++ ["chromadb"]))
         (fun _ => mret (relevantDocs, sources))
     else mret (relevantDocs, sources));
  let '(relevantDocs, sources) :=
    match ctx_sessionId context with
    | Some sessionId =>
        match sessionContexts st !! sessionId with
        | Some sessionContext =>
            if Js.nonEmpty sessionId then
              if 0 <? length (Session.files sessionContext) then
                let fileDocs :=
                  searchInSessionFiles W query (Session.files sessionContext) in
                (relevantDocs ++ fileDocs,
                 if 0 <? length fileDocs
                 then sources ++ ["session_files"] else sources)
              else (relevantDocs, sources)
            else (relevantDocs, sources)
        | None => (relevantDocs, sources)
        end
    | None => (relevantDocs, sources)
    end in
  mret (relevantDocs, sources ++ ["local_knowledge"]).

Definition ragQuery (query language : string) (context : Context) : M Rag.t :=
  st ← this;
  if negb (isReady st) || negb (llm st) then fallbackResponse query language
  else
    try_catch
      ('(relevantDocs, sources) ← retrieve query context;
       enhancedPrompt ←
         evaluate (enhancedPrompt W query language context relevantDocs);
       content ← llmInvoke enhancedPrompt;
       ts ← newDate;
       mret {| Rag.text := Str content;
               Rag.sources := sources;
               Rag.confidence := 9 # 10;
               Rag.language := language;
               Rag.timestamp := ts |})
      (fun _ => getBasicResponse query language).

Definition analyzeSentiment (text language : string) : string :=
  if negb (String.eqb language "en") then "neutral"
  else
    match getSentiment W text with
    | Returns score =>
        if negb (Qle_bool score (2 # 10)) then "positive"
        else if negb (Qle_bool (- 2 # 10) score) then "negative"
        else "neutral"
    | Throws _ => "neutral"
    end.

(** The file-context string that [processWithRAG] builds from the new
    files. *)
Definition describeNewFiles (newFiles : list File.t) : string :=
  fold_left
    (fun fileContext file =>
       if File.hasContent file then
         fileContext +:+
         Js.nl +:+ Js.nl +:+ "=== File: " +:+ File.filename file +:+ " ==="
           +:+ Js.nl +:+
         "Type: " +:+ shown W (File.type file) +:+ Js.nl +:+
         "Size: " +:+ formatFileSize W (File.size file) +:+ Js.nl +:+
         "Content: " +:+ File.text file +:+ Js.nl
       else fileContext)
    newFiles EmptyString.

(** The session-context part of [processWithRAG]: the entry is created when
    absent, its language is set, and the new files, if any, are appended.
    The entry as it stands afterwards is returned, as the code keeps a
    reference to it. *)
Definition updateSessionContext (sessionId language : string)
    (newFiles : list File.t) : M Session.t :=
  st ← this;
  sessionContext ←
    match sessionContexts st !! sessionId with
    | Some sessionContext => mret sessionContext
    | None =>
        ts ← newDate;
        mret {| Session.files := []; Session.fileContext := EmptyString;
                Session.lastUpdated := ts; Session.language := language |}
    end;
  let sessionContext :=
    {| Session.files := Session.files sessionContext;
       Session.fileContext := Session.fileContext sessionContext;
       Session.lastUpdated := Session.lastUpdated sessionContext;
       Session.language := language |} in
  sessionContext ←
    (if 0 <? length newFiles then
       let fileContext := describeNewFiles newFiles in
       ts ← newDate;
       mret {| Session.files := Session.files sessionContext ++ newFiles;
               Session.fileContext :=
                 if Js.nonEmpty fileContext
                 then Session.fileContext sessionContext +:+ fileContext
                 else Session.fileContext sessionContext;
               Session.lastUpdated := ts;
               Session.language := language |}
     else mret sessionContext);
  update (fun s =>
    with_sessionContexts (<[sessionId := sessionContext]> (sessionContexts s)) s);;
  mret sessionContext.

Definition processWithRAG (options : Options) : M Reply :=
  let message := message options in
  let language := opt_language options in
  let sessionId := opt_sessionId options in
  try_catch
    (history ← getConversationHistory sessionId 10;
     sessionContext ← updateSessionContext sessionId language (newFiles options);
     ragResult ←
       ragQuery message language
         {| history := Some history;
            ctx_fileContext := Some (Session.fileContext sessionContext);
            ctx_sessionId := Some sessionId;
            ctx_files := Some (Session.files sessionContext) |};
     let sentiment :=
       if analyzeSentimentFlag options && String.eqb language "en"
       then analyzeSentiment message language
       else "neutral" in
     let intent := detectIntent W message language in
     ts ← newDate;
     storeConversation sessionId
       {| Msg.role := Msg.user; Msg.content := Str message;
          Msg.language := language;
          Msg.files := Some (length (opt_files options));
          Msg.timestamp := ts |};;
     ts ← newDate;
     storeConversation sessionId
       {| Msg.role := Msg.assistant; Msg.content := Rag.text ragResult;
          Msg.language := language; Msg.files := None;
          Msg.timestamp := ts |};;
     ts ← newDate;
     mret (Answer
             {| Chat.text := Rag.text ragResult;
                Chat.sentiment := sentiment;
                Chat.intent := intent;
                Chat.sources := Rag.sources ragResult;
                Chat.confidence :=
                  if Qeq_bool (Rag.confidence ragResult) 0
                  then 8 # 10 else Rag.confidence ragResult;
                Chat.language := language;
                Chat.shouldSpeak := true;
                Chat.sessionId := sessionId;
                Chat.fileCount := length (Session.files sessionContext);
                Chat.timestamp := ts |}))
    (fun _ => r ← fallbackResponse message language; mret (Degraded r)).

(** *** Arguments that are not strings

    The transport layer hands the [message] and the [language] of a request
    body to [processWithRAG] as they are, so either may be a value that is
    not a string: a number, a boolean, [null], an array or an object, or
    [undefined] for a message that is absent.  None of them has a method
    [toUpperCase] or [toLowerCase], so calling either throws.  In a template
    literal such a value gives a text, which is all the code reads of it,
    unless it is an object whose own [toString] and [valueOf] are no
    functions: that one cannot be converted, and the template throws. *)

Inductive Arg : Type :=
| AString (s : string)
| NotAString (rendering : string)
| Unrenderable.

Definition throw {A} (error : string) : M A := fun s => (Throws error, s).

(** [ragQuery] for a query that is not a string and a language that is
    one: the first statement of the [try] block, which lower-cases the
    query, throws. *)
Definition ragQuery_notString (rendering language : string) : M Rag.t :=
  st ← this;
  if negb (isReady st) || negb (llm st) then fallbackResponse rendering language
  else
    try_catch
      (throw "TypeError: query.toLowerCase is not a function")
      (fun _ => getBasicResponse rendering language).

(** [processWithRAG] for a message and a language that may be anything and
    a [files] option that may be null ([None]); the other fields are those
    of [options].  The two statements that log [language.toUpperCase()]
    with the message, and [files.length], stand before the [try] block.
    Inside it, for a message that is not a string, [analyzeSentiment]
    catches what its tokenizer throws and [detectIntent] throws. *)
Definition processWithRAG_any (message language : Arg)
    (files : option (list File.t)) (options : Options) : M Reply :=
  match language with
  | AString language =>
      match message, files with
      | Unrenderable, _ =>
          throw "TypeError: Cannot convert object to primitive value"
      | _, None =>
          throw "TypeError: Cannot read properties of null (reading 'length')"
      | AString message, Some files =>
          processWithRAG
            {| message := message; opt_language := language;
               opt_sessionId := opt_sessionId options;
               useRAG := useRAG options;
               analyzeSentimentFlag := analyzeSentimentFlag options;
               opt_files := files;
               newFiles := newFiles options |}
      | NotAString rendering, Some files =>
          let sessionId := opt_sessionId options in
          try_catch
            (history ← getConversationHistory sessionId 10;
             sessionContext ←
               updateSessionContext sessionId language (newFiles options);
             ragResult ← ragQuery_notString rendering language;
             throw "TypeError: text.toLowerCase is not a function")
            (fun _ => r ← fallbackResponse rendering language; mret (Degraded r))
      end
  | _ => throw "TypeError: language.toUpperCase is not a function"
  end.

(** *** Knowledge base and session maintenance *)

(** [addToKnowledgeBase] for a text that is a string and a metadata
    object; nothing in its [try] block throws then, the inner block around
    the vector store apart. *)
Definition addToKnowledgeBase (text source : string)
    (metadata : gmap string JsVal) : M KnowledgeResult :=
  try_catch
    (ts ← newDate;
     update (fun s =>
       with_localKnowledge
         (localKnowledge s ++ [ Doc.mk text (storedMetadata source ts metadata) ])
         s);;
     st ← this;
     (if vectorStore st && chromaInitialized st then
        try_catch (vectorAddDocuments text metadata) (fun _ => mret tt)
      else mret tt);;
     st ← this;
     mret (Added (length (localKnowledge st))
                 [length (localKnowledge st) - 1]))
    (fun error => mret (AddFailed error)).

(** [addToKnowledgeBase] for a metadata argument that may be null
    ([None]): reading [metadata.type] throws inside the [try] block, before
    anything is pushed. *)
Definition addToKnowledgeBase_any (text source : string)
    (metadata : option (gmap string JsVal)) : M KnowledgeResult :=
  match metadata with
  | Some metadata => addToKnowledgeBase text source metadata
  | None =>
      try_catch
        (throw "Cannot read properties of null (reading 'type')")
        (fun error => mret (AddFailed error))
  end.

Definition clearSession (sessionId : string) : M ClearResult :=
  try_catch
    (update (fun s =>
       with_sessionContexts (delete sessionId (sessionContexts s)) s);;
     update (fun s =>
       with_conversationHistory (delete sessionId (conversationHistory s)) s);;
     ts ← newDate;
     mret (Cleared ("Session " +:+ sessionId +:+ " cleared successfully") ts))
    (fun error => mret (ClearFailed error)).

Definition getSessionInfo (sessionId : string) : M SessionInfo :=
  st ← this;
  match sessionContexts st !! sessionId with
  | None => mret (NotFound "Session not found")
  | Some session =>
      let history := default [] (conversationHistory st !! sessionId) in
      ts ← newDate;
      mret (Found sessionId
              (if Js.nonEmpty (Session.language session)
               then Session.language session else "en")
              (length (Session.files session))
              (length history)
              (Session.lastUpdated session)
              ts)
  end.

End Methods.

(** ** Running methods *)

Definition outcome {A} (m : M A) (s : Service) : Outcome A := fst (m s).
Definition after {A} (m : M A) (s : Service) : Service := snd (m s).

(** The calls the transport layer makes on the service. *)
Inductive Call : Type :=
| CallInitialize
| CallProcess (options : Options)
| CallRagQuery (query language : string) (context : Context)
| CallStore (sessionId : string) (message : Msg.t)
| CallHistory (sessionId : string) (limit : nat)
| CallAdd (text source : string) (metadata : gmap string JsVal)
| CallClear (sessionId : string)
| CallInfo (sessionId : string).

Definition run (W : World) (c : Call) (s : Service) : Service :=
  match c with
  | CallInitialize => after (initialize W) s
  | CallProcess options => after (processWithRAG W options) s
  | CallRagQuery query language context =>
      after (ragQuery W query language context) s
  | CallStore sessionId message => after (storeConversation sessionId message) s
  | CallHistory sessionId limit =>
      after (getConversationHistory W sessionId limit) s
  | CallAdd text source metadata =>
      after (addToKnowledgeBase W text source metadata) s
  | CallClear sessionId => after (clearSession W sessionId) s
  | CallInfo sessionId => after (getSessionInfo W sessionId) s
  end.

Definition runAll (W : World) (calls : list Call) (s : Service) : Service :=
  fold_left (fun s c => run W c s) calls s.

(** A method keeps a property of the state; a method never throws. *)
Definition preserves {A} (P : Service -> Prop) (m : M A) : Prop :=
  forall s, P s -> P (after m s).

Definition total {A} (m : M A) : Prop :=
  forall s, exists a, outcome m s = Returns a.

(** A method leaves a component of the state as it found it. *)
Definition keeps {A X} (proj : Service -> X) (m : M A) : Prop :=
  forall s, proj (after m s) = proj s.

(** A property that does not look at the interaction bookkeeping. *)
Definition blind (P : Service -> Prop) : Prop :=
  forall ps qs s, P s -> P (interacted ps qs s).

(** Every conversation log holds at most [n] turns. *)
Definition logsBounded (n : nat) (s : Service) : Prop :=
  forall sessionId log,
    conversationHistory s !! sessionId = Some log -> length log <= n.

(** ** Sample worlds and states *)

(** A world whose collaborators always answer. *)
Definition calmWorld : World :=
  {| engine := Js.exampleEngine;
     chromaProbe := NoHeartbeat;
     now := fun n => "T" +:+ pretty n;
     llm_invoke := fun _ _ => Returns "Sure.";
     similaritySearch := fun _ _ _ => Returns [];
     addDocuments := fun _ _ _ => Returns tt;
     getSentiment := fun _ => Returns 0%Q;
     formatFileSize := fun n => pretty n +:+ " Bytes" |}.

(** A world whose inference backend times out on every call. *)
Definition downWorld : World :=
  {| engine := engine calmWorld;
     chromaProbe := NoHeartbeat;
     now := now calmWorld;
     llm_invoke := fun _ _ => Throws "timeout";
     similaritySearch := similaritySearch calmWorld;
     addDocuments := addDocuments calmWorld;
     getSentiment := getSentiment calmWorld;
     formatFileSize := formatFileSize calmWorld |}.

(** A world whose inference backend times out on long prompts only. *)
Definition slowWorld : World :=
  {| engine := engine calmWorld;
     chromaProbe := NoHeartbeat;
     now := now calmWorld;
     llm_invoke := fun _ prompt =>
       if 400 <? Js.length prompt then Throws "timeout"
       else Returns "Hello!";
     similaritySearch := similaritySearch calmWorld;
     addDocuments := addDocuments calmWorld;
     getSentiment := getSentiment calmWorld;
     formatFileSize := formatFileSize calmWorld |}.


(** The service once [initialize] has run, without and with a vector
    store. *)
Definition ready : Service := after (initialize calmWorld) constructed.

Definition ask (sessionId query : string) : Options :=
  {| message := query; opt_language := "en"; opt_sessionId := sessionId;
     useRAG := true; analyzeSentimentFlag := true;
     opt_files := []; newFiles := [] |}.

Definition turn (n : nat) : Msg.t :=
  {| Msg.role := Msg.user; Msg.content := Str ("turn " +:+ pretty n);
     Msg.language := "en"; Msg.files := Some 0; Msg.timestamp := "T" |}.

(** The ready service after one greeting in session s1. *)
Definition greeted : Service :=
  after (processWithRAG calmWorld (ask "s1" "hello")) ready.

Definition report : File.t :=
  {| File.filename := "invoice.txt"; File.type := Str "document";
     File.size := 18; File.content := Some "invoice total $500" |}.

Definition upload (sessionId query : string) (files : list File.t) : Options :=
  {| message := query; opt_language := "en"; opt_sessionId := sessionId;
     useRAG := true; analyzeSentimentFlag := true;
     opt_files := files; newFiles := files |}.

(** ** Session-file search as the specification words it *)

(** The [matchScore] recorded in a passage's metadata. *)
Definition scoreOf (p : Passage.t) : Q :=
  match Passage.metadata p !! "matchScore" with
  | Some (JNum q) => q
  | _ => 0%Q
  end.

(** The number of query words found in a file, and whether the file is
    kept. *)
Definition matchedWordCount (E : Js.Engine) (words : list string) (f : File.t)
  : nat :=
  length (List.filter
            (fun word => Js.includes (Js.toLowerCase E (File.text f)) word) words).

Definition fileMatches (E : Js.Engine) (words : list string) (f : File.t) : bool :=
  File.hasContent f && (0 <? matchedWordCount E words f).

(** The passage for a kept file: a line naming the file, the first 1000
    code units of its content and the ellipsis; the score is matched words
    over query words. *)
Definition passageOfFile (E : Js.Engine) (words : list string) (f : File.t)
  : Passage.t :=
  Passage.mk
    ("From uploaded file " +:+ Js.dquote +:+ File.filename f +:+ Js.dquote
       +:+ ":" +:+ Js.nl +:+ Js.substring0 1000 (File.text f) +:+ "...")
    {[ "source" := JStr "session_file";
       "filename" := JStr (File.filename f);
       "type" := textVal (File.type f);
       "matchScore" :=
         JNum (Z.of_nat (matchedWordCount E words f) # Pos.of_nat (length words)) ]}.

(** Stable insertion sort by descending score. *)
Fixpoint insertByScore (p : Passage.t) (l : list Passage.t) : list Passage.t :=
  match l with
  | [] => [p]
  | q :: l' =>
      if Qle_bool (scoreOf q) (scoreOf p)
      then p :: l
      else q :: insertByScore p l'
  end.

Definition sortByScore (l : list Passage.t) : list Passage.t :=
  fold_right insertByScore [] l.

(** Session-file retrieval as specified: keep the matching files, sort by
    descending score, cap at two. *)
Definition spec_searchInSessionFiles (E : Js.Engine) (query : string)
    (sessionFiles : list File.t) : list Passage.t :=
  let words := queryWords E query in
  take 2 (sortByScore
            (map (passageOfFile E words)
               (List.filter (fileMatches E words) sessionFiles))).

Definition noteFile (filename content : string) : File.t :=
  {| File.filename := filename; File.type := Str "document";
     File.size := 10; File.content := Some content |}.

(** ** The steps of retrieval, one by one *)


(** Step 2: what the vector store contributes when [retrieve] runs in state
    [s]. *)
Definition vectorStep (W : World) (s : Service) (query : string)
  : list Passage.t * list string :=
  if vectorStore s && chromaInitialized s then
    match similaritySearch W (tick s) query 2 with
    | Returns chromaDocs => (chromaDocs, ["chromadb"])
    | Throws _ => ([], [])
    end
  else ([], []).

(** Step 3: what the session's files contribute. *)
Definition sessionStep (E : Js.Engine) (s : Service) (query : string)
    (context : Context) : list Passage.t * list string :=
  match ctx_sessionId context with
  | Some sessionId =>
      match sessionContexts s !! sessionId with
      | Some sessionContext =>
          if Js.nonEmpty sessionId
             && (0 <? length (Session.files sessionContext))
          then
            let fileDocs :=
              searchInSessionFiles E query (Session.files sessionContext) in
            (fileDocs, if 0 <? length fileDocs then ["session_files"] else [])
          else ([], [])
      | None => ([], [])
      end
  | None => ([], [])
  end.

(** The entry that [processWithRAG] leaves for a session that was already
    registered. *)
Definition appended (W : World) (s : Service) (language : string)
    (newFiles : list File.t) (session : Session.t) : Session.t :=
  if 0 <? length newFiles then
    {| Session.files := Session.files session ++ newFiles;
       Session.fileContext :=
         if Js.nonEmpty (describeNewFiles W newFiles)
         then Session.fileContext session +:+ describeNewFiles W newFiles
         else Session.fileContext session;
       Session.lastUpdated := now W (tick s);
       Session.language := language |}
  else
    {| Session.files := Session.files session;
       Session.fileContext := Session.fileContext session;
       Session.lastUpdated := Session.lastUpdated session;
       Session.language := language |}.

(** The entry that [updateSessionContext] installs and returns: as above
    for a registered session, and from a freshly created entry otherwise
    (creating it reads the clock once). *)
Definition updatedSession (W : World) (s : Service) (sessionId language : string)
    (newFiles : list File.t) : Session.t :=
  match sessionContexts s !! sessionId with
  | Some session => appended W s language newFiles session
  | None =>
      appended W (interacted [] [] s) language newFiles
        {| Session.files := []; Session.fileContext := EmptyString;
           Session.lastUpdated := now W (tick s); Session.language := language |}
  end.

(** The text that [getConversationHistory] returns with the default limit. *)
Definition historyText (E : Js.Engine) (s : Service) (sessionId : string)
  : string :=
  match conversationHistory s !! sessionId with
  | None => "No previous conversation in this session."
  | Some history => Js.join Js.nl (map (renderTurn E) (Js.sliceLast 10 history))
  end.

(** The [context] that [processWithRAG] hands to [ragQuery]. *)
Definition requestContext (W : World) (s : Service) (options : Options) : Context :=
  let sessionContext :=
    updatedSession W s (opt_sessionId options) (opt_language options)
      (newFiles options) in
  {| history := Some (historyText W s (opt_sessionId options));
     ctx_fileContext := Some (Session.fileContext sessionContext);
     ctx_sessionId := Some (opt_sessionId options);
     ctx_files := Some (Session.files sessionContext) |}.

(** A method that neither reads nor writes the conversation logs. *)
Definition oblivious {A} (m : M A) : Prop :=
  forall h s,
    m (with_conversationHistory h s) =
    (outcome m s, with_conversationHistory h (after m s)).

(** The three kinds of object that [ragQuery] returns: the answer to the
    assembled prompt, the answer to the basic prompt, the canned
    response. *)
Definition grounded (content : string) (r : Rag.t) : Prop :=
  Rag.text r = Str content /\
  In "local_knowledge" (Rag.sources r) /\
  Rag.confidence r = (9 # 10)%Q.

Definition retried (content : string) (r : Rag.t) : Prop :=
  Rag.text r = Str content /\
  Rag.sources r = ["ollama_llm"] /\
  Rag.confidence r = (8 # 10)%Q.

Definition canned (query language : string) (r : Rag.t) : Prop :=
  Rag.text r = cannedResponse query language /\
  Rag.sources r = ["fallback"] /\
  Rag.confidence r = (6 # 10)%Q.

(** A reply is well-formed when it carries the requested language and one
    of the three pairings of sources and confidence that the service
    produces. *)
Definition wellFormed (query language : string) (r : Reply) : Prop :=
  reply_language r = language /\
  ((In "local_knowledge" (reply_sources r) /\ reply_confidence r = (9 # 10)%Q)
   \/ (reply_sources r = ["ollama_llm"] /\ reply_confidence r = (8 # 10)%Q)
   \/ (reply_sources r = ["fallback"] /\ reply_confidence r = (6 # 10)%Q /\
       reply_text r = cannedResponse query language)).

(** The documents that [ragQuery] merges when it runs in state [s]. *)
Definition retrieved (W : World) (s : Service) (query : string)
    (context : Context) : list Passage.t :=
  searchLocalKnowledge W query (localKnowledge s)
    ++ fst (vectorStep W s query) ++ fst (sessionStep W s query context).

(** How [ragQuery], run in state [s], comes to its result [r], and the
    calls [new] that it makes to the backend on the way, each with its
    instant, most recent first: none when the service is not ready; the
    assembled prompt, and after a failure the basic prompt, when the
    assembled prompt can be built; the basic prompt alone when it cannot. *)
Definition answered (W : World) (query language : string) (context : Context)
    (s : Service) (new : list (nat * string)) (r : Rag.t) : Prop :=
  if negb (isReady s) || negb (llm s) then
    new = [] /\ canned query language r
  else
    let t := tick s + (if vectorStore s && chromaInitialized s then 1 else 0) in
    let basic := basicPrompt query language in
    match enhancedPrompt W query language context (retrieved W s query context) with
    | Returns prompt =>
        match llm_invoke W t prompt with
        | Returns content => new = [(t, prompt)] /\ grounded content r
        | Throws _ =>
            new = [(S t, basic); (t, prompt)] /\
            match llm_invoke W (S t) basic with
            | Returns content => retried content r
            | Throws _ => canned query language r
            end
        end
    | Throws _ =>
        new = [(t, basic)] /\
        match llm_invoke W t basic with
        | Returns content => retried content r
        | Throws _ => canned query language r
        end
    end.

(** A service whose session s1 holds twelve stored turns. *)
Definition chatty : Service :=
  with_conversationHistory {[ "s1" := map turn (seq 0 12) ]} ready.

(** ** Auxiliary notions for the further properties *)

(** The cap that [storeConversation] applies to a log. *)
Definition capped (log : list Msg.t) : list Msg.t :=
  if 50 <? length log then Js.sliceLast 50 log else log.

(** The fields of the object returned by [getSessionInfo]. *)
Definition info_language (i : SessionInfo) : string :=
  match i with NotFound _ => EmptyString | Found _ l _ _ _ _ => l end.
Definition info_fileCount (i : SessionInfo) : nat :=
  match i with NotFound _ => 0 | Found _ _ n _ _ _ => n end.
Definition info_messageCount (i : SessionInfo) : nat :=
  match i with NotFound _ => 0 | Found _ _ _ n _ _ => n end.
Definition info_lastUpdated (i : SessionInfo) : string :=
  match i with NotFound _ => EmptyString | Found _ _ _ _ t _ => t end.

(** The keyword groups of [detectIntent], in the order of its tests. *)
Definition intentTable : list (string * list string) :=
  [ ("file_upload", ["upload"; "file"; "attach"]);
    ("image_analysis", ["image"; "picture"; "photo"]);
    ("document_analysis", ["document"; "pdf"; "word"]);
    ("search", ["search"; "find"]);
    ("analysis", ["analyze"; "explain"; "describe"]);
    ("calculate", ["calculate"; "math"]);
    ("translate", ["translate"; "language"]);
    ("greeting", ["hello"; "hi"; "नमस्ते"; "مرحبا"; "హలో"]);
    ("help", ["help"]) ].

(** The first group, in that order, one of whose keywords occurs in the
    lowercased text. *)
Definition firstIntent (E : Js.Engine) (text : string) : string :=
  match List.find
          (fun group => existsb (Js.includes (Js.toLowerCase E text)) (snd group))
          intentTable with
  | Some group => fst group
  | None => "general"
  end.

(** The two turns that [processWithRAG] stores for a request. *)
Definition userTurn (options : Options) (timestamp : string) : Msg.t :=
  {| Msg.role := Msg.user; Msg.content := Str (message options);
     Msg.language := opt_language options;
     Msg.files := Some (length (opt_files options));
     Msg.timestamp := timestamp |}.

Definition assistantTurn (options : Options) (text : Text) (timestamp : string)
  : Msg.t :=
  {| Msg.role := Msg.assistant; Msg.content := text;
     Msg.language := opt_language options; Msg.files := None;
     Msg.timestamp := timestamp |}.

(** A world whose sentiment analyser finds the text cheerful, and a world
    whose vector store is attached but fails on every search. *)
Definition cheerfulWorld : World :=
  {| engine := engine calmWorld;
     chromaProbe := NoHeartbeat;
     now := now calmWorld;
     llm_invoke := llm_invoke calmWorld;
     similaritySearch := similaritySearch calmWorld;
     addDocuments := addDocuments calmWorld;
     getSentiment := fun _ => Returns (1 # 2)%Q;
     formatFileSize := formatFileSize calmWorld |}.

Definition brokenIndexWorld : World :=
  {| engine := engine calmWorld;
     chromaProbe := CollectionFound;
     now := now calmWorld;
     llm_invoke := llm_invoke calmWorld;
     similaritySearch := fun _ _ _ => Throws "connection refused";
     addDocuments := fun _ _ _ => Throws "connection refused";
     getSentiment := getSentiment calmWorld;
     formatFileSize := formatFileSize calmWorld |}.

Definition readyBrokenIndex : Service :=
  after (initialize brokenIndexWorld) constructed.

Definition bareContext : Context :=
  {| history := None; ctx_fileContext := None;
     ctx_sessionId := None; ctx_files := None |}.

(** ** Introspection *)

(** [Object.keys(this.languageConfig)] *)
Definition supportedLanguages : list string := ["en"; "hi"; "ar"; "te"].

(** [getLanguageName] *)
Definition getLanguageName (languageCode : string) : string :=
  match languageConfig languageCode with
  | Js.Own config =>
      if Js.nonEmpty (name config) then name config else "English"
  | Js.Inherited key =>
      match Js.inheritedName key with
      | Some name => if Js.nonEmpty name then name else "English"
      | None => "English"
      end
  | Js.Missing => "English"
  end.

(** The object returned by [getStatus], without the model name, which is
    read from the process environment. *)
Record Status : Type := {
  st_isReady : bool;
  hasLLM : bool;
  hasVectorStore : bool;
  st_supportedLanguages : list string;
  localKnowledgeCount : nat;
  st_activeSessions : nat;
  st_conversationSessions : nat
}.

Definition getStatus (s : Service) : Status :=
  {| st_isReady := isReady s;
     hasLLM := llm s;
     hasVectorStore := vectorStore s && chromaInitialized s;
     st_supportedLanguages := supportedLanguages;
     localKnowledgeCount := length (localKnowledge s);
     st_activeSessions := size (sessionContexts s);
     st_conversationSessions := size (conversationHistory s) |}.

(** ** The file processor *)

(** A file as the upload middleware hands it over; [buffer] is the text
    that [buffer.toString] with the utf-8 encoding yields. *)
Module Upload.
Record t : Type := mk {
  originalname : string;
  mimetype : string;
  size : N;
  buffer : string
}.
End Upload.

(** A result of [processFiles]: the object returned by [processFile], or
    the one pushed when processing threw (no id, path or timestamp, the
    error message instead). *)
Module Processed.
Record t : Type := mk {
  id : option string;
  filename : string;
  type : Text;
  subtype : option string;
  size : N;
  content : option string;
  preview : option string;
  path : option string;
  error : option string;
  success : bool;
  timestamp : option string
}.
(** What the service reads of it. *)
Definition toFile (r : t) : File.t :=
  {| File.filename := filename r; File.type := type r;
     File.size := size r; File.content := content r |}.
Definition hasContent (r : t) : bool := File.hasContent (toFile r).
End Processed.

(** The collaborators of the processor and of the transport layer, read at
    the index of the interaction as those of the service are. *)
Record Host : Type := {
  (** the engine that runs the server *)
  host_engine :> Js.Engine;
  uuidv4 : nat -> string;
  (** [path.extname] and [path.join] *)
  extname : string -> string;
  pathJoin : string -> string -> string;
  uploadsDir : string;
  (** [fs.writeFile(path, buffer)] *)
  writeFile : nat -> string -> string -> Outcome unit;
  (** [pdf(buffer)], giving [data.text] *)
  pdfParse : string -> Outcome string;
  (** [mammoth.extractRawText], giving [result.value] *)
  mammothText : string -> Outcome string;
  (** [JSON.stringify(JSON.parse(text), null, 2)] *)
  jsonPretty : string -> Outcome string;
  (** [buffer.toString] with the base64 encoding *)
  base64 : string -> string;
  (** [new Date().toISOString()] and [Date.now()] *)
  host_now : nat -> string;
  dateNow : nat -> string;
  (** [formatFileSize(bytes)] *)
  host_formatFileSize : N -> string
}.

(** The table [supportedTypes], indexed by [mimeType]. *)
Definition supportedTypes (mimeType : string) : Js.Property string :=
  Js.property
  match mimeType with
  | "image/jpeg" => Some "image"
  | "image/png" => Some "image"
  | "image/gif" => Some "image"
  | "image/webp" => Some "image"
  | "application/pdf" => Some "document"
  | "text/plain" => Some "document"
  | "text/markdown" => Some "document"
  | "application/json" => Some "document"
  | "text/csv" => Some "document"
  | "application/vnd.openxmlformats-officedocument.wordprocessingml.document" =>
      Some "document"
  | "application/msword" => Some "document"
  | _ => None
  end
  mimeType.

(** [getFileType]: [this.supportedTypes[mimeType] || 'unknown'] *)
Definition getFileType (mimeType : string) : Text :=
  match supportedTypes mimeType with
  | Js.Own type => Str type
  | Js.Inherited key => Proto key
  | Js.Missing => Str "unknown"
  end.

(** [extractCSV] *)
Definition extractCSV (buffer : string) : string :=
  let text := buffer in
  let lines :=
    List.filter (fun line => Js.nonEmpty (Js.trim line))
      (Js.split (ascii_of_nat 10) text) in
  if length lines =? 0 then "[CSV] Empty file"
  else
    let formatted :=
      Js.join Js.nl
        (map (fun line =>
                let columns := Js.split ","%char line in
                Js.join " | " columns) lines) in
    "CSV Data (" +:+ pretty (length lines) +:+ " rows):" +:+ Js.nl +:+ formatted.

(** [processImage]: the description that stands for the content of an image. *)
Definition processImage (H : Host) (file : Upload.t) : string :=
  Js.nl +:+
  "[IMAGE FILE ANALYSIS]" +:+
  Js.nl +:+
  "Filename: " +:+ Upload.originalname file +:+
  Js.nl +:+
  "File Type: " +:+ Upload.mimetype file +:+
  Js.nl +:+
  "File Size: " +:+ host_formatFileSize H (Upload.size file) +:+
  Js.nl +:+
  Js.nl +:+
  "This is an image file that has been uploaded. To analyze this image properly:" +:+
  Js.nl +:+
  Js.nl +:+
  "1. VISUAL DESCRIPTION NEEDED: The image appears to contain visual content that requires analysis." +:+
  Js.nl +:+
  "2. POTENTIAL CONTENT: It could contain text, objects, people, diagrams, or other visual elements." +:+
  Js.nl +:+
  "3. ANALYSIS REQUESTED: When the user asks about this image, provide a detailed visual description including:" +:+
  Js.nl +:+
  "   - Objects and elements visible" +:+
  Js.nl +:+
  "   - Colors and composition" +:+
  Js.nl +:+
  "   - Any readable text" +:+
  Js.nl +:+
  "   - Context and possible meaning" +:+
  Js.nl +:+
  "   - Overall impression and observations" +:+
  Js.nl +:+
  Js.nl +:+
  "For specific analysis, please ask the user to describe what they see or ask specific questions about the image." +:+
  Js.nl.

(** [extractPDF] and [extractDOCX] *)
Definition extractPDF (H : Host) (buffer : string) : string :=
  match pdfParse H buffer with
  | Returns text => text
  | Throws _ =>
      "[PDF] Unable to extract text content. The PDF may be scanned or encrypted."
  end.

Definition extractDOCX (H : Host) (buffer : string) : string :=
  match mammothText H buffer with
  | Returns value => value
  | Throws _ => "[DOCX] Unable to extract text content."
  end.

(** [extractDocumentContent] *)
Definition extractDocumentContent (H : Host) (file : Upload.t)
    (extension : string) : string :=
  let buffer := Upload.buffer file in
  match extension with
  | ".pdf" => extractPDF H buffer
  | ".docx" => extractDOCX H buffer
  | ".doc" => extractDOCX H buffer
  | ".txt" => buffer
  | ".md" => buffer
  | ".json" =>
      match jsonPretty H buffer with
      | Returns json => "JSON Data: " +:+ json
      | Throws _ => buffer
      end
  | ".csv" => extractCSV buffer
  | _ => buffer
  end.

(** [processFile], for the file handled at interaction [n]: it throws when
    the file cannot be written. *)
Definition processFile (H : Host) (n : nat) (file : Upload.t)
  : Outcome Processed.t :=
  let fileId := uuidv4 H n in
  let fileType := getFileType (Upload.mimetype file) in
  let fileExtension := Js.toLowerCase H (extname H (Upload.originalname file)) in
  let savedFilePath := pathJoin H (uploadsDir H) (fileId +:+ fileExtension) in
  match writeFile H n savedFilePath (Upload.buffer file) with
  | Throws e => Throws e
  | Returns _ =>
      let '(content, preview) :=
        if isStr fileType "image" then
          (Some (processImage H file),
           Some ("data:" +:+ Upload.mimetype file +:+ ";base64," +:+
                 base64 H (Upload.buffer file)))
        else if isStr fileType "document" then
          (Some (extractDocumentContent H file fileExtension), None)
        else (None, None) in
      Returns
        {| Processed.id := Some fileId;
           Processed.filename := Upload.originalname file;
           Processed.type := fileType;
           Processed.subtype := Some (Upload.mimetype file);
           Processed.size := Upload.size file;
           Processed.content := content;
           Processed.preview := preview;
           Processed.path := Some savedFilePath;
           Processed.error := None;
           Processed.success := true;
           Processed.timestamp := Some (host_now H n) |}
  end.

(** [processFiles], the first file being handled at interaction [n]. *)
Fixpoint processFiles (H : Host) (n : nat) (files : list Upload.t)
  : list Processed.t :=
  match files with
  | [] => []
  | file :: rest =>
      match processFile H n file with
      | Returns result => result
      | Throws message =>
          {| Processed.id := None;
             Processed.filename := Upload.originalname file;
             Processed.type := getFileType (Upload.mimetype file);
             Processed.subtype := None;
             Processed.size := Upload.size file;
             Processed.content := None;
             Processed.preview := None;
             Processed.path := None;
             Processed.error := Some message;
             Processed.success := false;
             Processed.timestamp := None |}
      end :: processFiles H (S n) rest
  end.

(** The types that the upload filter of the transport layer lets through. *)
Definition allowedTypes : list string :=
  [ "image/jpeg"; "image/png"; "image/gif"; "image/webp";
    "application/pdf"; "text/plain"; "text/markdown"; "application/json";
    "text/csv";
    "application/vnd.openxmlformats-officedocument.wordprocessingml.document";
    "application/msword" ].

(** ** The transport layer *)

(** A message of the transport layer's own log; the user's content is
    absent when the request carried files only. *)
Module ServerMessage.
Record t : Type := mk {
  role : Msg.role_t;
  content : option Text;
  files : option (list string);
  timestamp : string
}.
End ServerMessage.

(** An entry of [activeSessions]. *)
Module ServerSession.
Record t : Type := mk {
  files : list Processed.t;
  messages : list ServerMessage.t;
  createdAt : string
}.
End ServerSession.

(** The state of the server: the service [ahadAI], the map
    [activeSessions], and the number of interactions with the host so
    far. *)
Record Server : Type := {
  ai : Service;
  activeSessions : gmap string ServerSession.t;
  events : nat
}.

Definition with_ai (a : Service) (srv : Server) : Server :=
  {| ai := a; activeSessions := activeSessions srv; events := events srv |}.

Definition with_activeSessions (m : gmap string ServerSession.t) (srv : Server)
  : Server :=
  {| ai := ai srv; activeSessions := m; events := events srv |}.

Definition with_events (n : nat) (srv : Server) : Server :=
  {| ai := ai srv; activeSessions := activeSessions srv; events := n |}.

(** Handlers run in a monad of their own over the server state. *)
Definition SM (A : Type) : Type := Server -> Outcome A * Server.

#[global] Instance SM_ret : MRet SM := fun A a srv => (Returns a, srv).

#[global] Instance SM_bind : MBind SM := fun A B f m srv =>
  match m srv with
  | (Returns a, srv') => f a srv'
  | (Throws e, srv') => (Throws e, srv')
  end.

Definition sm_try_catch {A} (body : SM A) (handler : string -> SM A) : SM A :=
  fun srv =>
    match body srv with
    | (Returns a, srv') => (Returns a, srv')
    | (Throws e, srv') => handler e srv'
    end.

Definition server : SM Server := fun srv => (Returns srv, srv).
Definition sm_update (f : Server -> Server) : SM unit :=
  fun srv => (Returns tt, f srv).

(** A call of a method of the service. *)
Definition liftAI {A} (m : M A) : SM A := fun srv =>
  let '(o, a) := m (ai srv) in (o, with_ai a srv).

(** A sequential [for] loop over awaited calls. *)
Fixpoint forEachM {A} (f : A -> SM unit) (l : list A) : SM unit :=
  match l with
  | [] => mret tt
  | x :: rest => f x;; forEachM f rest
  end.

(** The summary of a file in the responses. *)
Module FileSummary.
Record t : Type := mk {
  id : option string;
  filename : string;
  type : Text;
  size : N;
  extracted : bool;
  preview : option string;
  success : option bool;
  timestamp : option string
}.
End FileSummary.

(** The body of a POST to /api/chat as the handler receives it from a
    client that sends what the front end sends: the message, the language
    and the session id are strings where they are present, and the files
    are those that the upload middleware has let through.  A request that
    the middleware refuses does not reach the handler, and a language that
    is no string makes [processWithRAG] throw (see [processWithRAG_any]);
    both are answered with status 500 and are not requests of this type. *)
Record ChatRequest : Type := {
  req_message : option string;
  req_language : option string;
  req_sessionId : option string;
  req_useRAG : option bool;
  req_analyzeSentiment : option bool;
  req_files : list Upload.t
}.

(** The answers to /api/chat: status 400, 200 and 500. *)
Inductive ChatResponse : Type :=
| ChatRejected (error : string)
| ChatAnswered (reply : Reply) (sessionId : string)
               (files : list FileSummary.t) (sessionFileCount : nat)
               (timestamp : string)
| ChatFailed (error : string) (timestamp : string).

(** The answers to /api/upload. *)
Inductive UploadResponse : Type :=
| UploadRejected (error : string)
| UploadAccepted (message sessionId : string) (files : list FileSummary.t)
                 (timestamp : string)
| UploadFailed (error : string) (timestamp : string).

(** The answers to DELETE /api/session/:sessionId. *)
Inductive DeleteResponse : Type :=
| SessionCleared (message sessionId timestamp : string)
| DeleteFailed (error : string).

Section Handlers.

Variable W : World.
Variable H : Host.

Definition serverDate : SM string := fun srv =>
  (Returns (host_now H (events srv)), with_events (S (events srv)) srv).

Definition serverDateNow : SM string := fun srv =>
  (Returns (dateNow H (events srv)), with_events (S (events srv)) srv).

(** [fileProcessor.processFiles(files)] *)
Definition runProcessFiles (files : list Upload.t) : SM (list Processed.t) :=
  fun srv =>
    (Returns (processFiles H (events srv) files),
     with_events (events srv + length files) srv).

(** The default of [sessionId] in the two upload handlers. *)
Definition sessionIdOr (given : option string) : SM string :=
  match given with
  | Some sessionId => mret sessionId
  | None => ms ← serverDateNow; mret ("default_" +:+ ms)
  end.

(** The entry of [activeSessions] is created when absent, with the given
    files. *)
Definition ensureSession (sessionId : string) (files : list Processed.t)
  : SM unit :=
  srv ← server;
  match activeSessions srv !! sessionId with
  | Some _ => mret tt
  | None =>
      createdAt ← serverDate;
      sm_update (fun srv =>
        with_activeSessions
          (<[sessionId := ServerSession.mk files [] createdAt]> (activeSessions srv))
          srv)
  end.

Definition alterSession (sessionId : string)
    (f : ServerSession.t -> ServerSession.t) : SM unit :=
  sm_update (fun srv =>
    with_activeSessions (alter f sessionId (activeSessions srv)) srv).

(** The metadata that the upload handlers attach to an ingested file. *)
Definition uploadMetadata (file : Processed.t) (sessionId : string)
  : gmap string JsVal :=
  {[ "filename" := JStr (Processed.filename file);
     "type" := textVal (Processed.type file);
     "size" := JNum (Z.of_N (Processed.size file) # 1);
     "sessionId" := JStr sessionId ]}.

(** The loop that stores the processed content in the knowledge base. *)
Definition ingestFiles (sessionId : string) (results : list Processed.t)
  : SM unit :=
  forEachM
    (fun file =>
       if Processed.hasContent file then
         liftAI (addToKnowledgeBase W (File.text (Processed.toFile file))
                   "file_upload" (uploadMetadata file sessionId));;
         mret tt
       else mret tt)
    results.

(** The files of an upload are processed, attached to the server's session
    and ingested. *)
Definition receiveFiles (sessionId : string) (files : list Upload.t)
  : SM (list Processed.t) :=
  results ← runProcessFiles files;
  ensureSession sessionId [];;
  alterSession sessionId (fun session =>
    ServerSession.mk (ServerSession.files session ++ results)
      (ServerSession.messages session) (ServerSession.createdAt session));;
  ingestFiles sessionId results;;
  mret results.

Definition fileSummaryLine (f : Processed.t) : string :=
  "📄 " +:+ Processed.filename f +:+ " (" +:+ shown H (Processed.type f) +:+ "): " +:+
  (if Processed.hasContent f then "Content extracted"
   else "Unable to extract content").

Definition truthyText (message : option string) : bool :=
  match message with Some m => Js.nonEmpty m | None => false end.

(** POST /api/chat *)
Definition chat (req : ChatRequest) : SM ChatResponse :=
  sm_try_catch
    (let message := req_message req in
     let language := default "en" (req_language req) in
     sessionId ← sessionIdOr (req_sessionId req);
     let useRAG := default true (req_useRAG req) in
     let analyzeSentiment := default true (req_analyzeSentiment req) in
     let files := req_files req in
     if negb (truthyText message) && (length files =? 0) then
       mret (ChatRejected "Either message or files are required")
     else
       fileResults ←
         (if 0 <? length files then receiveFiles sessionId files else mret []);
       srv ← server;
       let sessionFiles :=
         match activeSessions srv !! sessionId with
         | Some session => ServerSession.files session
         | None => []
         end in
       aiResponse ←
         (if truthyText message then
            liftAI (processWithRAG W
              {| message := default EmptyString message;
                 opt_language := language; opt_sessionId := sessionId;
                 useRAG := useRAG; analyzeSentimentFlag := analyzeSentiment;
                 opt_files := map Processed.toFile sessionFiles;
                 newFiles := map Processed.toFile fileResults |})
          else
            let fileSummary := Js.join Js.nl (map fileSummaryLine fileResults) in
            liftAI (processWithRAG W
              {| message :=
                   "I uploaded these files: " +:+ fileSummary +:+
                   ". Analyze them and tell me about the content.";
                 opt_language := language; opt_sessionId := sessionId;
                 useRAG := true; analyzeSentimentFlag := false;
                 opt_files := map Processed.toFile sessionFiles;
                 newFiles := map Processed.toFile fileResults |}));
       ensureSession sessionId fileResults;;
       t1 ← serverDate;
       alterSession sessionId (fun session =>
         ServerSession.mk (ServerSession.files session)
           (ServerSession.messages session ++
              [ServerMessage.mk Msg.user (Str <$> message)
                 (Some (map Processed.filename fileResults)) t1])
           (ServerSession.createdAt session));;
       t2 ← serverDate;
       alterSession sessionId (fun session =>
         ServerSession.mk (ServerSession.files session)
           (ServerSession.messages session ++
              [ServerMessage.mk Msg.assistant (Some (reply_text aiResponse))
                 None t2])
           (ServerSession.createdAt session));;
       alterSession sessionId (fun session =>
         if 20 <? length (ServerSession.messages session) then
           ServerSession.mk (ServerSession.files session)
             (Js.sliceLast 20 (ServerSession.messages session))
             (ServerSession.createdAt session)
         else session);;
       ts ← serverDate;
       mret (ChatAnswered aiResponse sessionId
               (map (fun f =>
                       {| FileSummary.id := None;
                          FileSummary.filename := Processed.filename f;
                          FileSummary.type := Processed.type f;
                          FileSummary.size := Processed.size f;
                          FileSummary.extracted := Processed.hasContent f;
                          FileSummary.preview := Processed.preview f;
                          FileSummary.success := Some (Processed.success f);
                          FileSummary.timestamp := None |}) fileResults)
               (length sessionFiles) ts))
    (fun e =>
       ts ← serverDate;
       mret (ChatFailed (if Js.nonEmpty e then e else "Internal server error") ts)).

(** The summaries in the answer to /api/upload, each with the time at
    which it is made. *)
Fixpoint uploadSummaries (results : list Processed.t) : SM (list FileSummary.t) :=
  match results with
  | [] => mret []
  | f :: rest =>
      t ← serverDate;
      others ← uploadSummaries rest;
      mret ({| FileSummary.id := Processed.id f;
               FileSummary.filename := Processed.filename f;
               FileSummary.type := Processed.type f;
               FileSummary.size := Processed.size f;
               FileSummary.extracted := Processed.hasContent f;
               FileSummary.preview := Processed.preview f;
               FileSummary.success := None;
               FileSummary.timestamp := Some t |} :: others)
  end.

(** POST /api/upload *)
Definition uploadFiles (sessionId : option string) (files : list Upload.t)
  : SM UploadResponse :=
  sm_try_catch
    (sessionId ← sessionIdOr sessionId;
     if length files =? 0 then mret (UploadRejected "No files uploaded")
     else
       results ← receiveFiles sessionId files;
       summaries ← uploadSummaries results;
       ts ← serverDate;
       mret (UploadAccepted
               ("Successfully processed " +:+ pretty (length files) +:+ " file(s)")
               sessionId summaries ts))
    (fun e =>
       ts ← serverDate;
       mret (UploadFailed (if Js.nonEmpty e then e else "File processing failed") ts)).

(** DELETE /api/session/:sessionId *)
Definition deleteSession (sessionId : string) : SM DeleteResponse :=
  sm_try_catch
    (sm_update (fun srv =>
       with_activeSessions (delete sessionId (activeSessions srv)) srv);;
     ts ← serverDate;
     mret (SessionCleared "Session cleared successfully" sessionId ts))
    (fun e => mret (DeleteFailed e)).

End Handlers.

Definition sm_outcome {A} (m : SM A) (srv : Server) : Outcome A := fst (m srv).
Definition sm_after {A} (m : SM A) (srv : Server) : Server := snd (m srv).

(** The server at start-up, around a given service. *)
Definition serving (a : Service) : Server :=
  {| ai := a; activeSessions := ∅; events := 0 |}.

(** The service after the loop of [ingestFiles] over the results. *)
Definition ingestAll (W : World) (sessionId : string) (results : list Processed.t)
    (a : Service) : Service :=
  fold_left
    (fun a file =>
       if Processed.hasContent file then
         after (addToKnowledgeBase W (File.text (Processed.toFile file))
                  "file_upload" (uploadMetadata file sessionId)) a
       else a)
    results a.

(** The texts that the results of an upload contribute to the knowledge
    store. *)
Definition extractedTexts (results : list Processed.t) : list string :=
  map (fun file => File.text (Processed.toFile file))
    (List.filter Processed.hasContent results).

(** A host on which every file is written and every parser answers. *)
Definition plainHost : Host :=
  {| host_engine := Js.exampleEngine;
     uuidv4 := fun n => "id" +:+ pretty n;
     extname := fun name => if Js.includes name ".csv" then ".csv" else ".txt";
     pathJoin := fun dir name => dir +:+ "/" +:+ name;
     uploadsDir := "uploads";
     writeFile := fun _ _ _ => Returns tt;
     pdfParse := fun text => Returns text;
     mammothText := fun text => Returns text;
     jsonPretty := fun text => Returns text;
     base64 := fun text => text;
     host_now := fun n => "H" +:+ pretty n;
     dateNow := fun n => pretty n;
     host_formatFileSize := fun n => pretty n +:+ " Bytes" |}.

(** A host whose disk is full. *)
Definition fullDiskHost : Host :=
  {| host_engine := host_engine plainHost;
     uuidv4 := uuidv4 plainHost;
     extname := extname plainHost;
     pathJoin := pathJoin plainHost;
     uploadsDir := uploadsDir plainHost;
     writeFile := fun _ _ _ => Throws "ENOSPC";
     pdfParse := pdfParse plainHost;
     mammothText := mammothText plainHost;
     jsonPretty := jsonPretty plainHost;
     base64 := base64 plainHost;
     host_now := host_now plainHost;
     dateNow := dateNow plainHost;
     host_formatFileSize := host_formatFileSize plainHost |}.

Definition invoiceUpload : Upload.t :=
  {| Upload.originalname := "invoice.txt"; Upload.mimetype := "text/plain";
     Upload.size := 18; Upload.buffer := "invoice total $500" |}.

Definition photoUpload : Upload.t :=
  {| Upload.originalname := "cat.png"; Upload.mimetype := "image/png";
     Upload.size := 2048; Upload.buffer := "PNG" |}.

Definition chatRequest (sessionId : string) (text : option string)
    (files : list Upload.t) : ChatRequest :=
  {| req_message := text; req_language := None;
     req_sessionId := Some sessionId; req_useRAG := None;
     req_analyzeSentiment := None; req_files := files |}.

(** * Properties *)

(** ** The method monad *)

Section Monad.

Context {A B : Type}.

Lemma after_bind (m : M A) (f : A -> M B) s :
  after (m ≫= f) s =
  match outcome m s with
  | Returns a => after (f a) (after m s)
  | Throws _ => after m s
  end.
Proof.
  unfold after, outcome, mbind, M_bind. destruct (m s) as [[a|e] s']; reflexivity.
Qed.

Lemma outcome_bind (m : M A) (f : A -> M B) s :
  outcome (m ≫= f) s =
  match outcome m s with
  | Returns a => outcome (f a) (after m s)
  | Throws e => Throws e
  end.
Proof.
  unfold after, outcome, mbind, M_bind. destruct (m s) as [[a|e] s']; reflexivity.
Qed.

Lemma after_try_catch (m : M A) (h : string -> M A) s :
  after (try_catch m h) s =
  match outcome m s with
  | Returns _ => after m s
  | Throws e => after (h e) (after m s)
  end.
Proof.
  unfold after, outcome, try_catch. destruct (m s) as [[a|e] s']; reflexivity.
Qed.

Lemma outcome_try_catch (m : M A) (h : string -> M A) s :
  outcome (try_catch m h) s =
  match outcome m s with
  | Returns a => Returns a
  | Throws e => outcome (h e) (after m s)
  end.
Proof.
  unfold after, outcome, try_catch. destruct (m s) as [[a|e] s']; reflexivity.
Qed.

Lemma preserves_ret P (a : A) : preserves P (mret a).
Proof. intros s Hs. exact Hs. Qed.

Lemma preserves_bind P (m : M A) (f : A -> M B) :
  preserves P m -> (forall a, preserves P (f a)) -> preserves P (m ≫= f).
Proof.
  intros Hm Hf s Hs. rewrite after_bind.
  destruct (outcome m s); [apply Hf|]; apply Hm, Hs.
Qed.

Lemma preserves_try_catch P (m : M A) (h : string -> M A) :
  preserves P m -> (forall e, preserves P (h e)) -> preserves P (try_catch m h).
Proof.
  intros Hm Hh s Hs. rewrite after_try_catch.
  destruct (outcome m s); [|apply Hh]; apply Hm, Hs.
Qed.

Lemma total_ret (a : A) : total (mret a).
Proof. intros s. exists a. reflexivity. Qed.

Lemma total_bind (m : M A) (f : A -> M B) :
  total m -> (forall a, total (f a)) -> total (m ≫= f).
Proof.
  intros Hm Hf s. rewrite outcome_bind.
  destruct (Hm s) as [a ->]. apply Hf.
Qed.

Lemma total_try_catch (m : M A) (h : string -> M A) :
  (forall e, total (h e)) -> total (try_catch m h).
Proof.
  intros Hh s. rewrite outcome_try_catch.
  destruct (outcome m s) as [a|e]; [exists a; reflexivity | apply Hh].
Qed.

End Monad.

Lemma preserves_this P : preserves P this.
Proof. intros s Hs. exact Hs. Qed.

Lemma total_this : total this.
Proof. intros s. exists s. reflexivity. Qed.

Lemma total_update f : total (update f).
Proof. intros s. exists tt. reflexivity. Qed.

Lemma total_newDate W : total (newDate W).
Proof. intros s. eexists. reflexivity. Qed.

Lemma preserves_evaluate {A} P (o : Outcome A) : preserves P (evaluate o).
Proof. intros s Hs. exact Hs. Qed.

Lemma preserves_throw {A} P error : preserves P (throw (A := A) error).
Proof. intros s Hs. exact Hs. Qed.

Lemma preserves_newDate W P : blind P -> preserves P (newDate W).
Proof. intros HP s Hs. apply HP, Hs. Qed.

Lemma preserves_llmInvoke W P prompt : blind P -> preserves P (llmInvoke W prompt).
Proof. intros HP s Hs. apply HP, Hs. Qed.

Lemma preserves_vectorSimilaritySearch W P query k :
  blind P -> preserves P (vectorSimilaritySearch W query k).
Proof. intros HP s Hs. apply HP, Hs. Qed.

Lemma preserves_vectorAddDocuments W P text metadata :
  blind P -> preserves P (vectorAddDocuments W text metadata).
Proof. intros HP s Hs. apply HP, Hs. Qed.

Section Runs.

Context {A B : Type}.

Lemma run_pair (m : M A) s : m s = (outcome m s, after m s).
Proof. unfold outcome, after. destruct (m s); reflexivity. Qed.

Lemma bind_run (m : M A) (f : A -> M B) s a s' :
  m s = (Returns a, s') -> (m ≫= f) s = f a s'.
Proof. intros H. unfold mbind, M_bind. rewrite H. reflexivity. Qed.

Lemma try_catch_run (m : M A) (handler : string -> M A) s a s' :
  m s = (Returns a, s') -> try_catch m handler s = (Returns a, s').
Proof. intros H. unfold try_catch. rewrite H. reflexivity. Qed.

End Runs.

(** ** Frame conditions *)

Lemma keeps_intro {A X} (proj : Service -> X) (m : M A) :
  (forall x, preserves (fun s => proj s = x) m) -> keeps proj m.
Proof. intros H s. apply (H (proj s) s). reflexivity. Qed.

Lemma keeps_preserves {A X} (proj : Service -> X) (m : M A) (Q : X -> Prop) :
  keeps proj m -> preserves (fun s => Q (proj s)) m.
Proof. intros H s Hs. rewrite H. exact Hs. Qed.

Ltac blindness :=
  let H := fresh in intros ? ? ? H; exact H.

Ltac frame_step :=
  first
    [ apply preserves_ret
    | apply preserves_this
    | apply preserves_evaluate
    | apply preserves_throw
    | apply preserves_newDate; [blindness]
    | apply preserves_llmInvoke; [blindness]
    | apply preserves_vectorSimilaritySearch; [blindness]
    | apply preserves_vectorAddDocuments; [blindness]
    | apply preserves_bind; [|intros ?]
    | apply preserves_try_catch; [|intros ?]
    | match goal with
      | |- preserves _ (match ?x with _ => _ end) => destruct x
      | |- preserves _ (let '(_, _) := ?x in _) => destruct x
      end
    | progress cbv zeta ].

Ltac frame := repeat frame_step.

Section Frames.

Variable W : World.

Lemma fallbackResponse_frame P query language :
  blind P -> preserves P (fallbackResponse W query language).
Proof.
  intros HP. unfold fallbackResponse.
  apply preserves_bind; [apply preserves_newDate, HP | intros; apply preserves_ret].
Qed.

Lemma getBasicResponse_frame P query language :
  blind P -> preserves P (getBasicResponse W query language).
Proof.
  intros HP. unfold getBasicResponse.
  apply preserves_bind; [apply preserves_this | intros st].
  apply preserves_bind.
  - destruct (llm st); [|apply preserves_ret].
    apply preserves_try_catch; [|intros; apply preserves_ret].
    apply preserves_bind; [apply preserves_llmInvoke, HP | intros].
    apply preserves_bind; [apply preserves_newDate, HP | intros].
    apply preserves_ret.
  - intros [r|]; [apply preserves_ret | apply fallbackResponse_frame, HP].
Qed.

Lemma retrieve_frame P query context :
  blind P -> preserves P (retrieve W query context).
Proof.
  intros HP. unfold retrieve.
  apply preserves_bind; [apply preserves_this | intros st].
  apply preserves_bind.
  - destruct (vectorStore st && chromaInitialized st); [|apply preserves_ret].
    apply preserves_try_catch; [|intros; apply preserves_ret].
    apply preserves_bind; [apply preserves_vectorSimilaritySearch, HP | intros].
    apply preserves_ret.
  - intros [docs srcs].
    destruct (ctx_sessionId context) as [sid|]; [|apply preserves_ret].
    destruct (sessionContexts st !! sid) as [sc|]; [|apply preserves_ret].
    destruct (Js.nonEmpty sid); [|apply preserves_ret].
    destruct (0 <? length (Session.files sc)); apply preserves_ret.
Qed.

Lemma ragQuery_frame P query language context :
  blind P -> preserves P (ragQuery W query language context).
Proof.
  intros HP. unfold ragQuery.
  apply preserves_bind; [apply preserves_this | intros st].
  destruct (negb (isReady st) || negb (llm st));
    [apply fallbackResponse_frame, HP|].
  apply preserves_try_catch; [|intros; apply getBasicResponse_frame, HP].
  apply preserves_bind; [apply retrieve_frame, HP | intros [docs srcs]].
  apply preserves_bind; [apply preserves_evaluate | intros].
  apply preserves_bind; [apply preserves_llmInvoke, HP | intros].
  apply preserves_bind; [apply preserves_newDate, HP | intros].
  apply preserves_ret.
Qed.

(** What each method does to the three stores. *)

Lemma getConversationHistory_after sessionId limit s :
  after (getConversationHistory W sessionId limit) s = s.
Proof.
  unfold getConversationHistory. rewrite after_try_catch, outcome_bind, after_bind.
  cbn. destruct (conversationHistory s !! sessionId); reflexivity.
Qed.

Lemma storeConversation_history sessionId message s :
  conversationHistory (after (storeConversation sessionId message) s) =
  <[sessionId :=
      let history :=
        default [] (conversationHistory s !! sessionId) ++ [message] in
      if 50 <? length history then Js.sliceLast 50 history else history]>
    (conversationHistory s).
Proof. reflexivity. Qed.

Lemma storeConversation_sessions sessionId message :
  keeps sessionContexts (storeConversation sessionId message).
Proof. intros s. reflexivity. Qed.

Lemma storeConversation_knowledge sessionId message :
  keeps localKnowledge (storeConversation sessionId message).
Proof. intros s. reflexivity. Qed.

Lemma ragQuery_history query language context :
  keeps conversationHistory (ragQuery W query language context).
Proof. apply keeps_intro. intros x. apply ragQuery_frame. blindness. Qed.

Lemma ragQuery_sessions query language context :
  keeps sessionContexts (ragQuery W query language context).
Proof. apply keeps_intro. intros x. apply ragQuery_frame. blindness. Qed.

Lemma ragQuery_knowledge query language context :
  keeps localKnowledge (ragQuery W query language context).
Proof. apply keeps_intro. intros x. apply ragQuery_frame. blindness. Qed.

Lemma updateSessionContext_history sessionId language files :
  keeps conversationHistory (updateSessionContext W sessionId language files).
Proof.
  apply keeps_intro. intros x. unfold updateSessionContext. frame.
  all: try (intros s Hs; exact Hs).
Qed.

Lemma addToKnowledgeBase_history text source metadata :
  keeps conversationHistory (addToKnowledgeBase W text source metadata).
Proof.
  apply keeps_intro. intros x. unfold addToKnowledgeBase. frame.
  all: try (intros s Hs; exact Hs).
Qed.

Lemma getSessionInfo_history sessionId :
  keeps conversationHistory (getSessionInfo W sessionId).
Proof.
  apply keeps_intro. intros x. unfold getSessionInfo. frame.
Qed.

Lemma clearSession_history sessionId s :
  conversationHistory (after (clearSession W sessionId) s) =
  delete sessionId (conversationHistory s).
Proof. reflexivity. Qed.

End Frames.

(** ** The conversation log *)

Lemma sliceLast_length {A} n (l : list A) :
  0 < n -> length (Js.sliceLast n l) <= n.
Proof.
  intros Hn. unfold Js.sliceLast.
  destruct (Nat.eqb_spec n 0) as [->|_]; [lia|].
  rewrite length_drop. lia.
Qed.

Lemma sliceLast_full {A} n (l : list A) (x : A) :
  0 < n -> length l = n -> Js.sliceLast n (l ++ [x]) = drop 1 l ++ [x].
Proof.
  intros Hn Hl. unfold Js.sliceLast.
  destruct (Nat.eqb_spec n 0) as [->|_]; [lia|].
  rewrite length_app. cbn [length].
  replace (length l + 1 - n) with 1 by lia.
  destruct l as [|y l]; [cbn in Hl; lia | reflexivity].
Qed.

Lemma storeConversation_bounded sessionId message :
  preserves (logsBounded 50) (storeConversation sessionId message).
Proof.
  intros s Hs sid log. rewrite storeConversation_history.
  destruct (decide (sessionId = sid)) as [->|Hne].
  - rewrite lookup_insert_eq. intros [= <-]. cbv zeta.
    destruct (Nat.ltb_spec 50
                (length (default [] (conversationHistory s !! sid) ++ [message])))
      as [_|Hle]; [apply sliceLast_length; lia | lia].
  - rewrite lookup_insert_ne by assumption. apply Hs.
Qed.

Lemma keeps_history_bounded {A} n (m : M A) :
  keeps conversationHistory m -> preserves (logsBounded n) m.
Proof.
  intros H. apply (keeps_preserves conversationHistory m
    (fun h => forall sid log, h !! sid = Some log -> length log <= n) H).
Qed.

Lemma processWithRAG_bounded W options :
  preserves (logsBounded 50) (processWithRAG W options).
Proof.
  assert (blind (logsBounded 50)) as HB by blindness.
  unfold processWithRAG.
  apply preserves_try_catch;
    [|intros; apply preserves_bind;
        [apply fallbackResponse_frame, HB | intros; apply preserves_ret]].
  apply preserves_bind.
  { intros s Hs. rewrite getConversationHistory_after. exact Hs. }
  intros history.
  apply preserves_bind;
    [apply keeps_history_bounded, updateSessionContext_history | intros sc].
  apply preserves_bind; [apply ragQuery_frame, HB | intros ragResult].
  cbv zeta.
  apply preserves_bind; [apply preserves_newDate, HB | intros].
  apply preserves_bind; [apply storeConversation_bounded | intros].
  apply preserves_bind; [apply preserves_newDate, HB | intros].
  apply preserves_bind; [apply storeConversation_bounded | intros].
  apply preserves_bind; [apply preserves_newDate, HB | intros].
  apply preserves_ret.
Qed.

Lemma initialize_history W : keeps conversationHistory (initialize W).
Proof.
  intros s. unfold initialize, initializeChromaDB, initializeLocalStorage.
  destruct (chromaProbe W); reflexivity.
Qed.

Lemma run_bounded W c s : logsBounded 50 s -> logsBounded 50 (run W c s).
Proof.
  destruct c; cbn [run].
  - apply keeps_history_bounded, initialize_history.
  - apply processWithRAG_bounded.
  - apply keeps_history_bounded, ragQuery_history.
  - apply storeConversation_bounded.
  - rewrite getConversationHistory_after. trivial.
  - apply keeps_history_bounded, addToKnowledgeBase_history.
  - intros Hs sid log. rewrite clearSession_history.
    intros Hl. apply lookup_delete_Some in Hl as [_ Hl]. exact (Hs _ _ Hl).
  - apply keeps_history_bounded, getSessionInfo_history.
Qed.

Lemma runAll_bounded W calls s :
  logsBounded 50 s -> logsBounded 50 (runAll W calls s).
Proof.
  revert s. induction calls as [|c calls IH]; intros s Hs; [exact Hs|].
  apply IH, run_bounded, Hs.
Qed.

(** C6.  Whatever the transport layer has called since construction, every
    conversation log holds at most 50 turns; storing a turn into a log of
    50 drops the oldest turn and keeps the other 49 followed by the new one,
    in their order, and storing into a shorter log appends. *)
Theorem conversation_log_capped_fifo (W : World) :
  (forall calls, logsBounded 50 (runAll W calls constructed)) /\
  (forall s sessionId log message,
      conversationHistory s !! sessionId = Some log ->
      length log = 50 ->
      conversationHistory (after (storeConversation sessionId message) s)
        !! sessionId = Some (drop 1 log ++ [message])) /\
  (forall s sessionId log message,
      conversationHistory s !! sessionId = Some log ->
      length log < 50 ->
      conversationHistory (after (storeConversation sessionId message) s)
        !! sessionId = Some (log ++ [message])).
Proof.
  split; [|split].
  - intros calls. apply runAll_bounded. intros sid log Hl.
    cbn in Hl. rewrite lookup_empty in Hl. discriminate.
  - intros s sid log message Hl Hlen.
    rewrite storeConversation_history, lookup_insert_eq, Hl.
    change (default [] (Some log)) with log.
    cbv zeta. rewrite length_app. cbn [length].
    destruct (Nat.ltb_spec 50 (length log + 1)) as [_|Hle]; [|lia].
    f_equal. apply sliceLast_full; [lia | exact Hlen].
  - intros s sid log message Hl Hlen.
    rewrite storeConversation_history, lookup_insert_eq, Hl.
    change (default [] (Some log)) with log.
    cbv zeta. rewrite length_app. cbn [length].
    destruct (Nat.ltb_spec 50 (length log + 1)) as [Hlt|_]; [lia | reflexivity].
Qed.

Lemma conversation_log_capped_fifo_witness :
  logsBounded 50
    (runAll calmWorld [CallProcess (ask "s1" "hello")] constructed) /\
  conversationHistory
    (after (storeConversation "s1" (turn 50))
       (with_conversationHistory {[ "s1" := map turn (seq 0 50) ]} constructed))
    !! "s1" = Some (drop 1 (map turn (seq 0 50)) ++ [turn 50]).
Proof.
  split.
  - apply (proj1 (conversation_log_capped_fifo calmWorld)).
  - apply (proj1 (proj2 (conversation_log_capped_fifo calmWorld))).
    + vm_compute. reflexivity.
    + vm_compute. reflexivity.
Defined.

(** ** The session registry *)

Section Establish.

Context {A B : Type}.

Lemma bind_establishes (P : Service -> Prop) (m : M A) (f : A -> M B) s :
  P (after m s) -> (forall a, preserves P (f a)) -> P (after (m ≫= f) s).
Proof.
  intros Hm Hf. rewrite after_bind.
  destruct (outcome m s); [apply Hf|]; exact Hm.
Qed.

Lemma try_catch_establishes (P : Service -> Prop) (m : M A) (h : string -> M A) s :
  P (after m s) -> (forall e, preserves P (h e)) -> P (after (try_catch m h) s).
Proof.
  intros Hm Hh. rewrite after_try_catch.
  destruct (outcome m s); [|apply Hh]; exact Hm.
Qed.

End Establish.

Lemma getConversationHistory_outcome W sessionId limit s :
  outcome (getConversationHistory W sessionId limit) s =
  Returns
    match conversationHistory s !! sessionId with
    | None => "No previous conversation in this session."
    | Some history =>
        Js.join Js.nl (map (renderTurn W) (Js.sliceLast limit history))
    end.
Proof.
  unfold getConversationHistory.
  rewrite outcome_try_catch, outcome_bind. cbn.
  destruct (conversationHistory s !! sessionId); reflexivity.
Qed.

Lemma updateSessionContext_existing W sessionId language files s session :
  sessionContexts s !! sessionId = Some session ->
  sessionContexts (after (updateSessionContext W sessionId language files) s) =
  <[sessionId := appended W s language files session]> (sessionContexts s).
Proof.
  intros Hs. unfold updateSessionContext, appended, after, mbind, M_bind, this.
  rewrite Hs. cbn. destruct files; reflexivity.
Qed.

Lemma processWithRAG_sessions W options s :
  sessionContexts (after (processWithRAG W options) s) =
  sessionContexts
    (after (updateSessionContext W (opt_sessionId options)
              (opt_language options) (newFiles options)) s).
Proof.
  set (X := sessionContexts (after (updateSessionContext _ _ _ _) s)).
  unfold processWithRAG.
  apply (try_catch_establishes (fun st => sessionContexts st = X)).
  2:{ intros e. apply preserves_bind;
        [apply fallbackResponse_frame; blindness | intros; apply preserves_ret]. }
  rewrite after_bind, getConversationHistory_outcome, getConversationHistory_after.
  apply (bind_establishes (fun st => sessionContexts st = X)); [reflexivity|].
  intros sc.
  apply preserves_bind; [apply ragQuery_frame; blindness | intros ragResult].
  cbv zeta.
  apply preserves_bind; [apply preserves_newDate; blindness | intros].
  apply preserves_bind; [intros st Hst; exact Hst | intros].
  apply preserves_bind; [apply preserves_newDate; blindness | intros].
  apply preserves_bind; [intros st Hst; exact Hst | intros].
  apply preserves_bind; [apply preserves_newDate; blindness | intros].
  apply preserves_ret.
Qed.

(** C7.  For a registered session, a request that brings no new files
    leaves the entry's [lastUpdated], [files] and [fileContext] as they
    were; a request that brings new files sets [lastUpdated] to the time
    read during the request and appends the files. *)
Theorem appending_files_and_lastUpdated (W : World) (s : Service)
    (options : Options) (session : Session.t) :
  sessionContexts s !! opt_sessionId options = Some session ->
  (newFiles options = [] ->
   exists session',
     sessionContexts (after (processWithRAG W options) s)
       !! opt_sessionId options = Some session' /\
     Session.lastUpdated session' = Session.lastUpdated session /\
     Session.files session' = Session.files session /\
     Session.fileContext session' = Session.fileContext session) /\
  (newFiles options <> [] ->
   exists session',
     sessionContexts (after (processWithRAG W options) s)
       !! opt_sessionId options = Some session' /\
     Session.lastUpdated session' = now W (tick s) /\
     Session.files session' = Session.files session ++ newFiles options).
Proof.
  intros Hs.
  rewrite processWithRAG_sessions,
    (updateSessionContext_existing _ _ _ _ _ _ Hs), lookup_insert_eq.
  unfold appended. split; intros Hnew.
  - rewrite Hnew. cbn. eexists. split; [reflexivity|]. cbn. auto.
  - destruct (newFiles options) as [|f fs]; [congruence|].
    cbn. eexists. split; [reflexivity|]. cbn. auto.
Qed.

Lemma appending_files_and_lastUpdated_witness :
  (exists session',
     sessionContexts (after (processWithRAG calmWorld (ask "s1" "again")) greeted)
       !! "s1" = Some session' /\
     Session.lastUpdated session' = "T0" /\
     Session.files session' = [] /\
     Session.fileContext session' = EmptyString) /\
  (exists session',
     sessionContexts
       (after (processWithRAG calmWorld (upload "s1" "what was the total" [report]))
          greeted) !! "s1" = Some session' /\
     Session.lastUpdated session' = now calmWorld (tick greeted) /\
     Session.files session' = [] ++ [report]).
Proof.
  assert (sessionContexts greeted !! "s1" =
          Some {| Session.files := []; Session.fileContext := EmptyString;
                  Session.lastUpdated := "T0"; Session.language := "en" |})
    as Hs by (vm_compute; reflexivity).
  split.
  - apply (proj1 (appending_files_and_lastUpdated calmWorld greeted
                    (ask "s1" "again") _ Hs)).
    reflexivity.
  - apply (proj2 (appending_files_and_lastUpdated calmWorld greeted
                    (upload "s1" "what was the total" [report]) _ Hs)).
    discriminate.
Defined.

(** C8, as stated, fails for eviction: on a session id that is not
    registered, [clearSession] does not answer with a failure or a
    not-found object, it reports success. *)
Lemma clearSession_unknown_reports_success :
  sessionContexts ready !! "ghost" = None /\
  ~ (exists r, outcome (clearSession calmWorld "ghost") ready = Returns r /\
               success r = false).
Proof.
  split; [reflexivity|].
  intros [r [Hr Hs]]. vm_compute in Hr.
  injection Hr as <-. discriminate Hs.
Qed.

(** C8, amended.  For a session id that is not registered, inspection
    returns the object [exists: false, message: Session not found] and
    changes nothing; eviction returns [success: true] with the
    cleared-successfully message and leaves the registry as it was.  Neither
    throws. *)
Theorem unknown_session_inspection_and_eviction (W : World) (s : Service)
    (sessionId : string) :
  sessionContexts s !! sessionId = None ->
  outcome (getSessionInfo W sessionId) s = Returns (NotFound "Session not found") /\
  after (getSessionInfo W sessionId) s = s /\
  outcome (clearSession W sessionId) s =
    Returns (Cleared ("Session " +:+ sessionId +:+ " cleared successfully")
                     (now W (tick s))) /\
  sessionContexts (after (clearSession W sessionId) s) = sessionContexts s.
Proof.
  intros Hs. repeat split.
  - unfold getSessionInfo, outcome, mbind, M_bind, this. rewrite Hs. reflexivity.
  - unfold getSessionInfo, after, mbind, M_bind, this. rewrite Hs. reflexivity.
  - change (sessionContexts (after (clearSession W sessionId) s))
      with (delete sessionId (sessionContexts s)).
    apply delete_id, Hs.
Qed.

Lemma unknown_session_inspection_and_eviction_witness :
  outcome (getSessionInfo calmWorld "ghost") greeted =
    Returns (NotFound "Session not found") /\
  after (getSessionInfo calmWorld "ghost") greeted = greeted /\
  outcome (clearSession calmWorld "ghost") greeted =
    Returns (Cleared ("Session " +:+ "ghost" +:+ " cleared successfully")
                     (now calmWorld (tick greeted))) /\
  sessionContexts (after (clearSession calmWorld "ghost") greeted) =
    sessionContexts greeted.
Proof.
  apply (unknown_session_inspection_and_eviction calmWorld greeted "ghost").
  vm_compute. reflexivity.
Defined.

(** ** Retrieval *)

Lemma flat_map_optional {A B} (keep : A -> bool) (g : A -> B) (l : list A) :
  flat_map (fun a => if keep a then [g a] else []) l = map g (List.filter keep l).
Proof.
  induction l as [|a l IH]; [reflexivity|].
  cbn. destruct (keep a); cbn; rewrite IH; reflexivity.
Qed.

Lemma sessionFileHits_spec (E : Js.Engine) words f :
  sessionFileHits E words f =
  if fileMatches E words f then [passageOfFile E words f] else [].
Proof.
  unfold sessionFileHits, fileMatches. destruct (File.hasContent f); [|reflexivity].
  cbn [andb]. fold (matchedWordCount E words f).
  destruct (0 <? matchedWordCount E words f); reflexivity.
Qed.

Lemma searchInSessionFiles_spec (E : Js.Engine) query files :
  queryWords E query <> [] ->
  searchInSessionFiles E query files =
  map (passageOfFile E (queryWords E query))
      (take 2 (List.filter (fileMatches E (queryWords E query)) files)).
Proof.
  intros Hw. unfold searchInSessionFiles, Js.slice0.
  destruct (queryWords E query) as [|w ws] eqn:Eq; [congruence|].
  cbn [length Nat.eqb]. rewrite <- Eq in *. clear Eq.
  rewrite (flat_map_ext _ _ (sessionFileHits_spec E (queryWords E query))).
  rewrite flat_map_optional. symmetry. apply fmap_take.
Qed.

(** C2, as stated, fails: the kept files are not ranked.  With three
    uploads of which the last matches both query words and the first two
    match one, the code returns the first two, the ranking the last and
    the first. *)
Lemma session_file_search_is_not_ranked :
  queryWords calmWorld "alpha beta" <> [] /\
  map scoreOf
    (searchInSessionFiles calmWorld "alpha beta"
       [noteFile "a.txt" "alpha"; noteFile "b.txt" "beta"; noteFile "c.txt" "alpha beta"])
    = [1 # 2; 1 # 2]%Q /\
  map scoreOf
    (spec_searchInSessionFiles calmWorld "alpha beta"
       [noteFile "a.txt" "alpha"; noteFile "b.txt" "beta"; noteFile "c.txt" "alpha beta"])
    = [2 # 2; 1 # 2]%Q /\
  searchInSessionFiles calmWorld "alpha beta"
    [noteFile "a.txt" "alpha"; noteFile "b.txt" "beta"; noteFile "c.txt" "alpha beta"]
  <> spec_searchInSessionFiles calmWorld "alpha beta"
    [noteFile "a.txt" "alpha"; noteFile "b.txt" "beta"; noteFile "c.txt" "alpha beta"].
Proof.
  split; [discriminate|]. split; [vm_compute; reflexivity|].
  split; [vm_compute; reflexivity|].
  intros H. apply (f_equal (map scoreOf)) in H. vm_compute in H. discriminate H.
Qed.

(** C2, amended.  For a query with at least one token, session-file
    retrieval returns the passages of the first two files, in the order of
    the session's file list, that have extracted content and contain at
    least one query word.  Each passage carries
    matchScore = matched words / query words, and its text is a line naming
    the file followed by the first 1000 UTF-16 code units of the content and
    an ellipsis.  The tokens are the pieces of the lower-cased query that
    are longer than two code units. *)
Theorem session_file_search_first_two_matches (E : Js.Engine)
    (query : string) (files : list File.t) :
  queryWords E query <> [] ->
  let words := queryWords E query in
  let result := searchInSessionFiles E query files in
  result = map (passageOfFile E words) (take 2 (List.filter (fileMatches E words) files)) /\
  length result <= 2 /\
  (forall p, In p result ->
     exists f content,
       In f files /\ File.content f = Some content /\
       0 < matchedWordCount E words f /\
       scoreOf p = (Z.of_nat (matchedWordCount E words f) # Pos.of_nat (length words))%Q /\
       Passage.pageContent p =
         "From uploaded file " +:+ Js.dquote +:+ File.filename f +:+ Js.dquote
           +:+ ":" +:+ Js.nl +:+ Js.substring0 1000 content +:+ "...").
Proof.
  intros Hw words result.
  assert (result = map (passageOfFile E words)
                     (take 2 (List.filter (fileMatches E words) files))) as Hr
    by (apply searchInSessionFiles_spec, Hw).
  split; [exact Hr|]. split.
  - rewrite Hr, length_map, length_take. lia.
  - intros p Hp. rewrite Hr in Hp. apply in_map_iff in Hp as [f [<- Hf]].
    apply list_elem_of_In, elem_of_take in Hf as [i [Hf _]].
    apply list_elem_of_lookup_2, list_elem_of_In, filter_In in Hf as [Hin Hm].
    unfold fileMatches in Hm. apply andb_prop in Hm as [Hc Hn].
    unfold File.hasContent in Hc.
    destruct (File.content f) as [content|] eqn:Ec; [|discriminate].
    exists f, content. repeat split.
    + exact Hin.
    + exact Ec.
    + apply Nat.ltb_lt, Hn.
    + unfold passageOfFile, File.text. rewrite Ec. reflexivity.
Qed.

Lemma session_file_search_first_two_matches_witness :
  let words := queryWords calmWorld "what was the total" in
  let result := searchInSessionFiles calmWorld "what was the total" [report] in
  result = map (passageOfFile calmWorld words) (take 2 (List.filter (fileMatches calmWorld words) [report])) /\
  length result <= 2 /\
  (forall p, In p result ->
     exists f content,
       In f [report] /\ File.content f = Some content /\
       0 < matchedWordCount calmWorld words f /\
       scoreOf p = (Z.of_nat (matchedWordCount calmWorld words f) # Pos.of_nat (length words))%Q /\
       Passage.pageContent p =
         "From uploaded file " +:+ Js.dquote +:+ File.filename f +:+ Js.dquote
           +:+ ":" +:+ Js.nl +:+ Js.substring0 1000 content +:+ "...").
Proof.
  apply (session_file_search_first_two_matches calmWorld "what was the total" [report]).
  vm_compute. discriminate.
Defined.

Lemma retrieve_outcome W query context s :
  outcome (retrieve W query context) s =
  Returns
    (searchLocalKnowledge W query (localKnowledge s)
       ++ fst (vectorStep W s query) ++ fst (sessionStep W s query context),
     snd (vectorStep W s query) ++ snd (sessionStep W s query context)
       ++ ["local_knowledge"]).
Proof.
  unfold retrieve, vectorStep, sessionStep, outcome, mbind, M_bind, try_catch,
    this, vectorSimilaritySearch, mret, M_ret.
  destruct (vectorStore s && chromaInitialized s);
    [destruct (similaritySearch W (tick s) query 2) as [chromaDocs|e]|];
    cbn [fst snd app];
    (destruct (ctx_sessionId context) as [sid|];
       [destruct (sessionContexts s !! sid) as [sc|];
          [destruct (Js.nonEmpty sid);
             [destruct (0 <? length (Session.files sc));
                [destruct (0 <? length (searchInSessionFiles W query (Session.files sc)))|]|]|]|]);
    cbn [fst snd app andb]; rewrite ?app_nil_r, <- ?app_assoc; reflexivity.
Qed.

Lemma retrieve_after W query context s :
  after (retrieve W query context) s =
  if vectorStore s && chromaInitialized s
  then interacted [] [(query, 2)] s else s.
Proof.
  unfold retrieve, after, mbind, M_bind, try_catch, this,
    vectorSimilaritySearch, mret, M_ret.
  destruct (vectorStore s && chromaInitialized s);
    [destruct (similaritySearch W (tick s) query 2) as [chromaDocs|e]|];
    (destruct (ctx_sessionId context) as [sid|];
       [destruct (sessionContexts s !! sid) as [sc|];
          [destruct (Js.nonEmpty sid);
             [destruct (0 <? length (Session.files sc))|]|]|]);
    reflexivity.
Qed.




(** ** Ingestion *)

Lemma addToKnowledgeBase_knowledge W text source metadata s :
  localKnowledge (after (addToKnowledgeBase W text source metadata) s) =
  localKnowledge s ++ [Doc.mk text (storedMetadata source (now W (tick s)) metadata)].
Proof.
  unfold addToKnowledgeBase.
  apply (try_catch_establishes
           (fun st => localKnowledge st =
                      localKnowledge s ++
                        [Doc.mk text (storedMetadata source (now W (tick s)) metadata)]));
    [|intros; apply preserves_ret].
  rewrite after_bind.
  change (outcome (newDate W) s) with (Returns (A := string) (now W (tick s))).
  cbv beta iota.
  apply (bind_establishes
           (fun st => localKnowledge st =
                      localKnowledge s ++
                        [Doc.mk text (storedMetadata source (now W (tick s)) metadata)]));
    [reflexivity|].
  intros _. frame.
Qed.






(** ** Answering *)

Section Answering.

Variable W : World.

Lemma fallbackResponse_outcome query language s :
  outcome (fallbackResponse W query language) s =
  Returns {| Rag.text := cannedResponse query language;
             Rag.sources := ["fallback"];
             Rag.confidence := 6 # 10;
             Rag.language := language;
             Rag.timestamp := now W (tick s) |}.
Proof. reflexivity. Qed.

Lemma fallbackResponse_canned query language s :
  exists r,
    fallbackResponse W query language s = (Returns r, interacted [] [] s) /\
    Rag.language r = language /\ canned query language r.
Proof. eexists. split; [reflexivity|]. repeat split. Qed.

Lemma llmInvoke_outcome prompt s :
  outcome (llmInvoke W prompt) s = llm_invoke W (tick s) prompt.
Proof. reflexivity. Qed.

(** [getBasicResponse] with a backend handle: one call, with the basic
    prompt. *)
Lemma getBasicResponse_outcome query language s :
  llm s = true ->
  exists r s',
    getBasicResponse W query language s = (Returns r, s') /\
    Rag.language r = language /\
    invocations s' = (tick s, basicPrompt query language) :: invocations s /\
    match llm_invoke W (tick s) (basicPrompt query language) with
    | Returns content => retried content r
    | Throws _ => canned query language r
    end.
Proof.
  intros Hllm. unfold getBasicResponse, mbind, M_bind, this, try_catch, llmInvoke.
  rewrite Hllm.
  destruct (llm_invoke W (tick s) (basicPrompt query language)) as [content|e].
  - eexists. eexists. split; [reflexivity|]. repeat split.
  - eexists. eexists. split; [reflexivity|]. repeat split.
Qed.

(** A language whose table entry is inherited has no instructions, and no
    other language lacks them. *)
Lemma inherited_language language :
  Js.inherited language = true -> langConfigFor language = Builtin language.
Proof.
  unfold Js.inherited, Js.objectPrototype. cbn [existsb].
  intros H.
  repeat (apply orb_prop in H as [H|H];
          [apply String.eqb_eq in H; subst language; reflexivity|]).
  discriminate H.
Qed.

Lemma configured_language language :
  Js.inherited language = false ->
  exists config, langConfigFor language = Configured config.
Proof.
  intros H. unfold langConfigFor, languageConfig, Js.property.
  match goal with
  | |- context [match ?own with Some a => Js.Own a | None => _ end] =>
      destruct own as [config|]
  end.
  - exists config. reflexivity.
  - rewrite H. exists config_en. reflexivity.
Qed.

Lemma enhancedPrompt_inherited query language context docs :
  Js.inherited language = true ->
  exists e, enhancedPrompt W query language context docs = Throws e.
Proof.
  intros H. unfold enhancedPrompt. rewrite (inherited_language _ H).
  eexists. reflexivity.
Qed.


(** All of [ragQuery]: what it returns and the calls it makes to the
    backend, according to the readiness of the service, the language and
    the answers of the backend at the instants of the calls. *)
Lemma ragQuery_run query language context s :
  exists r new s',
    ragQuery W query language context s = (Returns r, s') /\
    Rag.language r = language /\
    invocations s' = new ++ invocations s /\
    answered W query language context s new r.
Proof.
  assert (Hunfold :
    ragQuery W query language context s =
    (if negb (isReady s) || negb (llm s)
     then fallbackResponse W query language
     else
       try_catch
         ('(relevantDocs, sources) ← retrieve W query context;
          enhancedPrompt ←
            evaluate (enhancedPrompt W query language context relevantDocs);
          content ← llmInvoke W enhancedPrompt;
          ts ← newDate W;
          mret {| Rag.text := Str content;
                  Rag.sources := sources;
                  Rag.confidence := 9 # 10;
                  Rag.language := language;
                  Rag.timestamp := ts |})
         (fun _ => getBasicResponse W query language)) s) by reflexivity.
  rewrite Hunfold. clear Hunfold. unfold answered.
  destruct (negb (isReady s) || negb (llm s)) eqn:Eoff.
  - eexists. exists []. eexists. split; [reflexivity|]. repeat split.
  - apply orb_false_elim in Eoff as [_ Ellm]. apply negb_false_iff in Ellm.
    pose proof (retrieve_outcome W query context s) as Hdocs.
    set (s1 := after (retrieve W query context) s).
    assert (Hi1 : invocations s1 = invocations s).
    { unfold s1. rewrite retrieve_after.
      destruct (vectorStore s && chromaInitialized s); reflexivity. }
    assert (Hl1 : llm s1 = true).
    { unfold s1. rewrite retrieve_after.
      destruct (vectorStore s && chromaInitialized s); exact Ellm. }
    assert (Ht : tick s + (if vectorStore s && chromaInitialized s then 1 else 0)
                 = tick s1).
    { unfold s1. rewrite retrieve_after.
      destruct (vectorStore s && chromaInitialized s); cbn [tick interacted]; lia. }
    rewrite Ht. clear Ht.
    cbv zeta. unfold try_catch.
    erewrite bind_run by (rewrite run_pair, Hdocs; reflexivity).
    fold s1. unfold retrieved.
    destruct (enhancedPrompt W query language context
                (searchLocalKnowledge W query (localKnowledge s) ++
                 fst (vectorStep W s query) ++ fst (sessionStep W s query context)))
      as [prompt|e].
    + erewrite bind_run by reflexivity.
      unfold mbind at 1, M_bind at 1, llmInvoke.
      destruct (llm_invoke W (tick s1) prompt) as [content|e].
      * eexists. exists [(tick s1, prompt)]. eexists.
        split; [reflexivity|]. split; [reflexivity|]. split.
        { cbn. rewrite Hi1. reflexivity. }
        split; [reflexivity|]. split; [reflexivity|]. split; [|reflexivity].
        cbn. apply in_or_app. right. apply in_or_app. right. left. reflexivity.
      * destruct (getBasicResponse_outcome query language
                    (interacted [prompt] [] s1) Hl1)
          as [r [s' [Hrun [Hlang [Hinv Hcase]]]]].
        exists r, [(S (tick s1), basicPrompt query language); (tick s1, prompt)], s'.
        split; [exact Hrun|]. split; [exact Hlang|]. split.
        { rewrite Hinv. cbn. rewrite Hi1. reflexivity. }
        split; [reflexivity|]. exact Hcase.
    + unfold mbind at 1, M_bind at 1, evaluate.
      destruct (getBasicResponse_outcome query language s1 Hl1)
        as [r [s' [Hrun [Hlang [Hinv Hcase]]]]].
      exists r, [(tick s1, basicPrompt query language)], s'.
      split; [exact Hrun|]. split; [exact Hlang|]. split.
      { rewrite Hinv, Hi1. reflexivity. }
      split; [reflexivity|]. exact Hcase.
Qed.

Lemma updateSessionContext_outcome sessionId language files s :
  outcome (updateSessionContext W sessionId language files) s =
  Returns (updatedSession W s sessionId language files).
Proof.
  unfold updateSessionContext, updatedSession, appended, outcome, mbind, M_bind,
    this, update, newDate, mret, M_ret.
  destruct (sessionContexts s !! sessionId) as [session|];
    destruct files; reflexivity.
Qed.

Lemma updateSessionContext_ready sessionId language files s :
  isReady (after (updateSessionContext W sessionId language files) s) = isReady s /\
  llm (after (updateSessionContext W sessionId language files) s) = llm s.
Proof.
  unfold updateSessionContext, after, mbind, M_bind, this, update, newDate,
    mret, M_ret.
  destruct (sessionContexts s !! sessionId) as [session|];
    destruct files; split; reflexivity.
Qed.

Lemma updateSessionContext_invocations sessionId language files :
  keeps invocations (updateSessionContext W sessionId language files).
Proof.
  intros s.
  unfold updateSessionContext, after, mbind, M_bind, this, update, newDate,
    mret, M_ret.
  destruct (sessionContexts s !! sessionId) as [session|];
    destruct files; reflexivity.
Qed.

End Answering.

Lemma storeConversation_run sessionId message s :
  storeConversation sessionId message s =
  (Returns tt,
   with_conversationHistory
     (<[sessionId := capped (default [] (conversationHistory s !! sessionId)
                               ++ [message])]> (conversationHistory s)) s).
Proof. reflexivity. Qed.

Lemma getConversationHistory_run W sessionId limit s :
  getConversationHistory W sessionId limit s =
  (Returns
     match conversationHistory s !! sessionId with
     | None => "No previous conversation in this session."
     | Some history => Js.join Js.nl (map (renderTurn W) (Js.sliceLast limit history))
     end, s).
Proof.
  rewrite run_pair, getConversationHistory_outcome, getConversationHistory_after.
  reflexivity.
Qed.

Lemma ragQuery_returns W query language context s :
  exists r,
    outcome (ragQuery W query language context) s = Returns r /\
    Rag.language r = language.
Proof.
  destruct (ragQuery_run W query language context s) as [r [new [s' [Hr [Hl _]]]]].
  exists r. split; [unfold outcome; rewrite Hr; reflexivity | exact Hl].
Qed.

(** What [ragQuery] returns is of one of three kinds; it is the canned
    response when no call to the backend succeeds, the answer to the
    assembled prompt when the prompt can be built, the service is ready and
    every call succeeds, and never that answer when the prompt cannot be
    built. *)
Lemma answered_kinds W query language context s new r :
  answered W query language context s new r ->
  (exists content, grounded content r)
  \/ (exists content, retried content r)
  \/ canned query language r.
Proof.
  unfold answered. intros Hcase.
  destruct (negb (isReady s) || negb (llm s)); [right; right; apply Hcase|].
  cbv zeta in Hcase.
  destruct (enhancedPrompt W query language context (retrieved W s query context))
    as [prompt|e].
  - destruct (llm_invoke W _ prompt).
    + left. eexists. apply Hcase.
    + destruct Hcase as [_ Hcase].
      destruct (llm_invoke W _ _); [right; left; eexists; exact Hcase|].
      right. right. exact Hcase.
  - destruct Hcase as [_ Hcase].
    destruct (llm_invoke W _ _); [right; left; eexists; exact Hcase|].
    right. right. exact Hcase.
Qed.

Lemma answered_failing W query language context s new r :
  answered W query language context s new r ->
  (forall n prompt, In (n, prompt) new -> exists e, llm_invoke W n prompt = Throws e) ->
  canned query language r.
Proof.
  unfold answered. intros Hcase Hfail.
  destruct (negb (isReady s) || negb (llm s)); [apply Hcase|].
  cbv zeta in Hcase.
  destruct (enhancedPrompt W query language context (retrieved W s query context))
    as [prompt|e].
  - destruct (llm_invoke W _ prompt) as [content|e] eqn:E1.
    + destruct Hcase as [-> _].
      destruct (Hfail _ _ (or_introl eq_refl)) as [e He]. congruence.
    + destruct Hcase as [-> Hcase].
      destruct (llm_invoke W _ (basicPrompt query language)) as [content|e2] eqn:E2;
        [|exact Hcase].
      destruct (Hfail _ _ (or_introl eq_refl)) as [e' He]. congruence.
  - destruct Hcase as [-> Hcase].
    destruct (llm_invoke W _ (basicPrompt query language)) as [content|e2] eqn:E2;
      [|exact Hcase].
    destruct (Hfail _ _ (or_introl eq_refl)) as [e' He]. congruence.
Qed.



(** The whole of [processWithRAG]: the session entry is brought up to date,
    [ragQuery] answers, the user's turn and the assistant's turn are stored
    in that order, and the reply is assembled. *)
Lemma processWithRAG_run W options s :
  exists r,
    let sessionId := opt_sessionId options in
    let language := opt_language options in
    let s1 := after (updateSessionContext W sessionId language (newFiles options)) s in
    let s2 := after (ragQuery W (message options) language
                       (requestContext W s options)) s1 in
    let u := userTurn options (now W (tick s2)) in
    let s3 := after (storeConversation sessionId u) (interacted [] [] s2) in
    let a := assistantTurn options (Rag.text r) (now W (tick s3)) in
    let s4 := after (storeConversation sessionId a) (interacted [] [] s3) in
    outcome (ragQuery W (message options) language (requestContext W s options)) s1
      = Returns r /\
    processWithRAG W options s =
    (Returns
       (Answer
          {| Chat.text := Rag.text r;
             Chat.sentiment :=
               if analyzeSentimentFlag options && String.eqb language "en"
               then analyzeSentiment W (message options) language
               else "neutral";
             Chat.intent := detectIntent W (message options) language;
             Chat.sources := Rag.sources r;
             Chat.confidence :=
               if Qeq_bool (Rag.confidence r) 0 then (8 # 10)%Q
               else Rag.confidence r;
             Chat.language := language;
             Chat.shouldSpeak := true;
             Chat.sessionId := sessionId;
             Chat.fileCount :=
               length (Session.files
                         (updatedSession W s sessionId language (newFiles options)));
             Chat.timestamp := now W (tick s4) |}),
     interacted [] [] s4).
Proof.
  destruct (ragQuery_returns W (message options) (opt_language options)
              (requestContext W s options)
              (after (updateSessionContext W (opt_sessionId options)
                        (opt_language options) (newFiles options)) s))
    as [r [Hr _]].
  exists r. cbv zeta. split; [exact Hr|].
  unfold processWithRAG.
  apply try_catch_run.
  erewrite bind_run by apply getConversationHistory_run.
  erewrite bind_run
    by (rewrite run_pair, updateSessionContext_outcome; reflexivity).
  erewrite bind_run by (rewrite run_pair; unfold requestContext, historyText in Hr;
                        rewrite Hr; reflexivity).
  reflexivity.
Qed.

(** The reply of [processWithRAG] carries what [ragQuery] returned, and the
    calls to the backend are those of [ragQuery]. *)
Lemma processWithRAG_answered W options s :
  exists c new r,
    outcome (processWithRAG W options) s = Returns (Answer c) /\
    invocations (after (processWithRAG W options) s) = new ++ invocations s /\
    answered W (message options) (opt_language options)
      (requestContext W s options)
      (after (updateSessionContext W (opt_sessionId options)
                (opt_language options) (newFiles options)) s) new r /\
    Rag.language r = opt_language options /\
    Chat.text c = Rag.text r /\
    Chat.sources c = Rag.sources r /\
    Chat.confidence c =
      (if Qeq_bool (Rag.confidence r) 0 then (8 # 10)%Q else Rag.confidence r) /\
    Chat.language c = opt_language options.
Proof.
  destruct (processWithRAG_run W options s) as [r [Hr Hrun]]. cbv zeta in Hrun.
  set (s1 := after (updateSessionContext W (opt_sessionId options)
                      (opt_language options) (newFiles options)) s) in *.
  destruct (ragQuery_run W (message options) (opt_language options)
              (requestContext W s options) s1)
    as [r' [new [s2 [Hq [Hl [Hinv Hcase]]]]]].
  assert (r' = r) as ->.
  { unfold outcome in Hr. rewrite Hq in Hr. injection Hr as ->. reflexivity. }
  eexists. exists new, r.
  split; [unfold outcome; rewrite Hrun; reflexivity|].
  split.
  { assert (Hs2 : after (ragQuery W (message options) (opt_language options)
                            (requestContext W s options)) s1 = s2)
      by (unfold after; rewrite Hq; reflexivity).
    rewrite Hs2 in Hrun. unfold after at 1. rewrite Hrun. cbn [snd].
    transitivity (invocations s2); [reflexivity|].
    rewrite Hinv. unfold s1.
    rewrite (updateSessionContext_invocations W). reflexivity. }
  split; [exact Hcase|]. split; [exact Hl|]. repeat split.
Qed.

Lemma kinds_confidence query language r :
  (exists content, grounded content r)
  \/ (exists content, retried content r)
  \/ canned query language r ->
  (if Qeq_bool (Rag.confidence r) 0 then (8 # 10)%Q else Rag.confidence r)
  = Rag.confidence r.
Proof.
  intros [[content [_ [_ ->]]]|[[content [_ [_ ->]]]|[_ [_ ->]]]]; reflexivity.
Qed.

Lemma processWithRAG_wellFormed W options s :
  exists c,
    outcome (processWithRAG W options) s = Returns (Answer c) /\
    wellFormed (message options) (opt_language options) (Answer c).
Proof.
  destruct (processWithRAG_answered W options s)
    as [c [new [r [Hc [_ [Hcase [_ [Ht [Hs [Hq Hl]]]]]]]]]].
  exists c. split; [exact Hc|]. split; [exact Hl|].
  cbn [reply_sources reply_confidence reply_text].
  pose proof (answered_kinds _ _ _ _ _ _ _ Hcase) as Hkind.
  rewrite Ht, Hs, Hq, (kinds_confidence _ _ _ Hkind).
  destruct Hkind as [[content [_ [Hin Hconf]]]
                    |[[content [_ [Hsrc Hconf]]]
                     |[Htext [Hsrc Hconf]]]]; auto.
Qed.

(** [ragQuery] for a query that is not a string. *)
Lemma ragQuery_notString_run W rendering language s :
  exists r new s',
    ragQuery_notString W rendering language s = (Returns r, s') /\
    Rag.language r = language /\
    invocations s' = new ++ invocations s.
Proof.
  unfold ragQuery_notString. unfold mbind at 1, M_bind at 1, this.
  destruct (negb (isReady s) || negb (llm s)) eqn:Eoff.
  - eexists. exists []. eexists. split; [reflexivity|]. split; reflexivity.
  - apply orb_false_elim in Eoff as [_ Ellm]. apply negb_false_iff in Ellm.
    destruct (getBasicResponse_outcome W rendering language s Ellm)
      as [r [s' [Hrun [Hlang [Hinv _]]]]].
    exists r, [(tick s, basicPrompt rendering language)], s'.
    split; [exact Hrun|]. split; [exact Hlang | exact Hinv].
Qed.

(** C1, as stated, fails: the call to the backend with the assembled prompt
    times out, and the reply is not the canned one.  The service asks the
    backend again with a shorter prompt and returns that answer with
    confidence 0.8 and the source tag ollama_llm. *)
Lemma failed_inference_is_retried :
  exists enhanced c,
    prompts (after (processWithRAG slowWorld (ask "s1" "hello")) ready)
      = [basicPrompt "hello" "en"; enhanced] /\
    llm_invoke slowWorld 1 enhanced = Throws "timeout" /\
    outcome (processWithRAG slowWorld (ask "s1" "hello")) ready
      = Returns (Answer c) /\
    Chat.sources c <> ["fallback"] /\
    ~ (Chat.confidence c == 6 # 10)%Q /\
    Chat.text c <> cannedResponse "hello" "en".
Proof.
  eexists. eexists. split; [vm_compute; reflexivity|].
  split; [vm_compute; reflexivity|].
  split; [vm_compute; reflexivity|].
  split; [discriminate|]. split; [|discriminate].
  intros H. vm_compute in H. discriminate H.
Qed.

(** C1, amended, for a session id that is a string.  A language that is
    not a string, a message that no template literal can render and a
    [files] option that is null make [processWithRAG] throw before it
    enters its [try] block, when nothing has been done yet.  Otherwise it
    returns, and its reply is well-formed, whether the message is a string
    or not.  If every call that it makes to the inference backend fails,
    the call with the assembled prompt and the retry with the basic prompt
    alike, the reply is the canned response selected by the language, with
    confidence 0.6 and sources equal to the single tag fallback. *)
Theorem inference_failure_degrades_to_canned_response (W : World)
    (s : Service) (message language : Arg) (files : option (list File.t))
    (options : Options) :
  match language, message, files with
  | AString code, (AString text | NotAString text), Some _ =>
      exists r new,
        outcome (processWithRAG_any W message language files options) s
          = Returns r /\
        wellFormed text code r /\
        invocations (after (processWithRAG_any W message language files options) s)
          = new ++ invocations s /\
        ((forall n prompt,
            In (n, prompt) new -> exists e, llm_invoke W n prompt = Throws e) ->
         reply_text r = cannedResponse text code /\
         reply_confidence r = (6 # 10)%Q /\
         reply_sources r = ["fallback"])
  | _, _, _ =>
      exists error,
        processWithRAG_any W message language files options s = (Throws error, s)
  end.
Proof.
  destruct language as [code|shown|]; [|eexists; reflexivity..].
  destruct message as [text|shown|];
    destruct files as [files|]; try (eexists; reflexivity);
    cbn [processWithRAG_any].
  - set (options' := {| message := text; opt_language := code;
                        opt_sessionId := opt_sessionId options;
                        useRAG := useRAG options;
                        analyzeSentimentFlag := analyzeSentimentFlag options;
                        opt_files := files;
                        newFiles := newFiles options |}).
    destruct (processWithRAG_answered W options' s)
      as [c [new [r [Hc [Hinv [Hcase [_ [Ht [Hs [Hq Hl]]]]]]]]]].
    destruct (processWithRAG_wellFormed W options' s) as [c' [Hc' Hwf]].
    rewrite Hc in Hc'. injection Hc' as <-.
    exists (Answer c), new.
    split; [exact Hc|]. split; [exact Hwf|]. split; [exact Hinv|].
    intros Hfail. cbn [reply_sources reply_confidence reply_text].
    destruct (answered_failing _ _ _ _ _ _ _ Hcase Hfail) as [Htext [Hsrc Hconf]].
    rewrite Ht, Hs, Hq, Hconf. auto.
  - unfold try_catch, outcome, after.
    erewrite bind_run by apply getConversationHistory_run.
    erewrite bind_run
      by (rewrite run_pair, updateSessionContext_outcome; reflexivity).
    set (s1 := after (updateSessionContext W (opt_sessionId options) code
                        (newFiles options)) s).
    destruct (ragQuery_notString_run W shown code s1)
      as [r [new [s2 [Hrun [_ Hinv]]]]].
    erewrite bind_run by exact Hrun.
    eexists. exists new. cbn [fst snd throw mbind M_bind fallbackResponse].
    split; [reflexivity|]. split; [repeat split; auto|].
    split.
    { transitivity (invocations s2); [reflexivity|].
      rewrite Hinv. unfold s1.
      rewrite (updateSessionContext_invocations W). reflexivity. }
    intros _. repeat split.
Qed.

Lemma inference_failure_degrades_to_canned_response_witness :
  exists r,
    outcome (processWithRAG_any downWorld (AString "hello") (AString "en")
               (Some []) (ask "s1" "hello")) ready = Returns r /\
    reply_text r = cannedResponse "hello" "en" /\
    reply_confidence r = (6 # 10)%Q /\
    reply_sources r = ["fallback"].
Proof.
  destruct (inference_failure_degrades_to_canned_response downWorld ready
              (AString "hello") (AString "en") (Some []) (ask "s1" "hello"))
    as [r [new [Hr [_ [_ Hdown]]]]].
  exists r. split; [exact Hr|]. apply Hdown.
  intros n prompt _. exists "timeout". reflexivity.
Defined.




(** ** The prompts sent to the backend *)

Lemma append_assoc (a b c : string) : (a +:+ b) +:+ c = a +:+ b +:+ c.
Proof.
  induction a as [|x a IH]; [reflexivity|].
  change (String x ((a +:+ b) +:+ c) = String x (a +:+ b +:+ c)).
  f_equal. exact IH.
Qed.

Section Prompts.

Variable W : World.

Lemma retrieve_prompts query context s :
  prompts (after (retrieve W query context) s) = prompts s.
Proof.
  rewrite retrieve_after.
  destruct (vectorStore s && chromaInitialized s); reflexivity.
Qed.

Lemma updateSessionContext_prompts sessionId language files :
  keeps prompts (updateSessionContext W sessionId language files).
Proof.
  intros s.
  unfold updateSessionContext, after, mbind, M_bind, this, update, newDate,
    mret, M_ret.
  destruct (sessionContexts s !! sessionId) as [session|];
    destruct files; reflexivity.
Qed.

(** The prompts in the log are the prompts of the calls, in the same
    order: [ragQuery] adds to the two logs together. *)
Lemma ragQuery_sent query language context s :
  exists new,
    invocations (after (ragQuery W query language context) s) =
      new ++ invocations s /\
    prompts (after (ragQuery W query language context) s) =
      map snd new ++ prompts s.
Proof.
  set (P := fun st : Service =>
              exists new,
                invocations st = new ++ invocations s /\
                prompts st = map snd new ++ prompts s).
  assert (blind P) as HP.
  { intros ps qs st [new [Hi Hp]]. exists (map (pair (tick st)) ps ++ new).
    cbn [invocations prompts interacted]. rewrite Hi, Hp.
    rewrite map_app, map_map, !app_assoc. cbn [snd]. rewrite map_id.
    split; reflexivity. }
  apply (ragQuery_frame W P query language context HP s).
  exists []. split; reflexivity.
Qed.

Lemma ragQuery_prompts query language context s new r s' :
  ragQuery W query language context s = (Returns r, s') ->
  invocations s' = new ++ invocations s ->
  prompts s' = map snd new ++ prompts s.
Proof.
  intros Hrun Hinv.
  destruct (ragQuery_sent query language context s) as [new' [Hi Hp]].
  unfold after in Hi, Hp. rewrite Hrun in Hi, Hp. cbn [snd] in Hi, Hp.
  rewrite Hinv in Hi. apply app_inv_tail in Hi. subst new'. exact Hp.
Qed.

Lemma processWithRAG_prompts options s :
  prompts (after (processWithRAG W options) s) =
  prompts
    (after (ragQuery W (message options) (opt_language options)
              (requestContext W s options))
       (after (updateSessionContext W (opt_sessionId options)
                 (opt_language options) (newFiles options)) s)).
Proof.
  set (X := prompts (after (ragQuery _ _ _ _) _)).
  unfold processWithRAG.
  apply (try_catch_establishes (fun st => prompts st = X)).
  2:{ intros e. apply preserves_bind; [|intros; apply preserves_ret].
      unfold fallbackResponse. apply preserves_bind;
        [intros st Hst; exact Hst | intros; apply preserves_ret]. }
  rewrite after_bind, getConversationHistory_outcome, getConversationHistory_after.
  cbn beta iota.
  rewrite after_bind, updateSessionContext_outcome. cbn beta iota.
  apply (bind_establishes (fun st => prompts st = X)); [reflexivity|].
  intros ragResult. cbv zeta.
  apply preserves_bind; [intros st Hst; exact Hst | intros].
  apply preserves_bind; [intros st Hst; exact Hst | intros].
  apply preserves_bind; [intros st Hst; exact Hst | intros].
  apply preserves_bind; [intros st Hst; exact Hst | intros].
  apply preserves_bind; [intros st Hst; exact Hst | intros].
  apply preserves_ret.
Qed.

End Prompts.

Lemma promptHistory_absent_log context :
  history context = Some "No previous conversation in this session." ->
  promptHistory context =
  Js.nl +:+ Js.nl +:+ "PREVIOUS CONVERSATION:" +:+ Js.nl +:+
  "No previous conversation in this session.".
Proof.
  intros H. unfold promptHistory. rewrite H.
  replace (Js.nonEmpty "No previous conversation in this session."
           && negb (String.eqb (Js.trim "No previous conversation in this session.")
                      "No previous conversation"))
    with true by (vm_compute; reflexivity).
  reflexivity.
Qed.

(** C5: the code misses what the claim says.  For a session without stored
    turns on a ready service, the prompt sent to the backend contains the
    block PREVIOUS CONVERSATION followed by the sentence that
    [getConversationHistory] returns for an absent log.  [ragQuery] compares
    the history with the text [No previous conversation], which
    [getConversationHistory] never returns.  This holds whenever the prompt
    is assembled, that is for every language that is no property name of
    [Object.prototype]; for such a name the assembly throws and the basic
    prompt, which has no place for the history, is the only one sent. *)
Theorem history_block_sent_for_session_without_turns (W : World) (s : Service)
    (options : Options) :
  isReady s = true -> llm s = true ->
  conversationHistory s !! opt_sessionId options = None ->
  exists docs,
    match enhancedPrompt W (message options) (opt_language options)
            (requestContext W s options) docs with
    | Returns prompt =>
        Js.inherited (opt_language options) = false /\
        exists more before rest,
          prompts (after (processWithRAG W options) s) =
            more ++ prompt :: prompts s /\
          prompt =
            before +:+
            (Js.nl +:+ Js.nl +:+ "PREVIOUS CONVERSATION:" +:+ Js.nl +:+
             "No previous conversation in this session.") +:+
            rest
    | Throws _ =>
        Js.inherited (opt_language options) = true /\
        prompts (after (processWithRAG W options) s) =
          basicPrompt (message options) (opt_language options) :: prompts s
    end.
Proof.
  intros Hr Hl Hnone.
  set (s1 := after (updateSessionContext W (opt_sessionId options)
                      (opt_language options) (newFiles options)) s).
  destruct (updateSessionContext_ready W (opt_sessionId options)
              (opt_language options) (newFiles options) s) as [Er El].
  fold s1 in Er, El.
  destruct (ragQuery_run W (message options) (opt_language options)
              (requestContext W s options) s1)
    as [r [new [s2 [Hq [_ [Hinv Hcase]]]]]].
  pose proof (ragQuery_prompts W _ _ _ _ _ _ _ Hq Hinv) as Hp.
  replace (prompts s1) with (prompts s) in Hp
    by (symmetry; apply updateSessionContext_prompts).
  assert (Hsent : prompts (after (processWithRAG W options) s) =
                  map snd new ++ prompts s).
  { rewrite processWithRAG_prompts. fold s1. unfold after. rewrite Hq. exact Hp. }
  rewrite Hsent. clear Hsent Hp Hinv Hq.
  unfold answered in Hcase. rewrite Er, El, Hr, Hl in Hcase.
  cbn [negb orb] in Hcase. cbv zeta in Hcase.
  exists (retrieved W s1 (message options) (requestContext W s options)).
  destruct (Js.inherited (opt_language options)) eqn:Hin.
  - destruct (enhancedPrompt_inherited W (message options) (opt_language options)
                (requestContext W s options)
                (retrieved W s1 (message options) (requestContext W s options)) Hin)
      as [e He].
    rewrite He in Hcase |- *. destruct Hcase as [-> _].
    split; reflexivity.
  - destruct (configured_language _ Hin) as [config Hconfig].
    unfold enhancedPrompt in Hcase |- *. rewrite Hconfig in Hcase |- *.
    cbn [configInstructions] in Hcase |- *.
    split; [reflexivity|].
    match type of Hcase with
    | match llm_invoke W ?t ?p with _ => _ end =>
        assert (exists more, map snd new = more ++ [p]) as [more Hm]
    end.
    { destruct (llm_invoke W _ _);
        destruct Hcase as [-> _]; [exists [] | eexists [_]]; reflexivity. }
    rewrite Hm. exists more.
    exists (promptContext W (opt_language options)
              (retrieved W s1 (message options) (requestContext W s options)) +:+
            promptFiles (requestContext W s options) +:+
            promptFileCount (requestContext W s options)).
    exists (promptQuery (message options) +:+
            promptInstructions W (instructions config) (message options)
              (opt_language options) (requestContext W s options) +:+
            promptGuidelines W (opt_language options)).
    split; [rewrite <- app_assoc; reflexivity|].
    rewrite (promptHistory_absent_log (requestContext W s options))
      by (unfold requestContext, historyText; rewrite Hnone; reflexivity).
    rewrite !append_assoc. reflexivity.
Qed.

Lemma history_block_sent_for_session_without_turns_witness :
  conversationHistory ready !! "s1" = None /\
  exists docs prompt more before rest,
    enhancedPrompt calmWorld "hello" "en"
      (requestContext calmWorld ready (ask "s1" "hello")) docs = Returns prompt /\
    prompts (after (processWithRAG calmWorld (ask "s1" "hello")) ready) =
      more ++ prompt :: prompts ready /\
    prompt =
      before +:+
      (Js.nl +:+ Js.nl +:+ "PREVIOUS CONVERSATION:" +:+ Js.nl +:+
       "No previous conversation in this session.") +:+
      rest.
Proof.
  split; [reflexivity|].
  destruct (history_block_sent_for_session_without_turns calmWorld ready
              (ask "s1" "hello") eq_refl eq_refl eq_refl) as [docs Hsent].
  exists docs.
  destruct (enhancedPrompt calmWorld (message (ask "s1" "hello"))
              (opt_language (ask "s1" "hello"))
              (requestContext calmWorld ready (ask "s1" "hello")) docs)
    as [prompt|e] eqn:E.
  - destruct Hsent as [_ [more [before [rest [Hp Hb]]]]].
    exists prompt, more, before, rest. split; [exact E|]. split; assumption.
  - destruct Hsent as [Hin _]. discriminate Hin.
Defined.

(** ** Methods that do not look at the conversation logs *)

Section Oblivious.

Context {A B : Type}.

Lemma oblivious_ret (a : A) : oblivious (mret a).
Proof. intros h s. reflexivity. Qed.

Lemma oblivious_bind (m : M A) (f : A -> M B) :
  oblivious m -> (forall a, oblivious (f a)) -> oblivious (m ≫= f).
Proof.
  intros Hm Hf h s. unfold mbind, M_bind, outcome, after.
  rewrite Hm. unfold outcome, after.
  destruct (m s) as [[a|e] s']; cbn [fst snd]; [|reflexivity].
  rewrite Hf. reflexivity.
Qed.

Lemma oblivious_try_catch (m : M A) (handler : string -> M A) :
  oblivious m -> (forall e, oblivious (handler e)) ->
  oblivious (try_catch m handler).
Proof.
  intros Hm Hh h s. unfold try_catch, outcome, after.
  rewrite Hm. unfold outcome, after.
  destruct (m s) as [[a|e] s']; cbn [fst snd]; [reflexivity|].
  rewrite Hh. reflexivity.
Qed.

Lemma oblivious_this_bind (f : Service -> M B) :
  (forall h st, f (with_conversationHistory h st) = f st) ->
  (forall st, oblivious (f st)) ->
  oblivious (this ≫= f).
Proof.
  intros Hf Hob h s. unfold mbind, M_bind, this.
  rewrite Hf. apply Hob.
Qed.

End Oblivious.

Section ObliviousMethods.

Variable W : World.

Lemma fallbackResponse_oblivious query language :
  oblivious (fallbackResponse W query language).
Proof. intros h s. reflexivity. Qed.

Lemma getBasicResponse_oblivious query language :
  oblivious (getBasicResponse W query language).
Proof.
  unfold getBasicResponse.
  apply oblivious_this_bind; [reflexivity | intros st].
  apply oblivious_bind.
  - destruct (llm st); [|apply oblivious_ret].
    apply oblivious_try_catch; [|intros; apply oblivious_ret].
    apply oblivious_bind; [intros h s; reflexivity | intros content].
    apply oblivious_bind; [intros h s; reflexivity | intros ts].
    apply oblivious_ret.
  - intros [r|]; [apply oblivious_ret | apply fallbackResponse_oblivious].
Qed.

Lemma retrieve_oblivious query context :
  oblivious (retrieve W query context).
Proof.
  unfold retrieve.
  apply oblivious_this_bind; [reflexivity | intros st].
  apply oblivious_bind.
  - destruct (vectorStore st && chromaInitialized st); [|apply oblivious_ret].
    apply oblivious_try_catch; [|intros; apply oblivious_ret].
    apply oblivious_bind; [intros h s; reflexivity | intros chromaDocs].
    apply oblivious_ret.
  - intros [docs srcs].
    destruct (ctx_sessionId context) as [sid|]; [|apply oblivious_ret].
    destruct (sessionContexts st !! sid) as [sc|]; [|apply oblivious_ret].
    destruct (Js.nonEmpty sid); [|apply oblivious_ret].
    destruct (0 <? length (Session.files sc)); apply oblivious_ret.
Qed.

Lemma ragQuery_oblivious query language context :
  oblivious (ragQuery W query language context).
Proof.
  unfold ragQuery.
  apply oblivious_this_bind; [reflexivity | intros st].
  destruct (negb (isReady st) || negb (llm st));
    [apply fallbackResponse_oblivious|].
  apply oblivious_try_catch; [|intros; apply getBasicResponse_oblivious].
  apply oblivious_bind; [apply retrieve_oblivious | intros [docs srcs]].
  apply oblivious_bind;
    [intros h s; unfold evaluate; destruct (enhancedPrompt _ _ _ _ _); reflexivity
    | intros prompt].
  apply oblivious_bind; [intros h s; reflexivity | intros content].
  apply oblivious_bind; [intros h s; reflexivity | intros ts].
  apply oblivious_ret.
Qed.

Lemma updateSessionContext_oblivious sessionId language files :
  oblivious (updateSessionContext W sessionId language files).
Proof.
  unfold updateSessionContext.
  apply oblivious_this_bind; [reflexivity | intros st].
  apply oblivious_bind.
  - destruct (sessionContexts st !! sessionId) as [session|];
      [apply oblivious_ret|].
    apply oblivious_bind; [intros h s; reflexivity | intros ts].
    apply oblivious_ret.
  - intros session. cbv zeta. apply oblivious_bind.
    + destruct (0 <? length files); [|apply oblivious_ret].
      apply oblivious_bind; [intros h s; reflexivity | intros ts].
      apply oblivious_ret.
    + intros session'.
      apply oblivious_bind; [intros h s; reflexivity | intros _].
      apply oblivious_ret.
Qed.

End ObliviousMethods.

(** C10.  The history text handed to the prompt is the rendering of the
    last ten stored turns of the session at most, which are the most recent
    ones; and two services that differ only in the turns before those
    send the same prompts to the backend. *)
Theorem prompt_history_is_last_ten_turns (W : World) (s : Service)
    (options : Options) (log : list Msg.t) :
  conversationHistory s !! opt_sessionId options = Some log ->
  outcome (getConversationHistory W (opt_sessionId options) 10) s =
    Returns (Js.join Js.nl (map (renderTurn W) (Js.sliceLast 10 log))) /\
  history (requestContext W s options) =
    Some (Js.join Js.nl (map (renderTurn W) (Js.sliceLast 10 log))) /\
  length (Js.sliceLast 10 log) <= 10 /\
  (exists older, log = older ++ Js.sliceLast 10 log) /\
  (forall log',
     Js.sliceLast 10 log' = Js.sliceLast 10 log ->
     prompts
       (after (processWithRAG W options)
          (with_conversationHistory
             (<[opt_sessionId options := log']> (conversationHistory s)) s)) =
     prompts (after (processWithRAG W options) s)).
Proof.
  intros Hlog. split; [|split; [|split; [|split]]].
  - rewrite getConversationHistory_outcome, Hlog. reflexivity.
  - unfold requestContext, historyText. cbn [history]. rewrite Hlog. reflexivity.
  - apply sliceLast_length. lia.
  - exists (take (length log - 10) log). unfold Js.sliceLast. cbn [Nat.eqb].
    symmetry. apply take_drop.
  - intros log' Hsame.
    set (h' := <[opt_sessionId options := log']> (conversationHistory s)).
    rewrite !processWithRAG_prompts.
    assert (requestContext W (with_conversationHistory h' s) options =
            requestContext W s options) as ->.
    { unfold requestContext, historyText.
      change (conversationHistory (with_conversationHistory h' s)) with h'.
      unfold h'. rewrite lookup_insert_eq, Hlog, Hsame. reflexivity. }
    unfold after at 2.
    rewrite updateSessionContext_oblivious. cbn [snd].
    unfold after at 1. rewrite ragQuery_oblivious. reflexivity.
Qed.

Lemma prompt_history_is_last_ten_turns_witness :
  outcome (getConversationHistory calmWorld "s1" 10) chatty =
    Returns (Js.join Js.nl (map (renderTurn calmWorld) (map turn (seq 2 10)))) /\
  prompts
    (after (processWithRAG calmWorld (ask "s1" "hello"))
       (with_conversationHistory
          (<["s1" := turn 100 :: turn 101 :: map turn (seq 2 10)]>
             (conversationHistory chatty)) chatty)) =
  prompts (after (processWithRAG calmWorld (ask "s1" "hello")) chatty).
Proof.
  assert (conversationHistory chatty !! opt_sessionId (ask "s1" "hello") =
          Some (map turn (seq 0 12))) as Hlog by (vm_compute; reflexivity).
  destruct (prompt_history_is_last_ten_turns calmWorld chatty (ask "s1" "hello")
              (map turn (seq 0 12)) Hlog) as [Htext [_ [_ [_ Hsame]]]].
  split.
  - exact Htext.
  - apply (Hsame (turn 100 :: turn 101 :: map turn (seq 2 10))).
    vm_compute. reflexivity.
Defined.

(** * Further properties of the service *)


(** ** What a request leaves behind *)

Lemma capped_length log : length (capped log) = Nat.min 50 (length log).
Proof.
  unfold capped, Js.sliceLast. cbn [Nat.eqb].
  destruct (Nat.ltb_spec 50 (length log)); [rewrite length_drop|]; lia.
Qed.

Lemma capped_twice (log : list Msg.t) u a :
  capped (capped (log ++ [u]) ++ [a]) = capped (log ++ [u; a]).
Proof.
  assert (length (log ++ [u]) = length log + 1) as L1
    by (rewrite length_app; reflexivity).
  assert (length (log ++ [u; a]) = length log + 2) as L2
    by (rewrite length_app; reflexivity).
  assert ((log ++ [u]) ++ [a] = log ++ [u; a]) as E
    by (rewrite <- app_assoc; reflexivity).
  unfold capped at 2. unfold Js.sliceLast. cbn [Nat.eqb]. rewrite L1.
  destruct (Nat.ltb_spec 50 (length log + 1)) as [Hlong|Hshort].
  - unfold capped, Js.sliceLast. cbn [Nat.eqb].
    rewrite length_app, length_drop, L1, L2. cbn [length].
    destruct (Nat.ltb_spec 50 (length log + 1 - (length log + 1 - 50) + 1));
      [|lia].
    destruct (Nat.ltb_spec 50 (length log + 2)); [|lia].
    rewrite <- drop_app_le by lia.
    rewrite drop_drop, E. f_equal. lia.
  - rewrite E. reflexivity.
Qed.

Lemma updateSessionContext_sessions W sessionId language files s :
  sessionContexts (after (updateSessionContext W sessionId language files) s) =
  <[sessionId := updatedSession W s sessionId language files]> (sessionContexts s).
Proof.
  unfold updateSessionContext, updatedSession, appended, after, mbind, M_bind,
    this, update, newDate, mret, M_ret.
  destruct (sessionContexts s !! sessionId) as [session|];
    destruct files; reflexivity.
Qed.

Lemma storeConversation_capped sessionId message s :
  conversationHistory (after (storeConversation sessionId message) s) =
  <[sessionId := capped (default [] (conversationHistory s !! sessionId)
                           ++ [message])]> (conversationHistory s).
Proof. reflexivity. Qed.

Lemma processWithRAG_history W options s :
  exists r tu ta,
    outcome (processWithRAG W options) s = Returns r /\
    conversationHistory (after (processWithRAG W options) s) =
    <[opt_sessionId options :=
        capped (default [] (conversationHistory s !! opt_sessionId options)
                  ++ [userTurn options tu;
                      assistantTurn options (reply_text r) ta])]>
      (conversationHistory s).
Proof.
  destruct (processWithRAG_run W options s) as [r [_ Hrun]]. cbv zeta in Hrun.
  set (s2 := after (ragQuery W _ _ _) _) in Hrun.
  set (u := userTurn options _) in Hrun.
  set (s3 := after (storeConversation _ u) _) in Hrun.
  set (a := assistantTurn options _ _) in Hrun.
  set (s4 := after (storeConversation _ a) _) in Hrun.
  assert (conversationHistory s2 = conversationHistory s) as H2
    by (unfold s2; rewrite ragQuery_history; apply updateSessionContext_history).
  assert (conversationHistory s3 =
          <[opt_sessionId options :=
              capped (default [] (conversationHistory s !! opt_sessionId options)
                        ++ [u])]> (conversationHistory s)) as H3.
  { unfold s3. rewrite storeConversation_capped.
    change (conversationHistory (interacted [] [] s2))
      with (conversationHistory s2).
    rewrite H2. reflexivity. }
  assert (conversationHistory s4 =
          <[opt_sessionId options :=
              capped (default [] (conversationHistory s !! opt_sessionId options)
                        ++ [u; a])]> (conversationHistory s)) as H4.
  { unfold s4. rewrite storeConversation_capped.
    change (conversationHistory (interacted [] [] s3))
      with (conversationHistory s3).
    rewrite H3, lookup_insert_eq, insert_insert_eq.
    change (default [] (Some ?x)) with x. rewrite capped_twice. reflexivity. }
  eexists. exists (Msg.timestamp u), (Msg.timestamp a).
  unfold outcome, after. rewrite Hrun. split; [reflexivity|].
  exact H4.
Qed.

(** X1.  A request stores exactly two turns in the log of its session, the
    user's message and then the assistant's reply text, and cuts the log to
    its last 50 entries; the logs of the other sessions are untouched. *)
Theorem request_stores_question_then_answer (W : World) (s : Service)
    (options : Options) :
  exists r tu ta,
    outcome (processWithRAG W options) s = Returns r /\
    conversationHistory (after (processWithRAG W options) s)
      !! opt_sessionId options =
    Some (capped (default [] (conversationHistory s !! opt_sessionId options)
                    ++ [userTurn options tu;
                        assistantTurn options (reply_text r) ta])) /\
    forall other,
      other <> opt_sessionId options ->
      conversationHistory (after (processWithRAG W options) s) !! other =
      conversationHistory s !! other.
Proof.
  destruct (processWithRAG_history W options s) as [r [tu [ta [Hr Hh]]]].
  exists r, tu, ta. split; [exact Hr|]. rewrite Hh. split.
  - apply lookup_insert_eq.
  - intros other Hne. apply lookup_insert_ne. congruence.
Qed.

Lemma request_stores_question_then_answer_witness :
  conversationHistory (after (processWithRAG calmWorld (ask "s2" "hello")) greeted)
    !! "s1" = conversationHistory greeted !! "s1".
Proof.
  destruct (request_stores_question_then_answer calmWorld greeted (ask "s2" "hello"))
    as [r [tu [ta [_ [_ Hother]]]]].
  apply Hother. intros E. vm_compute in E. discriminate E.
Defined.

(** X2.  After a request, inspecting its session finds it, whether or not
    it was registered before: the file count is the former count plus the
    number of new files, the message count is the former count plus two,
    capped at 50, and the language is the one requested (en when that is
    the empty string). *)
Theorem session_is_registered_by_request (W : World) (s : Service)
    (options : Options) :
  exists info,
    outcome (getSessionInfo W (opt_sessionId options))
      (after (processWithRAG W options) s) = Returns info /\
    exists_ info = true /\
    info_fileCount info =
      length (match sessionContexts s !! opt_sessionId options with
              | Some session => Session.files session
              | None => []
              end) + length (newFiles options) /\
    info_messageCount info =
      Nat.min 50
        (length (default [] (conversationHistory s !! opt_sessionId options)) + 2) /\
    info_language info =
      (if Js.nonEmpty (opt_language options) then opt_language options else "en").
Proof.
  destruct (processWithRAG_history W options s) as [r [tu [ta [_ Hh]]]].
  pose proof (processWithRAG_sessions W options s) as Hs.
  rewrite updateSessionContext_sessions in Hs.
  eexists. split.
  - unfold getSessionInfo, outcome, mbind, M_bind, this.
    rewrite Hs, lookup_insert_eq. cbn. reflexivity.
  - cbn [exists_ info_fileCount info_messageCount info_language].
    split; [reflexivity|]. split; [|split].
    + unfold updatedSession, appended.
      destruct (sessionContexts s !! opt_sessionId options) as [session|];
        destruct (newFiles options);
        cbn [Nat.ltb Nat.leb length Session.files app]; rewrite ?length_app;
        cbn [length]; lia.
    + rewrite Hh, lookup_insert_eq.
      change (default [] (Some ?x)) with x.
      rewrite capped_length, length_app. cbn [length]. reflexivity.
    + unfold updatedSession, appended.
      destruct (sessionContexts s !! opt_sessionId options) as [session|];
        destruct (newFiles options); reflexivity.
Qed.

(** X3.  The sentiment of a reply is computed only when it is asked for and
    the language is en; in every other case, and when the analyser fails,
    it is the word neutral.  When computed it is positive above 0.2,
    negative below -0.2 and neutral in between. *)
Theorem sentiment_of_reply (W : World) (s : Service) (options : Options) :
  exists c,
    outcome (processWithRAG W options) s = Returns (Answer c) /\
    (opt_language options <> "en" -> Chat.sentiment c = "neutral") /\
    (analyzeSentimentFlag options = false -> Chat.sentiment c = "neutral") /\
    (opt_language options = "en" -> analyzeSentimentFlag options = true ->
     (forall e, getSentiment W (message options) = Throws e ->
                Chat.sentiment c = "neutral") /\
     (forall score, getSentiment W (message options) = Returns score ->
        ((2 # 10 < score)%Q -> Chat.sentiment c = "positive") /\
        ((score < - (2 # 10))%Q -> Chat.sentiment c = "negative") /\
        ((- (2 # 10) <= score)%Q -> (score <= 2 # 10)%Q ->
         Chat.sentiment c = "neutral"))).
Proof.
  destruct (processWithRAG_run W options s) as [r [_ Hrun]]. cbv zeta in Hrun.
  eexists. unfold outcome. rewrite Hrun. split; [reflexivity|].
  cbn [Chat.sentiment]. split; [|split].
  - intros Hne. apply String.eqb_neq in Hne. rewrite Hne, andb_false_r.
    reflexivity.
  - intros ->. reflexivity.
  - intros -> ->. cbn [andb String.eqb Ascii.eqb Bool.eqb].
    unfold analyzeSentiment. cbn [negb String.eqb Ascii.eqb Bool.eqb].
    split.
    + intros e ->. reflexivity.
    + intros score ->. split; [|split].
      * intros Hpos.
        destruct (Qle_bool score (2 # 10)) eqn:E; [|reflexivity].
        apply Qle_bool_iff in E. apply Qlt_not_le in Hpos. contradiction.
      * intros Hneg.
        assert (Qle_bool score (2 # 10) = true) as ->.
        { apply Qle_bool_iff. apply Qlt_le_weak.
          apply (Qlt_trans _ _ _ Hneg). reflexivity. }
        cbn [negb].
        destruct (Qle_bool (- 2 # 10) score) eqn:E; [|reflexivity].
        apply Qle_bool_iff in E. apply Qlt_not_le in Hneg. contradiction.
      * intros Hlo Hhi.
        apply Qle_bool_iff in Hhi. rewrite Hhi. cbn [negb].
        change (- (2 # 10))%Q with (- 2 # 10)%Q in Hlo.
        apply Qle_bool_iff in Hlo. rewrite Hlo. reflexivity.
Qed.

Lemma sentiment_of_reply_witness :
  exists c,
    outcome (processWithRAG cheerfulWorld (ask "s1" "what a lovely day")) ready
      = Returns (Answer c) /\
    Chat.sentiment c = "positive".
Proof.
  destruct (sentiment_of_reply cheerfulWorld ready (ask "s1" "what a lovely day"))
    as [c [Hc [_ [_ Hen]]]].
  exists c. split; [exact Hc|].
  destruct (Hen eq_refl eq_refl) as [_ Hscore].
  destruct (Hscore (1 # 2)%Q eq_refl) as [Hpos _].
  apply Hpos. reflexivity.
Defined.

(** X4.  Clearing a session removes its entry and its conversation log and
    nothing else: the other sessions and the knowledge store are as before.
    Afterwards inspection does not find the session and its history reads
    as that of a session never seen. *)
Theorem clearing_a_session (W : World) (s : Service) (sessionId : string) :
  sessionContexts (after (clearSession W sessionId) s) !! sessionId = None /\
  conversationHistory (after (clearSession W sessionId) s) !! sessionId = None /\
  (forall other,
     other <> sessionId ->
     sessionContexts (after (clearSession W sessionId) s) !! other
       = sessionContexts s !! other /\
     conversationHistory (after (clearSession W sessionId) s) !! other
       = conversationHistory s !! other) /\
  localKnowledge (after (clearSession W sessionId) s) = localKnowledge s /\
  outcome (getSessionInfo W sessionId) (after (clearSession W sessionId) s)
    = Returns (NotFound "Session not found") /\
  outcome (getConversationHistory W sessionId 10) (after (clearSession W sessionId) s)
    = Returns "No previous conversation in this session.".
Proof.
  assert (sessionContexts (after (clearSession W sessionId) s) =
          delete sessionId (sessionContexts s)) as Hs by reflexivity.
  assert (conversationHistory (after (clearSession W sessionId) s) =
          delete sessionId (conversationHistory s)) as Hh by reflexivity.
  split; [rewrite Hs; apply lookup_delete_eq|].
  split; [rewrite Hh; apply lookup_delete_eq|].
  split.
  { intros other Hne. rewrite Hs, Hh.
    split; apply lookup_delete_ne; congruence. }
  split; [reflexivity|]. split.
  - unfold getSessionInfo, outcome, mbind, M_bind, this.
    rewrite Hs, lookup_delete_eq. reflexivity.
  - rewrite getConversationHistory_outcome, Hh, lookup_delete_eq. reflexivity.
Qed.

Lemma clearing_a_session_witness :
  sessionContexts (after (clearSession calmWorld "s2") greeted) !! "s1"
    = sessionContexts greeted !! "s1" /\
  conversationHistory (after (clearSession calmWorld "s2") greeted) !! "s1"
    = conversationHistory greeted !! "s1".
Proof.
  destruct (clearing_a_session calmWorld greeted "s2") as [_ [_ [Hother _]]].
  apply Hother. discriminate.
Defined.

(** ** The knowledge store *)

Lemma updateSessionContext_knowledge W sessionId language files :
  keeps localKnowledge (updateSessionContext W sessionId language files).
Proof.
  intros s.
  unfold updateSessionContext, after, mbind, M_bind, this, update, newDate,
    mret, M_ret.
  destruct (sessionContexts s !! sessionId) as [session|];
    destruct files; reflexivity.
Qed.

Lemma processWithRAG_total W options s :
  exists reply s', processWithRAG W options s = (Returns (Answer reply), s').
Proof.
  destruct (processWithRAG_run W options s) as [r [_ Hrun]].
  cbv zeta in Hrun. eexists. eexists. exact Hrun.
Qed.

Lemma processWithRAG_knowledge W options :
  keeps localKnowledge (processWithRAG W options).
Proof.
  intros s. destruct (processWithRAG_run W options s) as [r [_ Hrun]].
  cbv zeta in Hrun. unfold after at 1. rewrite Hrun. cbn [snd].
  change (localKnowledge (interacted [] [] ?x)) with (localKnowledge x).
  rewrite storeConversation_knowledge.
  change (localKnowledge (interacted [] [] ?x)) with (localKnowledge x).
  rewrite storeConversation_knowledge.
  change (localKnowledge (interacted [] [] ?x)) with (localKnowledge x).
  rewrite ragQuery_knowledge. apply updateSessionContext_knowledge.
Qed.

Lemma run_knowledge W c s :
  c <> CallInitialize ->
  localKnowledge s `prefix_of` localKnowledge (run W c s) /\
  ((forall text source metadata, c <> CallAdd text source metadata) ->
   localKnowledge (run W c s) = localKnowledge s).
Proof.
  intros Hc. destruct c; cbn [run]; [congruence| | | | | | |].
  - rewrite processWithRAG_knowledge. split; [reflexivity | auto].
  - rewrite ragQuery_knowledge. split; [reflexivity | auto].
  - rewrite storeConversation_knowledge. split; [reflexivity | auto].
  - rewrite getConversationHistory_after. split; [reflexivity | auto].
  - rewrite addToKnowledgeBase_knowledge. split.
    + apply prefix_app_r. reflexivity.
    + intros H. destruct (H text source metadata). reflexivity.
  - split; [reflexivity | auto].
  - assert (localKnowledge (after (getSessionInfo W sessionId) s) = localKnowledge s)
      as ->.
    { unfold getSessionInfo, after, mbind, M_bind, this.
      destruct (sessionContexts s !! sessionId); reflexivity. }
    split; [reflexivity | auto].
Qed.

Lemma initialize_knowledge W s :
  localKnowledge (after (initialize W) s) = systemKnowledge.
Proof.
  unfold initialize, initializeChromaDB, initializeLocalStorage.
  destruct (chromaProbe W); reflexivity.
Qed.

(** X5.  The knowledge store is append-only between two initialisations:
    whatever else the transport layer calls, the documents present before
    are still there, in their places, at the head of the store.  Only
    ingestion adds to it; answering a request, with or without new files,
    and clearing a session leave it as it is.  [initialize] itself replaces
    the store by the five system documents, dropping what was ingested
    before. *)
Theorem knowledge_store_only_grows (W : World) (calls : list Call) (s : Service) :
  localKnowledge (run W CallInitialize s) = systemKnowledge /\
  ((forall c, In c calls -> c <> CallInitialize) ->
   localKnowledge s `prefix_of` localKnowledge (runAll W calls s) /\
   ((forall c, In c calls ->
       forall text source metadata, c <> CallAdd text source metadata) ->
    localKnowledge (runAll W calls s) = localKnowledge s)).
Proof.
  split; [apply initialize_knowledge|].
  revert s. induction calls as [|c calls IH]; intros s Hinit.
  - split; [reflexivity | intros _; reflexivity].
  - cbn [runAll fold_left]. fold (runAll W calls (run W c s)).
    destruct (IH (run W c s)) as [Hp He];
      [intros c' Hc'; apply Hinit; right; exact Hc'|].
    destruct (run_knowledge W c s) as [Hp1 He1];
      [apply Hinit; left; reflexivity|].
    split.
    + etrans; eassumption.
    + intros Hno. rewrite He, He1.
      * reflexivity.
      * apply Hno. left. reflexivity.
      * intros c' Hc'. apply Hno. right. exact Hc'.
Qed.

Lemma knowledge_store_only_grows_witness :
  localKnowledge
    (runAll calmWorld
       [CallProcess (upload "s1" "what was the total" [report]);
        CallClear "s1"] ready) = localKnowledge ready.
Proof.
  apply (proj2 (knowledge_store_only_grows calmWorld
                  [CallProcess (upload "s1" "what was the total" [report]);
                   CallClear "s1"] ready)).
  - intros c [<-|[<-|[]]]; discriminate.
  - intros c [<-|[<-|[]]]; discriminate.
Defined.

Lemma addToKnowledgeBase_outcome W text source metadata s :
  outcome (addToKnowledgeBase W text source metadata) s =
  Returns (Added (S (length (localKnowledge s))) [length (localKnowledge s)]).
Proof.
  assert (forall l (d : Doc.t),
            Added (length (l ++ [d])) [length (l ++ [d]) - 1] =
            Added (S (length l)) [length l]) as Hlen.
  { intros l d. rewrite length_app. cbn [length].
    replace (length l + 1) with (S (length l)) by lia.
    replace (S (length l) - 1) with (length l) by lia. reflexivity. }
  unfold addToKnowledgeBase, outcome, try_catch, mbind, M_bind, this, update,
    newDate, vectorAddDocuments, mret, M_ret.
  cbn [vectorStore chromaInitialized with_localKnowledge interacted].
  destruct (vectorStore s && chromaInitialized s);
    [destruct (addDocuments W _ text metadata)|];
    cbn [fst localKnowledge with_localKnowledge interacted]; rewrite Hlen;
    reflexivity.
Qed.

(** X6.  Ingestion of a text with a metadata object returns the position
    of the new document as its id: with n documents stored before, the
    result reports n + 1 documents and the id n, whether or not a vector
    store is attached and whether or not adding to it succeeds.  Successive
    ingestions therefore return successive ids.  With null for metadata the
    method reports failure with the message of the error, and has stored
    nothing. *)
Theorem ingestion_returns_next_id (W : World) (s : Service)
    (text source text' source' : string) (metadata metadata' : gmap string JsVal) :
  outcome (addToKnowledgeBase_any W text source (Some metadata)) s =
    Returns (Added (S (length (localKnowledge s))) [length (localKnowledge s)]) /\
  outcome (addToKnowledgeBase_any W text' source' (Some metadata'))
    (after (addToKnowledgeBase_any W text source (Some metadata)) s) =
    Returns (Added (S (S (length (localKnowledge s))))
                   [S (length (localKnowledge s))]) /\
  exists error,
    addToKnowledgeBase_any W text source None s = (Returns (AddFailed error), s).
Proof.
  cbn [addToKnowledgeBase_any].
  split; [apply addToKnowledgeBase_outcome|]. split; [|eexists; reflexivity].
  rewrite addToKnowledgeBase_outcome, addToKnowledgeBase_knowledge, length_app.
  cbn [length]. replace (length (localKnowledge s) + 1)
    with (S (length (localKnowledge s))) by lia.
  reflexivity.
Qed.

(** X7.  The ingested document is stored last, with the text as given.  In
    its metadata every key supplied by the caller keeps the caller's value,
    also source, type, timestamp and languages; the keys not supplied get
    the source argument, the type general, the time of ingestion and the
    languages list with en alone. *)
Theorem ingested_metadata_precedence (W : World) (s : Service)
    (text source : string) (metadata : gmap string JsVal) :
  exists stored,
    localKnowledge (after (addToKnowledgeBase W text source metadata) s) =
      localKnowledge s ++ [Doc.mk text stored] /\
    (forall key value, metadata !! key = Some value -> stored !! key = Some value) /\
    (metadata !! "source" = None -> stored !! "source" = Some (JStr source)) /\
    (metadata !! "type" = None -> stored !! "type" = Some (JStr "general")) /\
    (metadata !! "timestamp" = None ->
     stored !! "timestamp" = Some (JStr (now W (tick s)))) /\
    (metadata !! "languages" = None ->
     stored !! "languages" = Some (JStrs ["en"])).
Proof.
  exists (storedMetadata source (now W (tick s)) metadata).
  split; [apply addToKnowledgeBase_knowledge|].
  unfold storedMetadata. split; [|repeat split].
  - intros key value H. apply lookup_union_Some_l. exact H.
  - intros H. rewrite lookup_union_r by exact H. reflexivity.
  - intros H. rewrite lookup_union_r by exact H. rewrite H. reflexivity.
  - intros H. rewrite lookup_union_r by exact H. reflexivity.
  - intros H. rewrite lookup_union_r by exact H.
    destruct (metadata !! "type") as [v|]; [destruct (truthy v)|];
      rewrite H; reflexivity.
Qed.

Lemma ingested_metadata_precedence_witness :
  exists stored,
    localKnowledge
      (after (addToKnowledgeBase calmWorld "zebra crossing" "manual"
                {[ "source" := JStr "override" ]}) ready) =
      localKnowledge ready ++ [Doc.mk "zebra crossing" stored] /\
    stored !! "source" = Some (JStr "override") /\
    stored !! "type" = Some (JStr "general").
Proof.
  destruct (ingested_metadata_precedence calmWorld ready "zebra crossing" "manual"
              {[ "source" := JStr "override" ]})
    as [stored [Hk [Hgiven [_ [Htype _]]]]].
  exists stored. split; [exact Hk|]. split.
  - apply Hgiven. reflexivity.
  - apply Htype. reflexivity.
Defined.

(** ** Degraded operation *)

Lemma cannedResponse_inherited query language :
  Js.inherited language = true -> cannedResponse query language = Proto language.
Proof.
  unfold Js.inherited, Js.objectPrototype. cbn [existsb].
  intros H.
  repeat (apply orb_prop in H as [H|H];
          [apply String.eqb_eq in H; subst language; reflexivity|]).
  discriminate H.
Qed.

Lemma cannedResponse_text query language :
  Js.inherited language = false ->
  exists text, cannedResponse query language = Str text.
Proof.
  intros H. unfold cannedResponse, responses, Js.property.
  match goal with
  | |- context [match ?own with Some a => Js.Own a | None => _ end] =>
      destruct own as [text|]
  end.
  - exists text. reflexivity.
  - rewrite H. eexists. reflexivity.
Qed.

(** X8.  A service that is not ready, or has no backend handle, answers
    [ragQuery] with the canned response at once: it sends no prompt to the
    backend and issues no vector search.  The canned response is a text for
    every language but the property names of [Object.prototype], under
    which the table of responses yields the inherited value. *)
Theorem unready_service_answers_without_backend (W : World) (s : Service)
    (query language : string) (context : Context) :
  isReady s = false \/ llm s = false ->
  outcome (ragQuery W query language context) s =
    Returns {| Rag.text := cannedResponse query language;
               Rag.sources := ["fallback"];
               Rag.confidence := (6 # 10)%Q;
               Rag.language := language;
               Rag.timestamp := now W (tick s) |} /\
  prompts (after (ragQuery W query language context) s) = prompts s /\
  searches (after (ragQuery W query language context) s) = searches s /\
  (if Js.inherited language
   then cannedResponse query language = Proto language
   else exists text, cannedResponse query language = Str text).
Proof.
  intros Hoff.
  assert (negb (isReady s) || negb (llm s) = true) as Hb
    by (destruct Hoff as [-> | ->]; [reflexivity | apply orb_true_r]).
  split; [|split; [|split]].
  - unfold ragQuery, outcome, mbind, M_bind, this. rewrite Hb. reflexivity.
  - unfold ragQuery, after, mbind, M_bind, this. rewrite Hb. reflexivity.
  - unfold ragQuery, after, mbind, M_bind, this. rewrite Hb. reflexivity.
  - destruct (Js.inherited language) eqn:E;
      [apply cannedResponse_inherited | apply cannedResponse_text]; exact E.
Qed.

Lemma unready_service_answers_without_backend_witness :
  outcome (ragQuery calmWorld "hello" "hi" bareContext) constructed =
    Returns {| Rag.text := cannedResponse "hello" "hi";
               Rag.sources := ["fallback"];
               Rag.confidence := (6 # 10)%Q;
               Rag.language := "hi";
               Rag.timestamp := now calmWorld (tick constructed) |} /\
  prompts (after (ragQuery calmWorld "hello" "hi" bareContext) constructed)
    = prompts constructed /\
  searches (after (ragQuery calmWorld "hello" "hi" bareContext) constructed)
    = searches constructed.
Proof.
  destruct (unready_service_answers_without_backend calmWorld constructed
              "hello" "hi" bareContext) as [Ho [Hp [Hs _]]];
    [left; reflexivity|].
  split; [exact Ho|]. split; [exact Hp | exact Hs].
Defined.

Lemma sessionStep_tags W s query context :
  snd (sessionStep W s query context) = []
  \/ snd (sessionStep W s query context) = ["session_files"].
Proof.
  unfold sessionStep.
  destruct (ctx_sessionId context) as [sid|]; [|left; reflexivity].
  destruct (sessionContexts s !! sid) as [sc|]; [|left; reflexivity].
  destruct (Js.nonEmpty sid && (0 <? length (Session.files sc)));
    [|left; reflexivity].
  cbn [snd]. destruct (0 <? length _); [right | left]; reflexivity.
Qed.

(** X9.  Retrieval never fails on account of the vector store.  When the
    store is attached and its search throws, the merged documents are the
    local ones followed by the session-file ones, and chromadb is not among
    the sources; when the search returns, its documents come between the
    two and chromadb heads the sources, even when it returned nothing; when
    no store is attached no search is issued. *)
Theorem vector_store_failure_degrades_retrieval (W : World) (s : Service)
    (query : string) (context : Context) :
  (vectorStore s && chromaInitialized s = true ->
   (forall e,
      similaritySearch W (tick s) query 2 = Throws e ->
      exists sources,
        outcome (retrieve W query context) s =
          Returns (searchLocalKnowledge W query (localKnowledge s)
                     ++ fst (sessionStep W s query context), sources) /\
        ~ In "chromadb" sources /\ In "local_knowledge" sources) /\
   (forall chromaDocs,
      similaritySearch W (tick s) query 2 = Returns chromaDocs ->
      exists sources,
        outcome (retrieve W query context) s =
          Returns (searchLocalKnowledge W query (localKnowledge s)
                     ++ chromaDocs ++ fst (sessionStep W s query context),
                   "chromadb" :: sources))) /\
  (vectorStore s && chromaInitialized s = false ->
   (exists sources,
      outcome (retrieve W query context) s =
        Returns (searchLocalKnowledge W query (localKnowledge s)
                   ++ fst (sessionStep W s query context), sources) /\
      ~ In "chromadb" sources) /\
   searches (after (retrieve W query context) s) = searches s).
Proof.
  assert (~ In "chromadb" (snd (sessionStep W s query context) ++ ["local_knowledge"]))
    as Hno.
  { destruct (sessionStep_tags W s query context) as [-> | ->];
      cbn; intros H; repeat (destruct H as [H|H]; [discriminate H|]); exact H. }
  split.
  - intros Hon. split.
    + intros e He. eexists. rewrite retrieve_outcome.
      unfold vectorStep. rewrite Hon, He. cbn [fst snd app].
      split; [reflexivity|]. split; [exact Hno|].
      apply in_or_app. right. left. reflexivity.
    + intros chromaDocs Hdocs. eexists. rewrite retrieve_outcome.
      unfold vectorStep. rewrite Hon, Hdocs. cbn [fst snd app]. reflexivity.
  - intros Hoff. split.
    + eexists. rewrite retrieve_outcome. unfold vectorStep. rewrite Hoff.
      cbn [fst snd app]. split; [reflexivity | exact Hno].
    + rewrite retrieve_after, Hoff. reflexivity.
Qed.

Lemma vector_store_failure_degrades_retrieval_witness :
  exists sources,
    outcome (retrieve brokenIndexWorld "assistant" bareContext) readyBrokenIndex =
      Returns (searchLocalKnowledge brokenIndexWorld "assistant" (localKnowledge readyBrokenIndex)
                 ++ fst (sessionStep brokenIndexWorld readyBrokenIndex "assistant" bareContext),
               sources) /\
    ~ In "chromadb" sources /\ In "local_knowledge" sources.
Proof.
  destruct (vector_store_failure_degrades_retrieval brokenIndexWorld
              readyBrokenIndex "assistant" bareContext) as [Hon _].
  destruct (Hon eq_refl) as [Hthrow _].
  apply (Hthrow "connection refused"). reflexivity.
Defined.

(** ** Tokens *)

Lemma split_nonempty sep s : Js.split sep s <> [].
Proof.
  destruct s as [|c s]; cbn; [discriminate|].
  destruct (Ascii.eqb c sep); [discriminate|].
  destruct (Js.split sep s); discriminate.
Qed.

Lemma split_pieces_without_separator sep s w :
  In w (Js.split sep s) -> ~ In sep (list_ascii_of_string w).
Proof.
  revert w. induction s as [|c s IH]; intros w.
  - cbn. intros [<-|[]] [].
  - cbn [Js.split]. destruct (Ascii.eqb c sep) eqn:Ec.
    + intros [<-|Hin]; [intros [] | apply IH, Hin].
    + destruct (Js.split sep s) as [|w0 ws] eqn:E.
      * destruct (split_nonempty _ _ E).
      * intros [<-|Hin].
        -- cbn [list_ascii_of_string]. intros [->|Hw0].
           ++ rewrite Ascii.eqb_refl in Ec. discriminate Ec.
           ++ apply (IH w0); [left; reflexivity | exact Hw0].
        -- apply IH. right. exact Hin.
Qed.

Lemma filter_sublist {A} (keep : A -> bool) (l : list A) :
  List.filter keep l `sublist_of` l.
Proof.
  induction l as [|a l IH]; [constructor|].
  cbn. destruct (keep a); [apply sublist_skip | apply sublist_cons]; exact IH.
Qed.

(** X10.  The tokens of a query are the pieces between the spaces of the
    lower-cased query that have more than two UTF-16 code units, in their
    order: every token has more than two code units and contains no space,
    and every such piece is a token.  A query all of whose pieces are
    shorter, such as one word of two letters in any script, has no token. *)
Theorem query_tokens_are_lowercase_words (E : Js.Engine) (query : string) :
  queryWords E query `sublist_of` Js.split " " (Js.toLowerCase E query) /\
  (forall word,
     In word (queryWords E query) ->
     2 < Js.length word /\ ~ In " "%char (list_ascii_of_string word)) /\
  (forall word,
     In word (Js.split " " (Js.toLowerCase E query)) ->
     2 < Js.length word -> In word (queryWords E query)) /\
  ((forall word,
      In word (Js.split " " (Js.toLowerCase E query)) -> Js.length word <= 2) ->
   queryWords E query = []).
Proof.
  unfold queryWords. split; [apply filter_sublist|]. split; [|split].
  - intros word Hin. apply filter_In in Hin as [Hin Hlen].
    split; [apply Nat.ltb_lt, Hlen|].
    apply (split_pieces_without_separator _ _ _ Hin).
  - intros word Hin Hlen. apply filter_In. split; [exact Hin|].
    apply Nat.ltb_lt, Hlen.
  - intros Hshort.
    induction (Js.split " " (Js.toLowerCase E query)) as [|w ws IH];
      [reflexivity|].
    cbn [List.filter].
    destruct (Nat.ltb_spec 2 (Js.length w)) as [Hlt|_].
    + specialize (Hshort w (or_introl eq_refl)). lia.
    + apply IH. intros word Hin. apply Hshort. right. exact Hin.
Qed.

Lemma query_tokens_are_lowercase_words_witness :
  (2 < Js.length "total" /\ ~ In " "%char (list_ascii_of_string "total")) /\
  queryWords Js.exampleEngine "घर" = [].
Proof.
  split.
  - apply (proj1 (proj2 (query_tokens_are_lowercase_words Js.exampleEngine
                           "What was the TOTAL"))).
    vm_compute. auto.
  - apply (proj2 (proj2 (proj2 (query_tokens_are_lowercase_words
                                  Js.exampleEngine "घर")))).
    intros word [<-|[]]. vm_compute. lia.
Defined.

(** ** Local search *)



(** ** Session files *)

Lemma filter_length_bound {A} (keep : A -> bool) (l : list A) :
  length (List.filter keep l) <= length l.
Proof.
  induction l as [|a l IH]; [reflexivity|].
  cbn. destruct (keep a); cbn; lia.
Qed.

(** X13.  The match score of every passage returned by the session-file
    search lies above 0 and does not exceed 1. *)
Theorem session_file_scores_are_fractions (E : Js.Engine) (query : string)
    (files : list File.t)
    (p : Passage.t) :
  In p (searchInSessionFiles E query files) ->
  (0 < scoreOf p)%Q /\ (scoreOf p <= 1)%Q.
Proof.
  intros Hin.
  destruct (queryWords E query) as [|w ws] eqn:Ew.
  { unfold searchInSessionFiles in Hin. rewrite Ew in Hin. destruct Hin. }
  rewrite searchInSessionFiles_spec in Hin by (rewrite Ew; discriminate).
  apply in_map_iff in Hin as [f [<- Hf]].
  apply list_elem_of_In, elem_of_take in Hf as [i [Hf _]].
  apply list_elem_of_lookup_2, list_elem_of_In, filter_In in Hf as [_ Hm].
  unfold fileMatches in Hm. apply andb_prop in Hm as [_ Hpos].
  apply Nat.ltb_lt in Hpos.
  assert (matchedWordCount E (queryWords E query) f <= length (queryWords E query))
    as Hle by apply filter_length_bound.
  change (scoreOf (passageOfFile E (queryWords E query) f))
    with (Z.of_nat (matchedWordCount E (queryWords E query) f)
            # Pos.of_nat (length (queryWords E query)))%Q.
  rewrite Ew in *. cbn [length] in *.
  rewrite <- Pos.of_nat_succ.
  unfold Qlt, Qle. cbn [Qnum Qden]. rewrite Zpos_P_of_succ_nat. lia.
Qed.

Lemma session_file_scores_are_fractions_witness :
  (0 < 1 # 4)%Q /\ (1 # 4 <= 1)%Q.
Proof.
  apply (session_file_scores_are_fractions calmWorld "what was the total" [report]
           (passageOfFile calmWorld (queryWords calmWorld "what was the total") report)).
  vm_compute. left. reflexivity.
Defined.

(** ** Intent *)

(** X14.  The intent is that of the first keyword group, in the order
    upload, image, document, search, analysis, calculate, translate,
    greeting, help, one of whose keywords occurs in the lower-cased text, and
    general when none does.  It does not depend on the language argument. *)
Theorem intent_is_first_matching_group (E : Js.Engine)
    (text language language' : string) :
  detectIntent E text language = firstIntent E text /\
  detectIntent E text language' = detectIntent E text language.
Proof.
  assert (forall t l, detectIntent E t l = firstIntent E t) as H.
  { intros t l. unfold detectIntent, firstIntent, intentTable.
    cbn [List.find existsb snd fst].
    repeat match goal with
           | |- context [Js.includes (Js.toLowerCase E t) ?k] =>
               destruct (Js.includes (Js.toLowerCase E t) k); cbn [orb]; try reflexivity
           end. }
  split; [apply H|]. rewrite !H. reflexivity.
Qed.

(** ** History text *)

Lemma sliceLast_snoc {A} n (l : list A) (x : A) :
  0 < n ->
  exists earlier,
    Js.sliceLast n (l ++ [x]) = earlier ++ [x] /\
    earlier `suffix_of` l /\ length earlier < n.
Proof.
  intros Hn. unfold Js.sliceLast.
  destruct (Nat.eqb_spec n 0) as [->|_]; [lia|].
  rewrite length_app. cbn [length].
  exists (drop (length l + 1 - n) l). split; [|split].
  - apply drop_app_le. lia.
  - apply suffix_drop.
  - rewrite length_drop. lia.
Qed.

Lemma capped_snoc log x :
  exists earlier, capped (log ++ [x]) = earlier ++ [x] /\ earlier `suffix_of` log.
Proof.
  unfold capped. destruct (50 <? length (log ++ [x])).
  - destruct (sliceLast_snoc 50 log x) as [earlier [H1 [H2 _]]]; [lia|].
    exists earlier. split; assumption.
  - exists log. split; reflexivity.
Qed.

(** X15.  A stored turn can be read back: after storing a turn, the history
    text of its session, for any positive limit, is the rendering, one line
    per turn, of fewer than limit of the preceding turns, the most recent
    ones, followed by the turn just stored. *)
Theorem stored_turn_ends_history_text (W : World) (s : Service)
    (sessionId : string)
    (message : Msg.t) (limit : nat) :
  0 < limit ->
  exists earlier,
    outcome (getConversationHistory W sessionId limit)
      (after (storeConversation sessionId message) s) =
      Returns (Js.join Js.nl (map (renderTurn W) (earlier ++ [message]))) /\
    earlier `suffix_of` default [] (conversationHistory s !! sessionId) /\
    length earlier < limit.
Proof.
  intros Hlimit.
  rewrite getConversationHistory_outcome, storeConversation_capped,
    lookup_insert_eq.
  destruct (capped_snoc (default [] (conversationHistory s !! sessionId)) message)
    as [kept [-> Hkept]].
  destruct (sliceLast_snoc limit kept message Hlimit) as [earlier [-> [He Hl]]].
  exists earlier. split; [reflexivity|]. split; [|exact Hl].
  etrans; eassumption.
Qed.

Lemma stored_turn_ends_history_text_witness :
  exists earlier,
    outcome (getConversationHistory calmWorld "s1" 10)
      (after (storeConversation "s1" (turn 12)) chatty) =
      Returns (Js.join Js.nl (map (renderTurn calmWorld) (earlier ++ [turn 12]))) /\
    earlier `suffix_of` default [] (conversationHistory chatty !! "s1") /\
    length earlier < 10.
Proof.
  apply (stored_turn_ends_history_text calmWorld chatty "s1" (turn 12) 10). lia.
Defined.

(** ** Introspection *)

(** X16.  [getLanguageName] reports the configured name for en, hi, ar and
    te, and English for every other code that is no property name of
    [Object.prototype].  For such a name it reports the name of the
    inherited function, Object for the code constructor, and English for
    __proto__, whose value has no name.  Except under __proto__, the
    language named in the directives of a prompt is the one
    [getLanguageName] reports for the code. *)
Theorem prompt_language_is_reported_language (languageCode : string) :
  (languageCode <> "__proto__" ->
   configName (langConfigFor languageCode) = getLanguageName languageCode) /\
  (In languageCode supportedLanguages <->
   exists config, languageConfig languageCode = Js.Own config) /\
  (~ In languageCode supportedLanguages ->
   Js.inherited languageCode = false ->
   getLanguageName languageCode = "English") /\
  (Js.inherited languageCode = true ->
   getLanguageName languageCode =
   default "English" (Js.inheritedName languageCode)) /\
  getLanguageName "constructor" = "Object".
Proof.
  assert (forall config,
            languageConfig languageCode = Js.Own config ->
            In languageCode supportedLanguages /\ Js.nonEmpty (name config) = true)
    as Hown.
  { intros config H. unfold languageConfig, Js.property in H.
    repeat match type of H with
           | match (match ?x with _ => _ end) with _ => _ end = _ =>
               destruct x; try (injection H as <-; cbn; auto 10)
           end;
      destruct (Js.inherited _); discriminate H. }
  assert (forall key,
            languageConfig languageCode = Js.Inherited key ->
            key = languageCode /\ Js.inherited languageCode = true) as Hin.
  { intros key H. unfold languageConfig, Js.property in H.
    match type of H with
    | match ?own with _ => _ end = _ => destruct own; [discriminate H|]
    end.
    destruct (Js.inherited languageCode); [|discriminate H].
    injection H as <-. split; reflexivity. }
  assert (forall key,
            Js.inherited key = true -> key <> "__proto__" ->
            exists shown, Js.inheritedName key = Some shown /\
                       Js.nonEmpty shown = true) as Hname.
  { intros key H Hne. unfold Js.inherited, Js.objectPrototype in H.
    cbn [existsb] in H.
    repeat (apply orb_prop in H as [H|H];
            [apply String.eqb_eq in H; subst key;
             first [congruence | eexists; split; reflexivity]|]).
    discriminate H. }
  split; [|split; [|split; [|split]]].
  - intros Hne. unfold langConfigFor, getLanguageName.
    destruct (languageConfig languageCode) as [config|key|] eqn:E; [| |reflexivity].
    + destruct (Hown config eq_refl) as [_ ->]. reflexivity.
    + destruct (Hin key eq_refl) as [-> Hk].
      destruct (Hname languageCode Hk Hne) as [shown [Hs Hn]].
      cbn [configName]. rewrite Hs, Hn. reflexivity.
  - split.
    + intros [<-|[<-|[<-|[<-|[]]]]]; eexists; reflexivity.
    + intros [config H]. apply (Hown config H).
  - intros Hno Hni. unfold getLanguageName.
    destruct (languageConfig languageCode) as [config|key|] eqn:E; [| |reflexivity].
    + destruct (Hno (proj1 (Hown config eq_refl))).
    + destruct (Hin key eq_refl) as [_ Hk]. congruence.
  - intros Hk. unfold getLanguageName.
    assert (languageConfig languageCode = Js.Inherited languageCode) as ->.
    { pose proof (inherited_language languageCode Hk) as Hb.
      unfold langConfigFor in Hb.
      destruct (languageConfig languageCode) as [config|key|] eqn:E;
        [discriminate Hb | | discriminate Hb].
      destruct (Hin key eq_refl) as [-> _]. reflexivity. }
    destruct (String.eqb_spec languageCode "__proto__") as [->|Hne];
      [reflexivity|].
    destruct (Hname languageCode Hk Hne) as [shown [-> ->]]. reflexivity.
  - reflexivity.
Qed.

Lemma prompt_language_is_reported_language_witness :
  getLanguageName "fr" = "English" /\
  getLanguageName "toString" = "toString" /\
  configName (langConfigFor "constructor") = "Object".
Proof.
  split; [|split].
  - destruct (prompt_language_is_reported_language "fr") as [_ [_ [Hother _]]].
    apply Hother; [|reflexivity]. vm_compute. intros Hin.
    repeat (destruct Hin as [Hin|Hin]; [discriminate Hin|]). exact Hin.
  - destruct (prompt_language_is_reported_language "toString")
      as [_ [_ [_ [Hinh _]]]].
    apply Hinh. reflexivity.
  - destruct (prompt_language_is_reported_language "constructor") as [Hname _].
    rewrite Hname; [reflexivity | discriminate].
Defined.

Lemma initialize_run W :
  initialize W constructed =
  (Returns tt,
   {| vectorStore := match chromaProbe W with CollectionFound => true | _ => false end;
      llm := true; isReady := true;
      localKnowledge := systemKnowledge; conversationHistory := ∅;
      chromaInitialized :=
        match chromaProbe W with CollectionFound => true | _ => false end;
      sessionContexts := ∅; tick := 0; prompts := []; invocations := [];
      searches := [] |}).
Proof.
  unfold initialize, initializeChromaDB. destruct (chromaProbe W); reflexivity.
Qed.

(** X17.  In every world start-up succeeds and leaves the service ready,
    with a backend handle, the five system documents and no session; it
    reports a vector store exactly when the collection was found, and a
    missing or failing vector store does not prevent start-up. *)
Theorem startup_always_ready (W : World) :
  outcome (initialize W) constructed = Returns tt /\
  getStatus (after (initialize W) constructed) =
    {| st_isReady := true; hasLLM := true;
       hasVectorStore :=
         match chromaProbe W with CollectionFound => true | _ => false end;
       st_supportedLanguages := ["en"; "hi"; "ar"; "te"];
       localKnowledgeCount := 5;
       st_activeSessions := 0; st_conversationSessions := 0 |}.
Proof.
  unfold outcome, after. rewrite initialize_run. split; [reflexivity|].
  unfold getStatus. cbn [snd vectorStore chromaInitialized isReady llm
                         localKnowledge sessionContexts conversationHistory].
  destruct (chromaProbe W); reflexivity.
Qed.

(** X18.  The session count of the status follows the requests: answering a
    request for a session that was not registered raises it by one,
    answering for a registered session leaves it, and clearing a registered
    session lowers it by one. *)
Theorem status_counts_sessions (W : World) (s : Service) :
  (forall options,
     sessionContexts s !! opt_sessionId options = None ->
     st_activeSessions (getStatus (after (processWithRAG W options) s))
       = S (st_activeSessions (getStatus s))) /\
  (forall options,
     is_Some (sessionContexts s !! opt_sessionId options) ->
     st_activeSessions (getStatus (after (processWithRAG W options) s))
       = st_activeSessions (getStatus s)) /\
  (forall sessionId,
     is_Some (sessionContexts s !! sessionId) ->
     S (st_activeSessions (getStatus (after (clearSession W sessionId) s)))
       = st_activeSessions (getStatus s)).
Proof.
  unfold getStatus. cbn [st_activeSessions]. split; [|split].
  - intros options Hnone.
    rewrite processWithRAG_sessions, updateSessionContext_sessions.
    apply map_size_insert_None, Hnone.
  - intros options Hsome.
    rewrite processWithRAG_sessions, updateSessionContext_sessions.
    apply map_size_insert_Some, Hsome.
  - intros sessionId [session Hsome].
    change (sessionContexts (after (clearSession W sessionId) s))
      with (delete sessionId (sessionContexts s)).
    rewrite map_size_delete_Some by (eexists; exact Hsome).
    assert (size (sessionContexts s) <> 0) as Hne.
    { intros H0. apply map_size_empty_inv in H0. rewrite H0, lookup_empty in Hsome.
      discriminate. }
    lia.
Qed.

Lemma status_counts_sessions_witness :
  st_activeSessions (getStatus (after (processWithRAG calmWorld (ask "s2" "hello")) greeted))
    = S (st_activeSessions (getStatus greeted)) /\
  st_activeSessions (getStatus (after (processWithRAG calmWorld (ask "s1" "again")) greeted))
    = st_activeSessions (getStatus greeted) /\
  S (st_activeSessions (getStatus (after (clearSession calmWorld "s1") greeted)))
    = st_activeSessions (getStatus greeted).
Proof.
  destruct (status_counts_sessions calmWorld greeted) as [Hnew [Hold Hclear]].
  split; [|split].
  - apply (Hnew (ask "s2" "hello")). vm_compute. reflexivity.
  - apply (Hold (ask "s1" "again")). vm_compute. eexists. reflexivity.
  - apply (Hclear "s1"). vm_compute. eexists. reflexivity.
Defined.

(** * Properties of the file processor *)

(** X19.  [processFiles] returns one result for every uploaded file, in the
    order of the upload, with the name, the size and the type of that file,
    whatever fails on the way.  A result that reports a failure has no
    content and carries the error message. *)
Theorem every_upload_gets_a_result (H : Host) (n : nat) (files : list Upload.t) :
  length (processFiles H n files) = length files /\
  map Processed.filename (processFiles H n files) = map Upload.originalname files /\
  map Processed.size (processFiles H n files) = map Upload.size files /\
  map Processed.type (processFiles H n files)
    = map (fun file => getFileType (Upload.mimetype file)) files /\
  (forall result,
     In result (processFiles H n files) ->
     Processed.success result = false ->
     Processed.content result = None /\ is_Some (Processed.error result)).
Proof.
  assert (forall file k,
            match processFile H k file with
            | Returns r =>
                Processed.filename r = Upload.originalname file /\
                Processed.size r = Upload.size file /\
                Processed.type r = getFileType (Upload.mimetype file) /\
                Processed.success r = true
            | Throws _ => True
            end) as Hone.
  { intros file k. unfold processFile.
    destruct (writeFile H k _ _); [|exact I].
    destruct (isStr _ "image"); [|destruct (isStr _ "document")];
      repeat split. }
  revert n. induction files as [|file rest IH]; intros n.
  - split; [|split; [|split; [|split]]]; try reflexivity. intros result [].
  - destruct (IH (S n)) as [Hl [Hn [Hs [Ht Hf]]]].
    cbn [processFiles length map]. rewrite Hl, Hn, Hs, Ht.
    specialize (Hone file n).
    destruct (processFile H n file) as [r|e].
    + destruct Hone as [-> [-> [-> Hok]]].
      split; [|split; [|split; [|split]]]; try reflexivity.
      intros result [<-|Hin] Hfail; [congruence | apply Hf; assumption].
    + split; [|split; [|split; [|split]]]; try reflexivity.
      intros result [<-|Hin] Hfail; [|apply Hf; assumption].
      split; [reflexivity | eexists; reflexivity].
Qed.

Lemma every_upload_gets_a_result_witness :
  Forall
    (fun result =>
       Processed.content result = None /\ is_Some (Processed.error result))
    (processFiles fullDiskHost 0 [invoiceUpload; photoUpload]).
Proof.
  destruct (every_upload_gets_a_result fullDiskHost 0 [invoiceUpload; photoUpload])
    as [_ [_ [_ [_ Hfailed]]]].
  apply List.Forall_forall. intros result Hin.
  apply Hfailed; [exact Hin|].
  destruct Hin as [<-|[<-|[]]]; reflexivity.
Defined.

(** X20.  The processor knows the types that the upload filter lets
    through: a type is allowed exactly when it is an image or a document
    for the processor.  A type that is neither allowed nor a property name
    of [Object.prototype] is unknown; under such a name the lookup finds
    the inherited value, which is none of the three. *)
Theorem allowed_types_are_the_supported_types (mimeType : string) :
  (In mimeType allowedTypes <->
   getFileType mimeType = Str "image" \/ getFileType mimeType = Str "document") /\
  (~ In mimeType allowedTypes /\ Js.inherited mimeType = false <->
   getFileType mimeType = Str "unknown") /\
  (Js.inherited mimeType = true <-> getFileType mimeType = Proto mimeType).
Proof.
  assert (forall kind, supportedTypes mimeType = Js.Own kind ->
            In mimeType allowedTypes /\ (kind = "image" \/ kind = "document"))
    as Hown.
  { intros kind H. unfold supportedTypes, Js.property in H.
    repeat match type of H with
           | match (match ?x with _ => _ end) with _ => _ end = _ =>
               destruct x; try (injection H as <-; cbn; auto 20)
           end;
      destruct (Js.inherited _); discriminate H. }
  assert (In mimeType allowedTypes ->
          exists kind, supportedTypes mimeType = Js.Own kind) as Hin.
  { intros Hin. cbn in Hin.
    repeat (destruct Hin as [<-|Hin]; [eexists; reflexivity|]). destruct Hin. }
  assert (forall key, supportedTypes mimeType = Js.Inherited key ->
            key = mimeType /\ Js.inherited mimeType = true) as Hproto.
  { intros key H. unfold supportedTypes, Js.property in H.
    match type of H with
    | match ?own with _ => _ end = _ => destruct own; [discriminate H|]
    end.
    destruct (Js.inherited mimeType); [|discriminate H].
    injection H as <-. split; reflexivity. }
  assert (supportedTypes mimeType = Js.Missing -> Js.inherited mimeType = false)
    as Hmissing.
  { intros H. unfold supportedTypes, Js.property in H.
    match type of H with
    | match ?own with _ => _ end = _ => destruct own; [discriminate H|]
    end.
    destruct (Js.inherited mimeType); [discriminate H | reflexivity]. }
  assert (forall kind, supportedTypes mimeType = Js.Own kind ->
            Js.inherited mimeType = false) as Hnot.
  { intros kind H. destruct (Hown kind H) as [Hallowed _]. cbn in Hallowed.
    repeat (destruct Hallowed as [<-|Hallowed]; [reflexivity|]).
    destruct Hallowed. }
  unfold getFileType. split; [|split]; split.
  - intros H. destruct (Hin H) as [kind Hk]. rewrite Hk.
    destruct (Hown kind Hk) as [_ [-> | ->]]; auto.
  - destruct (supportedTypes mimeType) as [kind|key|] eqn:E.
    + intros _. apply (Hown kind eq_refl).
    + intros [H|H]; discriminate H.
    + intros [H|H]; discriminate H.
  - intros [Hno Hni].
    destruct (supportedTypes mimeType) as [kind|key|] eqn:E; [| |reflexivity].
    + destruct (Hno (proj1 (Hown kind eq_refl))).
    + destruct (Hproto key eq_refl) as [_ Hk]. congruence.
  - destruct (supportedTypes mimeType) as [kind|key|] eqn:E.
    + destruct (Hown kind eq_refl) as [_ [-> | ->]]; discriminate.
    + discriminate.
    + intros _. split; [|apply Hmissing; reflexivity].
      intros Hallowed. destruct (Hin Hallowed) as [kind Hk]. discriminate Hk.
  - intros Hk.
    destruct (supportedTypes mimeType) as [kind|key|] eqn:E.
    + rewrite (Hnot kind eq_refl) in Hk. discriminate Hk.
    + destruct (Hproto key eq_refl) as [-> _]. reflexivity.
    + rewrite (Hmissing eq_refl) in Hk. discriminate Hk.
  - destruct (supportedTypes mimeType) as [kind|key|] eqn:E.
    + discriminate.
    + intros _. apply (Hproto key eq_refl).
    + discriminate.
Qed.

(** ** Splitting and joining *)

Lemma chars_app a b :
  list_ascii_of_string (a +:+ b) = list_ascii_of_string a ++ list_ascii_of_string b.
Proof.
  induction a as [|x a IH]; [reflexivity|].
  change (String x a +:+ b) with (String x (a +:+ b)).
  cbn [list_ascii_of_string app]. rewrite IH. reflexivity.
Qed.

Lemma absent_join c sep pieces :
  ~ In c (list_ascii_of_string sep) ->
  (forall w, In w pieces -> ~ In c (list_ascii_of_string w)) ->
  ~ In c (list_ascii_of_string (Js.join sep pieces)).
Proof.
  intros Hsep. induction pieces as [|w [|w' rest] IH]; intros Hall.
  - intros [].
  - apply Hall. left. reflexivity.
  - change (Js.join sep (w :: w' :: rest))
      with (w +:+ sep +:+ Js.join sep (w' :: rest)).
    rewrite !chars_app. intros H.
    apply in_app_or in H as [H|H]; [apply (Hall w (or_introl eq_refl) H)|].
    apply in_app_or in H as [H|H]; [apply (Hsep H)|].
    revert H. apply IH. intros x Hx. apply Hall. right. exact Hx.
Qed.

Lemma split_pieces_keep_absent c sep s :
  ~ In c (list_ascii_of_string s) ->
  forall w, In w (Js.split sep s) -> ~ In c (list_ascii_of_string w).
Proof.
  induction s as [|x s IH]; intros Hs w.
  - cbn. intros [<-|[]] [].
  - cbn [list_ascii_of_string] in Hs.
    assert (x <> c) as Hx by (intros ->; apply Hs; left; reflexivity).
    assert (~ In c (list_ascii_of_string s)) as Hs'
      by (intros H; apply Hs; right; exact H).
    cbn [Js.split]. destruct (Ascii.eqb x sep).
    + intros [<-|Hin]; [intros [] | apply IH; assumption].
    + destruct (Js.split sep s) as [|w0 ws] eqn:E.
      * destruct (split_nonempty _ _ E).
      * intros [<-|Hin].
        -- cbn [list_ascii_of_string]. intros [H|H]; [exact (Hx H)|].
           revert H. apply IH; [exact Hs' | left; reflexivity].
        -- apply IH; [exact Hs' | right; exact Hin].
Qed.

Lemma split_whole sep w :
  ~ In sep (list_ascii_of_string w) -> Js.split sep w = [w].
Proof.
  induction w as [|x w IH]; [reflexivity|].
  cbn [list_ascii_of_string]. intros H.
  assert (Ascii.eqb x sep = false) as Hx.
  { destruct (Ascii.eqb_spec x sep) as [->|_]; [|reflexivity].
    destruct H. left. reflexivity. }
  cbn [Js.split]. rewrite Hx, IH; [reflexivity|].
  intros Hw. apply H. right. exact Hw.
Qed.

Lemma split_first sep w rest :
  ~ In sep (list_ascii_of_string w) ->
  Js.split sep (w +:+ String sep rest) = w :: Js.split sep rest.
Proof.
  induction w as [|x w IH].
  - intros _. change (EmptyString +:+ String sep rest) with (String sep rest).
    cbn [Js.split]. rewrite Ascii.eqb_refl. reflexivity.
  - cbn [list_ascii_of_string]. intros H.
    assert (Ascii.eqb x sep = false) as Hx.
    { destruct (Ascii.eqb_spec x sep) as [->|_]; [|reflexivity].
      destruct H. left. reflexivity. }
    change (String x w +:+ String sep rest) with (String x (w +:+ String sep rest)).
    cbn [Js.split]. rewrite Hx, IH; [reflexivity|].
    intros Hw. apply H. right. exact Hw.
Qed.

Lemma split_join sep pieces :
  pieces <> [] ->
  (forall w, In w pieces -> ~ In sep (list_ascii_of_string w)) ->
  Js.split sep (Js.join (String sep EmptyString) pieces) = pieces.
Proof.
  induction pieces as [|w [|w' rest] IH]; intros Hne Hall.
  - congruence.
  - apply split_whole, Hall. left. reflexivity.
  - change (Js.join (String sep EmptyString) (w :: w' :: rest))
      with (w +:+ String sep (Js.join (String sep EmptyString) (w' :: rest))).
    rewrite split_first by (apply Hall; left; reflexivity).
    f_equal. apply IH; [discriminate|].
    intros x Hx. apply Hall. right. exact Hx.
Qed.

(** X21.  [extractCSV] counts the lines that [trim] does not empty and
    reformats them.  With no such line the result is the empty-file notice.
    Otherwise it is a header with the number of those lines followed by as
    many rows, one per line and in their order, in which every comma has
    given way to a bar: splitting the body at line breaks gives the rows
    back, and no row holds a comma. *)
Theorem csv_rows_are_counted_and_reformatted (buffer : string) :
  let lines :=
    List.filter (fun line => Js.nonEmpty (Js.trim line))
      (Js.split (ascii_of_nat 10) buffer) in
  (lines = [] -> extractCSV buffer = "[CSV] Empty file") /\
  (lines <> [] ->
   exists rows,
     extractCSV buffer =
       "CSV Data (" +:+ pretty (length lines) +:+ " rows):" +:+ Js.nl +:+
       Js.join Js.nl rows /\
     Js.split (ascii_of_nat 10) (Js.join Js.nl rows) = rows /\
     rows = map (fun line => Js.join " | " (Js.split ","%char line)) lines /\
     length rows = length lines /\
     forall row, In row rows -> ~ In ","%char (list_ascii_of_string row)).
Proof.
  intros lines. unfold extractCSV. fold lines. split.
  - intros ->. reflexivity.
  - intros Hne.
    exists (map (fun line => Js.join " | " (Js.split ","%char line)) lines).
    destruct lines as [|l0 ls] eqn:El; [congruence|]. rewrite <- El in *.
    assert ((length lines =? 0) = false) as ->
      by (rewrite El; reflexivity).
    split; [reflexivity|]. split; [|split; [reflexivity|split]].
    + apply split_join.
      * rewrite El. discriminate.
      * intros row Hrow. apply in_map_iff in Hrow as [line [<- Hline]].
        apply absent_join.
        { cbn. intros H. repeat (destruct H as [H|H]; [discriminate H|]). exact H. }
        apply split_pieces_keep_absent.
        unfold lines in Hline. apply filter_In in Hline as [Hline _].
        apply (split_pieces_without_separator _ _ _ Hline).
    + apply length_map.
    + intros row Hrow. apply in_map_iff in Hrow as [line [<- _]].
      apply absent_join.
      { cbn. intros H. repeat (destruct H as [H|H]; [discriminate H|]). exact H. }
      intros w Hw. apply (split_pieces_without_separator _ _ _ Hw).
Qed.

Lemma csv_rows_are_counted_and_reformatted_witness :
  exists rows,
    extractCSV ("name,total" +:+ Js.nl +:+ Js.nl +:+ "invoice,500" +:+ Js.nl) =
      "CSV Data (" +:+ pretty 2 +:+ " rows):" +:+ Js.nl +:+ Js.join Js.nl rows /\
    rows = ["name | total"; "invoice | 500"].
Proof.
  destruct (csv_rows_are_counted_and_reformatted
              ("name,total" +:+ Js.nl +:+ Js.nl +:+ "invoice,500" +:+ Js.nl))
    as [_ Hrows].
  destruct Hrows as [rows [Hcsv [_ [Hmap _]]]]; [vm_compute; discriminate|].
  exists rows. split; [exact Hcsv | exact Hmap].
Defined.

(** X22.  A document of the upload is read as it is unless its extension
    calls for a parser: when the file is written and the lowercased
    extension is none of .pdf, .docx, .doc, .json and .csv, the content of
    the result is the text of the file; and an image that is written always
    gets a content, the description that names it. *)
Theorem plain_documents_are_read_verbatim (H : Host) (n : nat) (file : Upload.t) :
  (exists u,
     writeFile H n
       (pathJoin H (uploadsDir H)
          (uuidv4 H n +:+ Js.toLowerCase H (extname H (Upload.originalname file))))
       (Upload.buffer file) = Returns u) ->
  (getFileType (Upload.mimetype file) = Str "document" ->
   ~ In (Js.toLowerCase H (extname H (Upload.originalname file)))
        [".pdf"; ".docx"; ".doc"; ".json"; ".csv"] ->
   exists result,
     processFile H n file = Returns result /\
     Processed.content result = Some (Upload.buffer file)) /\
  (getFileType (Upload.mimetype file) = Str "image" ->
   exists result,
     processFile H n file = Returns result /\
     Processed.content result = Some (processImage H file) /\
     Processed.hasContent result = true).
Proof.
  intros [u Hw]. split.
  - intros Hdoc Hext. unfold processFile. rewrite Hw, Hdoc.
    cbn [isStr String.eqb Ascii.eqb Bool.eqb andb].
    eexists. split; [reflexivity|]. cbn [Processed.content]. f_equal.
    unfold extractDocumentContent.
    set (ext := Js.toLowerCase H (extname H (Upload.originalname file))) in *.
    clearbody ext. clear Hw.
    repeat match goal with
           | |- match ?x with _ => _ end = _ => destruct x; try reflexivity
           end;
      exfalso; apply Hext; cbn; auto 10.
  - intros Himg. unfold processFile. rewrite Hw, Himg.
    cbn [isStr String.eqb Ascii.eqb Bool.eqb andb].
    eexists. split; [reflexivity|]. split; reflexivity.
Qed.

Lemma plain_documents_are_read_verbatim_witness :
  exists result,
    processFile plainHost 0 invoiceUpload = Returns result /\
    Processed.content result = Some "invoice total $500".
Proof.
  apply (plain_documents_are_read_verbatim plainHost 0 invoiceUpload).
  - exists tt. reflexivity.
  - reflexivity.
  - vm_compute. intros H.
    repeat (destruct H as [H|H]; [discriminate H|]). exact H.
Defined.

Lemma every_upload_names (H : Host) (n : nat) (files : list Upload.t) :
  map Processed.filename (processFiles H n files) = map Upload.originalname files.
Proof.
  revert n. induction files as [|file rest IH]; intros n; [reflexivity|].
  cbn [processFiles map]. rewrite IH. f_equal.
  unfold processFile. destruct (writeFile H n _ _); [|reflexivity].
  destruct (isStr _ "image"); [|destruct (isStr _ "document")];
    reflexivity.
Qed.

(** * Properties of the transport layer *)

Section ServerRuns.

Context {A B : Type}.

Lemma sm_bind_run (m : SM A) (f : A -> SM B) srv a srv' :
  m srv = (Returns a, srv') -> (m ≫= f) srv = f a srv'.
Proof. intros E. unfold mbind, SM_bind. rewrite E. reflexivity. Qed.

Lemma sm_try_catch_run (m : SM A) (handler : string -> SM A) srv a srv' :
  m srv = (Returns a, srv') -> sm_try_catch m handler srv = (Returns a, srv').
Proof. intros E. unfold sm_try_catch. rewrite E. reflexivity. Qed.

Lemma liftAI_run (m : M A) srv a s' :
  m (ai srv) = (Returns a, s') -> liftAI m srv = (Returns a, with_ai s' srv).
Proof. intros E. unfold liftAI. rewrite E. reflexivity. Qed.

End ServerRuns.

Section Receiving.

Variable W : World.
Variable H : Host.

Lemma addToKnowledgeBase_sessions text source metadata :
  keeps sessionContexts (addToKnowledgeBase W text source metadata).
Proof.
  apply keeps_intro. intros x. unfold addToKnowledgeBase. frame.
  all: try (intros s Hs; exact Hs).
Qed.

Lemma addToKnowledgeBase_run text source metadata s :
  addToKnowledgeBase W text source metadata s =
  (Returns (Added (S (length (localKnowledge s))) [length (localKnowledge s)]),
   after (addToKnowledgeBase W text source metadata) s).
Proof. rewrite run_pair, addToKnowledgeBase_outcome. reflexivity. Qed.

Lemma ingestAll_cons sessionId file rest a :
  ingestAll W sessionId (file :: rest) a =
  ingestAll W sessionId rest
    (if Processed.hasContent file then
       after (addToKnowledgeBase W (File.text (Processed.toFile file))
                "file_upload" (uploadMetadata file sessionId)) a
     else a).
Proof. reflexivity. Qed.

Lemma ingestFiles_run sessionId results srv :
  ingestFiles W sessionId results srv =
  (Returns tt, with_ai (ingestAll W sessionId results (ai srv)) srv).
Proof.
  revert srv. induction results as [|file rest IH]; intros srv.
  - destruct srv. reflexivity.
  - rewrite ingestAll_cons.
    unfold ingestFiles. cbn [forEachM]. fold (ingestFiles W sessionId rest).
    destruct (Processed.hasContent file).
    + erewrite sm_bind_run.
      2:{ erewrite sm_bind_run; [reflexivity|].
          apply liftAI_run, addToKnowledgeBase_run. }
      rewrite IH. reflexivity.
    + erewrite sm_bind_run by reflexivity. rewrite IH. reflexivity.
Qed.

Lemma ingestAll_frame sessionId results a :
  sessionContexts (ingestAll W sessionId results a) = sessionContexts a /\
  conversationHistory (ingestAll W sessionId results a) = conversationHistory a /\
  map Doc.content (localKnowledge (ingestAll W sessionId results a)) =
    map Doc.content (localKnowledge a) ++ extractedTexts results.
Proof.
  revert a. induction results as [|file rest IH]; intros a.
  - unfold extractedTexts. cbn. rewrite app_nil_r. auto.
  - rewrite ingestAll_cons.
    unfold extractedTexts. cbn [List.filter].
    destruct (Processed.hasContent file).
    + fold (extractedTexts rest). cbn [map].
      destruct (IH (after (addToKnowledgeBase W (File.text (Processed.toFile file))
                             "file_upload" (uploadMetadata file sessionId)) a))
        as [Hs [Hh Hk]].
      rewrite Hs, Hh, Hk, addToKnowledgeBase_sessions, addToKnowledgeBase_history,
        addToKnowledgeBase_knowledge, map_app, <- app_assoc.
      auto.
    + fold (extractedTexts rest). apply IH.
Qed.

Lemma ensureSession_run sessionId files srv :
  ensureSession H sessionId files srv =
  (Returns tt,
   match activeSessions srv !! sessionId with
   | Some _ => srv
   | None =>
       with_activeSessions
         (<[sessionId := ServerSession.mk files [] (host_now H (events srv))]>
            (activeSessions srv))
         (with_events (S (events srv)) srv)
   end).
Proof.
  unfold ensureSession, server, mbind, SM_bind.
  destruct (activeSessions srv !! sessionId); reflexivity.
Qed.

(** What [receiveFiles] does: the files are processed from the current
    interaction on, the results are appended to the files of the server's
    session, created if need be, and their texts are ingested. *)
Lemma receiveFiles_run sessionId files srv :
  exists srv',
    receiveFiles W H sessionId files srv =
      (Returns (processFiles H (events srv) files), srv') /\
    ai srv' = ingestAll W sessionId (processFiles H (events srv) files) (ai srv) /\
    (exists session,
       activeSessions srv' !! sessionId = Some session /\
       ServerSession.files session =
         match activeSessions srv !! sessionId with
         | Some old => ServerSession.files old
         | None => []
         end ++ processFiles H (events srv) files /\
       ServerSession.messages session =
         match activeSessions srv !! sessionId with
         | Some old => ServerSession.messages old
         | None => []
         end) /\
    forall other,
      other <> sessionId ->
      activeSessions srv' !! other = activeSessions srv !! other.
Proof.
  unfold receiveFiles.
  erewrite sm_bind_run by reflexivity.
  erewrite sm_bind_run by apply ensureSession_run.
  erewrite sm_bind_run by reflexivity.
  erewrite sm_bind_run by apply ingestFiles_run.
  eexists. split; [reflexivity|].
  cbn [ai activeSessions with_ai with_activeSessions with_events events].
  destruct (activeSessions srv !! sessionId) as [old|] eqn:E;
    cbn [ai activeSessions with_ai with_activeSessions with_events events].
  - split; [reflexivity|]. split.
    + eexists. rewrite lookup_alter_eq, E. cbn. auto.
    + intros other Hne. apply lookup_alter_ne. congruence.
  - split; [reflexivity|]. split.
    + eexists. rewrite lookup_alter_eq, lookup_insert_eq. cbn. auto.
    + intros other Hne. rewrite lookup_alter_ne, lookup_insert_ne by congruence.
      reflexivity.
Qed.

End Receiving.

Section Serving.

Variable W : World.
Variable H : Host.

Lemma uploadSummaries_run results srv :
  exists summaries n,
    uploadSummaries H results srv = (Returns summaries, with_events n srv) /\
    map FileSummary.filename summaries = map Processed.filename results.
Proof.
  revert srv. induction results as [|f rest IH]; intros srv.
  - exists [], (events srv). destruct srv. split; reflexivity.
  - cbn [uploadSummaries].
    destruct (IH (with_events (S (events srv)) srv)) as [sums [n [Hrun Hnames]]].
    eexists. exists n.
    erewrite sm_bind_run by reflexivity.
    erewrite sm_bind_run by exact Hrun.
    split; [reflexivity|]. cbn [map FileSummary.filename]. rewrite Hnames.
    reflexivity.
Qed.

(** The first stage of /api/chat: the files of the request, if any, are
    received. *)
Lemma receive_stage sessionId files srv :
  exists srv1,
    (if 0 <? length files then receiveFiles W H sessionId files else mret []) srv =
      (Returns (processFiles H (events srv) files), srv1) /\
    ai srv1 = ingestAll W sessionId (processFiles H (events srv) files) (ai srv) /\
    match activeSessions srv1 !! sessionId with
    | Some session => ServerSession.files session
    | None => []
    end =
      match activeSessions srv !! sessionId with
      | Some old => ServerSession.files old
      | None => []
      end ++ processFiles H (events srv) files /\
    match activeSessions srv1 !! sessionId with
    | Some session => ServerSession.messages session
    | None => []
    end =
      match activeSessions srv !! sessionId with
      | Some old => ServerSession.messages old
      | None => []
      end /\
    forall other,
      other <> sessionId ->
      activeSessions srv1 !! other = activeSessions srv !! other.
Proof.
  destruct files as [|f fs].
  - exists srv. cbn [length Nat.ltb Nat.leb processFiles ingestAll fold_left].
    rewrite app_nil_r. repeat split; reflexivity.
  - destruct (receiveFiles_run W H sessionId (f :: fs) srv)
      as [srv1 [Hrun [Hai [[session [Hl [Hf Hm]]] Hother]]]].
    exists srv1. cbn [length Nat.ltb Nat.leb]. rewrite Hl.
    repeat split; assumption.
Qed.

(** X23.  An upload through /api/upload is answered with one summary per
    file.  Its results are appended to the files of the server's session
    and the extracted texts are added, in order, to the knowledge store of
    the service; the session contexts and the conversation logs of the
    service are not touched, so the files do not reach the session-file
    search. *)
Theorem upload_endpoint_feeds_knowledge_only (srv : Server) (sessionId : string)
    (files : list Upload.t) :
  files <> [] ->
  exists summaries timestamp srv',
    uploadFiles W H (Some sessionId) files srv =
      (Returns (UploadAccepted
                  ("Successfully processed " +:+ pretty (length files) +:+ " file(s)")
                  sessionId summaries timestamp), srv') /\
    map FileSummary.filename summaries = map Upload.originalname files /\
    sessionContexts (ai srv') = sessionContexts (ai srv) /\
    conversationHistory (ai srv') = conversationHistory (ai srv) /\
    map Doc.content (localKnowledge (ai srv')) =
      map Doc.content (localKnowledge (ai srv))
        ++ extractedTexts (processFiles H (events srv) files) /\
    exists session,
      activeSessions srv' !! sessionId = Some session /\
      ServerSession.files session =
        match activeSessions srv !! sessionId with
        | Some old => ServerSession.files old
        | None => []
        end ++ processFiles H (events srv) files.
Proof.
  intros Hne.
  destruct (receiveFiles_run W H sessionId files srv)
    as [srv1 [Hrun [Hai [[session [Hl [Hf _]]] _]]]].
  destruct (uploadSummaries_run (processFiles H (events srv) files) srv1)
    as [sums [n [Hsum Hnames]]].
  destruct (ingestAll_frame W sessionId (processFiles H (events srv) files) (ai srv))
    as [Hs [Hh Hk]].
  exists sums. eexists. eexists.
  unfold uploadFiles. split.
  - apply sm_try_catch_run.
    erewrite sm_bind_run by reflexivity.
    replace (length files =? 0) with false
      by (destruct files; [congruence|reflexivity]).
    erewrite sm_bind_run by exact Hrun.
    erewrite sm_bind_run by exact Hsum.
    erewrite sm_bind_run by reflexivity.
    reflexivity.
  - cbn [ai activeSessions with_events]. rewrite Hai, Hs, Hh, Hk, Hnames.
    split.
    { apply (every_upload_names H (events srv) files). }
    split; [reflexivity|]. split; [reflexivity|]. split; [reflexivity|].
    exists session. split; assumption.
Qed.

Lemma chat_run req sessionId srv0 srv :
  sessionIdOr H (req_sessionId req) srv0 = (Returns sessionId, srv) ->
  negb (truthyText (req_message req)) && (length (req_files req) =? 0) = false ->
  let results := processFiles H (events srv) (req_files req) in
  let oldFiles :=
    match activeSessions srv !! sessionId with
    | Some old => ServerSession.files old
    | None => []
    end in
  let oldMessages :=
    match activeSessions srv !! sessionId with
    | Some old => ServerSession.messages old
    | None => []
    end in
  exists options reply summaries timestamp srv',
    chat W H req srv0 =
      (Returns (ChatAnswered (Answer reply) sessionId summaries
                  (length (oldFiles ++ results)) timestamp), srv') /\
    opt_sessionId options = sessionId /\
    opt_files options = map Processed.toFile (oldFiles ++ results) /\
    newFiles options = map Processed.toFile results /\
    processWithRAG W options (ingestAll W sessionId results (ai srv)) =
      (Returns (Answer reply), ai srv') /\
    map FileSummary.filename summaries = map Upload.originalname (req_files req) /\
    (exists session t1 t2,
       activeSessions srv' !! sessionId = Some session /\
       ServerSession.files session = oldFiles ++ results /\
       ServerSession.messages session =
         let log :=
           oldMessages ++
           [ServerMessage.mk Msg.user (Str <$> req_message req)
              (Some (map Processed.filename results)) t1;
            ServerMessage.mk Msg.assistant (Some (Chat.text reply)) None t2] in
         if 20 <? length log then Js.sliceLast 20 log else log) /\
    forall other,
      other <> sessionId ->
      activeSessions srv' !! other = activeSessions srv !! other.
Proof.
  intros Hsid Hvalid. cbv zeta.
  destruct (receive_stage sessionId (req_files req) srv)
    as [srv1 [Hrun [Hai [Hf [Hm Hother]]]]].
  set (results := processFiles H (events srv) (req_files req)) in *.
  set (oldFiles := match activeSessions srv !! sessionId with
                   | Some old => ServerSession.files old | None => [] end) in *.
  set (oldMessages := match activeSessions srv !! sessionId with
                      | Some old => ServerSession.messages old | None => [] end) in *.
  set (sessionFiles := match activeSessions srv1 !! sessionId with
                       | Some session => ServerSession.files session
                       | None => [] end) in *.
  set (options :=
         if truthyText (req_message req) then
           {| message := default EmptyString (req_message req);
              opt_language := default "en" (req_language req);
              opt_sessionId := sessionId;
              useRAG := default true (req_useRAG req);
              analyzeSentimentFlag := default true (req_analyzeSentiment req);
              opt_files := map Processed.toFile sessionFiles;
              newFiles := map Processed.toFile results |}
         else
           {| message :=
                "I uploaded these files: " +:+
                Js.join Js.nl (map (fileSummaryLine H) results) +:+
                ". Analyze them and tell me about the content.";
              opt_language := default "en" (req_language req);
              opt_sessionId := sessionId;
              useRAG := true; analyzeSentimentFlag := false;
              opt_files := map Processed.toFile sessionFiles;
              newFiles := map Processed.toFile results |}).
  destruct (processWithRAG_total W options (ai srv1)) as [reply [s' Hp]].
  exists options, reply. eexists. eexists. eexists.
  split.
  { unfold chat. cbv zeta.
    apply sm_try_catch_run.
    erewrite sm_bind_run by exact Hsid.
    rewrite Hvalid.
    erewrite sm_bind_run by exact Hrun.
    erewrite sm_bind_run by reflexivity.
    erewrite sm_bind_run
      by (subst options; destruct (truthyText (req_message req));
          apply liftAI_run with (s' := s') (a := Answer reply); exact Hp).
    erewrite sm_bind_run by apply ensureSession_run.
    erewrite sm_bind_run by reflexivity.
    erewrite sm_bind_run by reflexivity.
    erewrite sm_bind_run by reflexivity.
    erewrite sm_bind_run by reflexivity.
    erewrite sm_bind_run by reflexivity.
    erewrite sm_bind_run by reflexivity.
    fold sessionFiles. rewrite Hf.
    unfold mret, SM_ret. reflexivity. }
  assert (Hoptions : opt_sessionId options = sessionId
                     /\ opt_files options = map Processed.toFile (oldFiles ++ results)
                     /\ newFiles options = map Processed.toFile results).
  { subst options. rewrite Hf.
    destruct (truthyText (req_message req)); repeat split; reflexivity. }
  destruct Hoptions as [Ho1 [Ho2 Ho3]].
  assert (Hnames : map (fun f => Processed.filename f) results =
                   map Upload.originalname (req_files req))
    by apply every_upload_names.
  rewrite <- Hai.
  clearbody options results oldFiles oldMessages. subst sessionFiles.
  destruct srv1 as [a1 m1 e1].
  cbn [ai activeSessions events with_ai with_activeSessions with_events] in *.
  split; [exact Ho1|]. split; [exact Ho2|]. split; [exact Ho3|].
  destruct (m1 !! sessionId) as [current|] eqn:E;
    cbn [ai activeSessions events with_ai with_activeSessions with_events].
  - split; [exact Hp|].
    split; [rewrite map_map; exact Hnames|].
    split.
    + eexists. exists (host_now H e1), (host_now H (S e1)).
      rewrite !lookup_alter_eq, E. cbn [fmap option_fmap option_map].
      split; [reflexivity|].
      cbn [ServerSession.files ServerSession.messages].
      rewrite <- app_assoc, Hm. cbn [app]. cbv zeta.
      destruct (20 <? length _);
        cbn [ServerSession.files ServerSession.messages];
        split; first [exact Hf | reflexivity].
    + intros other Hne. rewrite !lookup_alter_ne by congruence.
      apply Hother. exact Hne.
  - split; [exact Hp|].
    split; [rewrite map_map; exact Hnames|].
    symmetry in Hf. destruct (app_eq_nil _ _ Hf) as [Hold Hres].
    split.
    + eexists. exists (host_now H (S e1)), (host_now H (S (S e1))).
      rewrite !lookup_alter_eq, lookup_insert_eq.
      cbn [fmap option_fmap option_map].
      split; [reflexivity|].
      cbn [ServerSession.files ServerSession.messages].
      rewrite <- Hm. cbn [app]. cbv zeta.
      destruct (20 <? length _);
        cbn [ServerSession.files ServerSession.messages];
        (split; [rewrite Hold; reflexivity | reflexivity]).
    + intros other Hne.
      rewrite !lookup_alter_ne, lookup_insert_ne by congruence.
      apply Hother. exact Hne.
Qed.

Lemma sessionIdOr_run given srv :
  exists sessionId srv0,
    sessionIdOr H given srv = (Returns sessionId, srv0) /\
    ai srv0 = ai srv /\ activeSessions srv0 = activeSessions srv /\
    forall chosen, given = Some chosen -> sessionId = chosen /\ srv0 = srv.
Proof.
  destruct given as [chosen|].
  - exists chosen, srv. repeat split; try reflexivity; congruence.
  - eexists. eexists. split; [reflexivity|]. repeat split; discriminate.
Qed.

Lemma processWithRAG_reply_session options s reply s' :
  processWithRAG W options s = (Returns (Answer reply), s') ->
  Chat.sessionId reply = opt_sessionId options.
Proof.
  destruct (processWithRAG_run W options s) as [r [_ Hrun]]. cbv zeta in Hrun.
  rewrite Hrun. intros E. injection E as E _. subst reply. reflexivity.
Qed.


Lemma updatedSession_files s sessionId language files :
  Session.files (updatedSession W s sessionId language files) =
  match sessionContexts s !! sessionId with
  | Some old => Session.files old
  | None => []
  end ++ files.
Proof.
  unfold updatedSession, appended.
  destruct (sessionContexts s !! sessionId) as [old|];
    destruct files; cbn [length Nat.ltb Nat.leb Session.files];
    rewrite ?app_nil_r; reflexivity.
Qed.

(** X24.  For a request as the front end sends it, with strings for the
    message and the language where they are present and with files that
    the upload filter has accepted: without a message (absent or empty) and
    without files it is rejected with status 400 and changes neither the
    service nor the server's sessions; otherwise it is answered with the
    full reply of the service for the session of the request, one summary
    per uploaded file, and a count of the session's files that includes the
    new ones.  Requests that the middleware refuses and bodies whose
    language is no string are answered with status 500 and are no such
    requests. *)
Theorem chat_is_rejected_or_answered (req : ChatRequest) (srv : Server) :
  (truthyText (req_message req) = false -> req_files req = [] ->
   exists srv',
     chat W H req srv =
       (Returns (ChatRejected "Either message or files are required"), srv') /\
     ai srv' = ai srv /\ activeSessions srv' = activeSessions srv) /\
  (truthyText (req_message req) = true \/ req_files req <> [] ->
   exists answer sessionId summaries count timestamp srv',
     chat W H req srv =
       (Returns (ChatAnswered (Answer answer) sessionId summaries count timestamp),
        srv') /\
     (forall chosen, req_sessionId req = Some chosen -> sessionId = chosen) /\
     Chat.sessionId answer = sessionId /\
     map FileSummary.filename summaries =
       map Upload.originalname (req_files req) /\
     count =
       length match activeSessions srv !! sessionId with
              | Some old => ServerSession.files old
              | None => []
              end + length (req_files req)).
Proof.
  destruct (sessionIdOr_run (req_sessionId req) srv)
    as [sessionId [srv0 [Hsid [Ha [Hs Hgiven]]]]].
  split.
  - intros Hm Hf. exists srv0. split; [|split; assumption].
    unfold chat. cbv zeta. apply sm_try_catch_run.
    erewrite sm_bind_run by exact Hsid. rewrite Hm, Hf. reflexivity.
  - intros Hsome.
    assert (Hvalid : negb (truthyText (req_message req))
                     && (length (req_files req) =? 0) = false).
    { apply andb_false_iff. destruct Hsome as [Hm|Hf].
      - left. rewrite Hm. reflexivity.
      - right. destruct (req_files req); [congruence | reflexivity]. }
    destruct (chat_run req sessionId srv srv0 Hsid Hvalid)
      as [options [reply [summaries [ts [srv' [Hrun [Ho [_ [_ [Hp [Hn _]]]]]]]]]]].
    exists reply. eexists. eexists. eexists. eexists. exists srv'.
    split; [exact Hrun|]. split; [|split; [|split]].
    + intros chosen E. apply (Hgiven chosen E).
    + rewrite (processWithRAG_reply_session _ _ _ _ Hp). exact Ho.
    + exact Hn.
    + rewrite Hs, length_app. f_equal.
      rewrite <- (length_map Processed.filename), every_upload_names, length_map.
      reflexivity.
Qed.


(** X26.  DELETE /api/session/:id removes the server's entry only; the
    service is not told.  After a chat request and the deletion of its
    session, the service still holds the session's context, with the files
    of the request appended to its files, and the session's conversation
    log with the exchange. *)
Theorem deleted_session_survives_in_service (req : ChatRequest)
    (sessionId : string) (srv : Server) :
  req_sessionId req = Some sessionId ->
  truthyText (req_message req) = true \/ req_files req <> [] ->
  let chatted := sm_after (chat W H req) srv in
  let deleted := sm_after (deleteSession H sessionId) chatted in
  activeSessions deleted !! sessionId = None /\
  (forall other,
     other <> sessionId ->
     activeSessions deleted !! other = activeSessions chatted !! other) /\
  ai deleted = ai chatted /\
  (exists session,
     sessionContexts (ai deleted) !! sessionId = Some session /\
     Session.files session =
       match sessionContexts (ai srv) !! sessionId with
       | Some old => Session.files old
       | None => []
       end ++ map Processed.toFile (processFiles H (events srv) (req_files req))) /\
  exists log,
    conversationHistory (ai deleted) !! sessionId = Some log /\
    length log =
      Nat.min 50
        (length (default [] (conversationHistory (ai srv) !! sessionId)) + 2).
Proof.
  intros Hsid Hcontent. cbv zeta.
  assert (Hvalid : negb (truthyText (req_message req))
                   && (length (req_files req) =? 0) = false).
  { apply andb_false_iff. destruct Hcontent as [Hm|Hf].
    - left. rewrite Hm. reflexivity.
    - right. destruct (req_files req); [congruence | reflexivity]. }
  assert (Hor : sessionIdOr H (req_sessionId req) srv = (Returns sessionId, srv))
    by (rewrite Hsid; reflexivity).
  destruct (chat_run req sessionId srv srv Hor Hvalid)
    as [options [reply [summaries [ts [srv' [Hrun [Ho [_ [Hnew [Hp _]]]]]]]]]].
  assert (Hchat : sm_after (chat W H req) srv = srv')
    by (unfold sm_after; rewrite Hrun; reflexivity).
  rewrite Hchat.
  set (results := processFiles H (events srv) (req_files req)) in *.
  destruct (ingestAll_frame W sessionId results (ai srv)) as [Hs [Hh _]].
  unfold sm_after, deleteSession, sm_try_catch, sm_update, serverDate,
    mbind, SM_bind, mret, SM_ret.
  cbn [fst snd ai activeSessions with_activeSessions with_events].
  split; [apply lookup_delete_eq|].
  split; [intros other Hne; apply lookup_delete_ne; congruence|].
  split; [reflexivity|].
  assert (Hafter : ai srv' =
                   after (processWithRAG W options) (ingestAll W sessionId results (ai srv)))
    by (unfold after; rewrite Hp; reflexivity).
  split.
  - eexists. split.
    + rewrite Hafter, processWithRAG_sessions, updateSessionContext_sessions, Ho.
      apply lookup_insert_eq.
    + rewrite updatedSession_files, Hs, Hnew. reflexivity.
  - destruct (processWithRAG_history W options
                (ingestAll W sessionId results (ai srv)))
      as [r [tu [ta [_ Hlog]]]].
    eexists. split.
    + rewrite Hafter, Hlog, Ho. apply lookup_insert_eq.
    + rewrite capped_length, length_app, Hh. reflexivity.
Qed.

(** X27.  The server's own log of a session records each exchange as the
    request's message, as it was sent (none for a request with files
    only), followed by the text of the reply, and keeps the last twenty
    entries; the files of the request are appended to the session's
    files, and no other session changes. *)
Theorem chat_logs_the_exchange (req : ChatRequest) (sessionId : string)
    (srv : Server) :
  req_sessionId req = Some sessionId ->
  truthyText (req_message req) = true \/ req_files req <> [] ->
  let results := processFiles H (events srv) (req_files req) in
  let oldFiles :=
    match activeSessions srv !! sessionId with
    | Some old => ServerSession.files old
    | None => []
    end in
  let oldMessages :=
    match activeSessions srv !! sessionId with
    | Some old => ServerSession.messages old
    | None => []
    end in
  exists reply summaries count timestamp session t1 t2,
    sm_outcome (chat W H req) srv =
      Returns (ChatAnswered reply sessionId summaries count timestamp) /\
    activeSessions (sm_after (chat W H req) srv) !! sessionId = Some session /\
    ServerSession.files session = oldFiles ++ results /\
    ServerSession.messages session =
      Js.sliceLast 20
        (oldMessages ++
         [ServerMessage.mk Msg.user (Str <$> req_message req)
            (Some (map Upload.originalname (req_files req))) t1;
          ServerMessage.mk Msg.assistant (Some (reply_text reply)) None t2]) /\
    length (ServerSession.messages session) = Nat.min 20 (length oldMessages + 2) /\
    forall other,
      other <> sessionId ->
      activeSessions (sm_after (chat W H req) srv) !! other =
      activeSessions srv !! other.
Proof.
  intros Hsid Hcontent. cbv zeta.
  assert (Hvalid : negb (truthyText (req_message req))
                   && (length (req_files req) =? 0) = false).
  { apply andb_false_iff. destruct Hcontent as [Hm|Hf].
    - left. rewrite Hm. reflexivity.
    - right. destruct (req_files req); [congruence | reflexivity]. }
  assert (Hor : sessionIdOr H (req_sessionId req) srv = (Returns sessionId, srv))
    by (rewrite Hsid; reflexivity).
  destruct (chat_run req sessionId srv srv Hor Hvalid)
    as [options [reply [summaries [ts [srv' [Hrun [Ho [Hall [Hnew [Hp [Hn
         [Hsession Hother]]]]]]]]]]]].
  destruct Hsession as [session [t1 [t2 [Hl [Hf Hm]]]]].
  cbv zeta in Hm. rewrite every_upload_names in Hm.
  exists (Answer reply), summaries. eexists. exists ts, session, t1, t2.
  unfold sm_outcome, sm_after. rewrite Hrun. cbn [fst snd].
  split; [reflexivity|]. split; [exact Hl|]. split; [exact Hf|].
  assert (Hlast : forall log : list ServerMessage.t,
             (if 20 <? length log then Js.sliceLast 20 log else log) =
             Js.sliceLast 20 log).
  { intros log. unfold Js.sliceLast.
    destruct (Nat.ltb_spec 20 (length log)) as [Hlt|Hge]; [reflexivity|].
    replace (length log - 20) with 0 by lia. reflexivity. }
  rewrite Hlast in Hm. split; [exact Hm|]. split; [|exact Hother].
  rewrite Hm. unfold Js.sliceLast. cbn [Nat.eqb].
  rewrite length_drop, length_app.
  cbn [length]. lia.
Qed.

End Serving.

Lemma upload_endpoint_feeds_knowledge_only_witness :
  exists srv',
    sm_after (uploadFiles calmWorld plainHost (Some "s1") [invoiceUpload])
      (serving ready) = srv' /\
    sessionContexts (ai srv') = sessionContexts ready /\
    map Doc.content (localKnowledge (ai srv')) =
      map Doc.content (localKnowledge ready) ++ ["invoice total $500"].
Proof.
  destruct (upload_endpoint_feeds_knowledge_only calmWorld plainHost
              (serving ready) "s1" [invoiceUpload])
    as [summaries [ts [srv' [Hrun [_ [Hs [_ [Hk _]]]]]]]]; [discriminate|].
  exists srv'. split; [unfold sm_after; rewrite Hrun; reflexivity|].
  split; [exact Hs | exact Hk].
Defined.


Lemma deleted_session_survives_in_service_witness :
  activeSessions
    (sm_after (deleteSession plainHost "s1")
       (sm_after
          (chat calmWorld plainHost
             (chatRequest "s1" (Some "see attached") [invoiceUpload]))
          (serving ready))) !! "s1" = None /\
  exists session,
    sessionContexts
      (ai (sm_after (deleteSession plainHost "s1")
             (sm_after
                (chat calmWorld plainHost
                   (chatRequest "s1" (Some "see attached") [invoiceUpload]))
                (serving ready)))) !! "s1" = Some session /\
    map File.filename (Session.files session) = ["invoice.txt"].
Proof.
  pose proof (deleted_session_survives_in_service calmWorld plainHost
                (chatRequest "s1" (Some "see attached") [invoiceUpload]) "s1"
                (serving ready) eq_refl (or_introl eq_refl)) as Hw.
  cbv zeta in Hw. destruct Hw as [Hgone [_ [_ [[session [Hl Hf]] _]]]].
  split; [exact Hgone|].
  exists session. split; [exact Hl|]. rewrite Hf. reflexivity.
Defined.

Lemma chat_logs_the_exchange_witness :
  exists session,
    activeSessions
      (sm_after
         (chat calmWorld plainHost
            (chatRequest "s1" (Some "see attached") [invoiceUpload]))
         (serving ready)) !! "s1" = Some session /\
    length (ServerSession.messages session) = 2 /\
    map Processed.filename (ServerSession.files session) = ["invoice.txt"].
Proof.
  pose proof (chat_logs_the_exchange calmWorld plainHost
                (chatRequest "s1" (Some "see attached") [invoiceUpload]) "s1"
                (serving ready) eq_refl (or_introl eq_refl)) as Hw.
  cbv zeta in Hw.
  destruct Hw as [reply [summaries [count [ts [session [t1 [t2
                   [_ [Hl [Hf [_ [Hlen _]]]]]]]]]]]].
  exists session. split; [exact Hl|]. split.
  - rewrite Hlen. reflexivity.
  - rewrite Hf. reflexivity.
Defined.

Lemma chat_is_rejected_or_answered_witness :
  sm_outcome (chat calmWorld plainHost (chatRequest "s1" (Some EmptyString) []))
    (serving ready) =
  Returns (ChatRejected "Either message or files are required").
Proof.
  destruct (proj1 (chat_is_rejected_or_answered calmWorld plainHost
                     (chatRequest "s1" (Some EmptyString) []) (serving ready))
              eq_refl eq_refl)
    as [srv' [Hrun _]].
  unfold sm_outcome. rewrite Hrun. reflexivity.
Defined.
